(** * Network congestion analyzer: the simulation core of [analyzer/script.js]

    A shallow embedding of the discrete-time congestion simulation
    ([simulateNetworkTraffic]), its lifecycle ([startSimulation],
    [pauseSimulation], [resetSimulation]), the rolling chart buffer, the
    utilization status of [updateNetworkVisualization], the TCP behaviour
    label of [updateProtocolDisplays] and the traffic animation
    ([startTraffic], [generateTraffic], [createCar], [resetTraffic]).

    JavaScript numbers are IEEE-754 binary64 values.  The quantities that the
    script keeps integral (slider values, counters, the TCP window) are
    modelled as [Z]; this is exact for safe integers (absolute value below
    2^53).  Every fractional computation of the script ([overload /
    sendingRate], [1 - dropRate], [tcpWindowSize * 0.7], [packetRate /
    networkCapacity * 100]) goes through an arithmetic interface [JSArith]
    that is instantiated twice: with the binary64 operations of the standard
    library's [SpecFloat] (what the script runs on) and with exact rationals
    (the idealised reading of the same formulas).

    The three packet counters grow without bound, so their [+=] is modelled
    twice.  [simulateNetworkTraffic] adds them as integers;
    [simulateNetworkTraffic64] carries out the same additions, and the
    subtraction of the throughput sample, in binary64.  The two ticks
    coincide as long as the counters have room ([roomFor], lemma
    [tick64_agrees]) and differ once a counter has reached 2^53 (lemma
    [tick64_rounds_beyond_safe_range]).  The theorems that state what a tick
    adds to the counters are about [simulateNetworkTraffic64]. *)

From Stdlib Require Import ZArith List Bool String Lia QArith Qround PeanoNat.
From Stdlib Require Import SpecFloat.
Import ListNotations.

Local Open Scope Z_scope.

(** ** Arithmetic interface *)

Class JSArith (R : Type) : Type := {
  of_int : Z -> R;              (* an integer-valued Number used in a fractional expression *)
  lit_0_7 : R;                  (* the literal [0.7] *)
  num_sub : R -> R -> R;        (* [a - b] *)
  num_mul : R -> R -> R;        (* [a * b] *)
  num_div : R -> R -> R;        (* [a / b] *)
  num_ltb : R -> R -> bool;     (* [a < b] *)
  Math_floor : R -> option Z    (* [Math.floor]; [None] when the result is NaN or infinite *)
}.

(** *** IEEE-754 binary64 *)

Module B64.

Definition prec : Z := 53.
Definition emax : Z := 1024.

Definition MAX_SAFE_INTEGER : Z := 2 ^ 53 - 1.

Definition of_Z (z : Z) : spec_float := binary_normalize prec emax z 0 false.

Definition sub : spec_float -> spec_float -> spec_float := SFsub prec emax.
Definition mul : spec_float -> spec_float -> spec_float := SFmul prec emax.
Definition add : spec_float -> spec_float -> spec_float := SFadd prec emax.
Definition div : spec_float -> spec_float -> spec_float := SFdiv prec emax.
Definition ltb : spec_float -> spec_float -> bool := SFltb.
Definition leb : spec_float -> spec_float -> bool := SFleb.

(** The double nearest to 7/10, i.e. what the literal [0.7] denotes:
    6305039478318694 * 2^-53. *)
Definition c0_7 : spec_float := S754_finite false 6305039478318694 (-53).

(** [Math.floor] of [(-1)^s * m * 2^e]. *)
Definition floor (x : spec_float) : option Z :=
  match x with
  | S754_zero _ => Some 0
  | S754_finite s m e =>
      let z := cond_Zopp s (Zpos m) in
      Some (if 0 <=? e then z * 2 ^ e else z / 2 ^ (- e))
  | S754_infinity _ | S754_nan => None
  end.

End B64.

#[export] Instance binary64 : JSArith spec_float := {|
  of_int := B64.of_Z;
  lit_0_7 := B64.c0_7;
  num_sub := B64.sub;
  num_mul := B64.mul;
  num_div := B64.div;
  num_ltb := B64.ltb;
  Math_floor := B64.floor
|}.

(** *** Exact rational arithmetic *)


(** ** Global simulation state *)

Inductive Protocol : Set := tcp | udp.

(** [chartData = { time: [], throughput: [], loss: [] }] *)
Record ChartData : Set := mkChart {
  time : list string;
  throughput : list Z;
  loss : list Z
}.

Record Sim : Set := mkSim {
  packetRate : Z;
  networkCapacity : Z;
  sentPackets : Z;
  deliveredPackets : Z;
  droppedPackets : Z;
  currentProtocol : Protocol;
  isSimulationRunning : bool;
  tcpWindowSize : Z;
  chartData : ChartData;
  simulationInterval : bool      (* is the 1000 ms interval timer armed? *)
}.

Definition emptyChart : ChartData := mkChart [] [] [].

(** The values of the top-level [let] declarations of the script. *)
Definition initial : Sim :=
  {| packetRate := 10; networkCapacity := 15;
     sentPackets := 0; deliveredPackets := 0; droppedPackets := 0;
     currentProtocol := tcp; isSimulationRunning := false;
     tcpWindowSize := 1; chartData := emptyChart;
     simulationInterval := false |}.

(** Field updates (assignments to the script's global variables). *)
Definition setCounters (sent delivered dropped : Z) (st : Sim) : Sim :=
  {| packetRate := packetRate st; networkCapacity := networkCapacity st;
     sentPackets := sent; deliveredPackets := delivered; droppedPackets := dropped;
     currentProtocol := currentProtocol st;
     isSimulationRunning := isSimulationRunning st;
     tcpWindowSize := tcpWindowSize st; chartData := chartData st;
     simulationInterval := simulationInterval st |}.

Definition setWindow (w : Z) (st : Sim) : Sim :=
  {| packetRate := packetRate st; networkCapacity := networkCapacity st;
     sentPackets := sentPackets st; deliveredPackets := deliveredPackets st;
     droppedPackets := droppedPackets st;
     currentProtocol := currentProtocol st;
     isSimulationRunning := isSimulationRunning st;
     tcpWindowSize := w; chartData := chartData st;
     simulationInterval := simulationInterval st |}.

Definition setChart (cd : ChartData) (st : Sim) : Sim :=
  {| packetRate := packetRate st; networkCapacity := networkCapacity st;
     sentPackets := sentPackets st; deliveredPackets := deliveredPackets st;
     droppedPackets := droppedPackets st;
     currentProtocol := currentProtocol st;
     isSimulationRunning := isSimulationRunning st;
     tcpWindowSize := tcpWindowSize st; chartData := cd;
     simulationInterval := simulationInterval st |}.

Definition setIsRunning (b : bool) (st : Sim) : Sim :=
  {| packetRate := packetRate st; networkCapacity := networkCapacity st;
     sentPackets := sentPackets st; deliveredPackets := deliveredPackets st;
     droppedPackets := droppedPackets st;
     currentProtocol := currentProtocol st;
     isSimulationRunning := b;
     tcpWindowSize := tcpWindowSize st; chartData := chartData st;
     simulationInterval := simulationInterval st |}.

(** [setInterval(...)] arms the timer, [clearInterval(...)] disarms it. *)
Definition setTimer (armed : bool) (st : Sim) : Sim :=
  {| packetRate := packetRate st; networkCapacity := networkCapacity st;
     sentPackets := sentPackets st; deliveredPackets := deliveredPackets st;
     droppedPackets := droppedPackets st;
     currentProtocol := currentProtocol st;
     isSimulationRunning := isSimulationRunning st;
     tcpWindowSize := tcpWindowSize st; chartData := chartData st;
     simulationInterval := armed |}.

Definition setPacketRate (v : Z) (st : Sim) : Sim :=
  {| packetRate := v; networkCapacity := networkCapacity st;
     sentPackets := sentPackets st; deliveredPackets := deliveredPackets st;
     droppedPackets := droppedPackets st;
     currentProtocol := currentProtocol st;
     isSimulationRunning := isSimulationRunning st;
     tcpWindowSize := tcpWindowSize st; chartData := chartData st;
     simulationInterval := simulationInterval st |}.

Definition setNetworkCapacity (v : Z) (st : Sim) : Sim :=
  {| packetRate := packetRate st; networkCapacity := v;
     sentPackets := sentPackets st; deliveredPackets := deliveredPackets st;
     droppedPackets := droppedPackets st;
     currentProtocol := currentProtocol st;
     isSimulationRunning := isSimulationRunning st;
     tcpWindowSize := tcpWindowSize st; chartData := chartData st;
     simulationInterval := simulationInterval st |}.

Definition setCurrentProtocol (p : Protocol) (st : Sim) : Sim :=
  {| packetRate := packetRate st; networkCapacity := networkCapacity st;
     sentPackets := sentPackets st; deliveredPackets := deliveredPackets st;
     droppedPackets := droppedPackets st;
     currentProtocol := p;
     isSimulationRunning := isSimulationRunning st;
     tcpWindowSize := tcpWindowSize st; chartData := chartData st;
     simulationInterval := simulationInterval st |}.

(** Option monad for the places where a Number may stop being an integer. *)
Definition obind {A B : Type} (o : option A) (k : A -> option B) : option B :=
  match o with Some a => k a | None => None end.

Notation "x <- c ;; k" := (obind c (fun x => k))
  (at level 61, c at next level, right associativity).

(** ** The chart buffer (lines 224-233 of the script) *)

(** [chartData.xs.push(v)] on the three columns, then the "keep data
    manageable" trim. *)
Definition chartPush (t : string) (thr l : Z) (cd : ChartData) : ChartData :=
  let cd1 := mkChart (time cd ++ [t]) (throughput cd ++ [thr]) (loss cd ++ [l]) in
  if 8 <? Z.of_nat (List.length (time cd1))
  then mkChart (tl (time cd1)) (tl (throughput cd1)) (tl (loss cd1))
  else cd1.

(** [chartData.throughput[chartData.throughput.length - 1] || 0] *)
Definition lastThroughput (cd : ChartData) : Z := last (throughput cd) 0.

Definition recordSample (currentTime : string) (delivered dropped : Z)
    (cd : ChartData) : ChartData :=
  chartPush currentTime (delivered - lastThroughput cd) dropped cd.

(** ** Lifecycle and configuration handlers *)

Definition resetNetworkStats (st : Sim) : Sim :=
  setChart emptyChart (setWindow 1 (setCounters 0 0 0 st)).

(** [if (isSimulationRunning) return; isSimulationRunning = true;
     resetNetworkStats(); simulationInterval = setInterval(..., 1000)] *)
Definition startSimulation (st : Sim) : Sim :=
  if isSimulationRunning st then st
  else setTimer true (resetNetworkStats (setIsRunning true st)).

(** [isSimulationRunning = false; clearInterval(simulationInterval)] *)
Definition pauseSimulation (st : Sim) : Sim :=
  setTimer false (setIsRunning false st).

(** [resetCharts]: [chartData = { time: [], throughput: [], loss: [] }] *)
Definition resetCharts (st : Sim) : Sim := setChart emptyChart st.

(** [pauseSimulation(); resetNetworkStats(); updateStats(); resetCharts(); ...]
    (the remaining calls only repaint the page). *)
Definition resetSimulation (st : Sim) : Sim :=
  resetCharts (resetNetworkStats (pauseSimulation st)).

(** [currentProtocol = protocol; ...; if (isSimulationRunning) resetSimulation()] *)
Definition setProtocol (p : Protocol) (st : Sim) : Sim :=
  let st1 := setCurrentProtocol p st in
  if isSimulationRunning st1 then resetSimulation st1 else st1.

(** The two slider listeners of [initializeEventListeners]; [v] is
    [parseInt(e.target.value)]. *)
Definition onPacketRateInput (v : Z) (st : Sim) : Sim := setPacketRate v st.
Definition onNetworkCapacityInput (v : Z) (st : Sim) : Sim := setNetworkCapacity v st.

(** What can happen to the page, in the order the browser delivers it. *)
Inductive Event : Set :=
  | Start
  | Pause
  | Reset
  | Tick (currentTime : string)       (* the interval timer fires *)
  | SetProtocol (p : Protocol)
  | PacketRateInput (v : Z)
  | NetworkCapacityInput (v : Z).

(** Safe integers in the range the sliders are meant to deliver. *)
Definition validValue (v : Z) : Prop := 1 <= v <= B64.MAX_SAFE_INTEGER.

Definition validEvent (e : Event) : Prop :=
  match e with
  | PacketRateInput v | NetworkCapacityInput v => validValue v
  | _ => True
  end.

Definition validConfig (st : Sim) : Prop :=
  validValue (packetRate st) /\ validValue (networkCapacity st).

Definition conserved (st : Sim) : Prop :=
  deliveredPackets st + droppedPackets st = sentPackets st.

(** The states the page can be in: valid sliders, a window that is a positive
    safe integer, and balanced counters. *)
Definition goodState (st : Sim) : Prop :=
  validConfig st /\ validValue (tcpWindowSize st) /\ conserved st.

(** The samples of a chart, as rows. *)
Definition Sample : Set := (string * Z * Z)%type.

Definition chartOf (rows : list Sample) : ChartData :=
  mkChart (map (fun r => fst (fst r)) rows)
          (map (fun r => snd (fst r)) rows)
          (map snd rows).

Definition pushSample (cd : ChartData) (r : Sample) : ChartData :=
  chartPush (fst (fst r)) (snd (fst r)) (snd r) cd.

Definition pushAll (rows : list Sample) (cd : ChartData) : ChartData :=
  fold_left pushSample rows cd.

(** ** One simulation tick *)

Section Simulation.

Context {R : Type} {A : JSArith R}.

(** [currentProtocol === 'tcp' ? Math.min(packetRate, tcpWindowSize) : packetRate] *)
Definition sendingRate (st : Sim) : Z :=
  match currentProtocol st with
  | tcp => Z.min (packetRate st) (tcpWindowSize st)
  | udp => packetRate st
  end.

Definition overload (st : Sim) : Z :=
  Z.max 0 (sendingRate st - networkCapacity st).

(** [Math.floor(sendingRate * (1 - overload / sendingRate))] *)
Definition deliveredUnderOverload (sending over : Z) : option Z :=
  let dropRate := num_div (of_int over) (of_int sending) in
  Math_floor (num_mul (of_int sending) (num_sub (of_int 1) dropRate)).

(** [Math.max(1, Math.floor(tcpWindowSize * 0.7))] *)
Definition backoff (w : Z) : option Z :=
  f <- Math_floor (num_mul (of_int w) lit_0_7) ;;
  Some (Z.max 1 f).

(** [Math.min(packetRate, tcpWindowSize + 1)] *)
Definition slowStart (rate w : Z) : Z := Z.min rate (w + 1).

Definition simulateNetworkTraffic (currentTime : string) (st : Sim) : option Sim :=
  let sending := sendingRate st in
  (* sentPackets += sendingRate *)
  let sent := sentPackets st + sending in
  let over := Z.max 0 (sending - networkCapacity st) in
  st' <-
    (if 0 <? over then
       (* congestion occurs *)
       delivered <- deliveredUnderOverload sending over ;;
       let dropped := sending - delivered in
       let st1 := setCounters sent (deliveredPackets st + delivered)
                              (droppedPackets st + dropped) st in
       match currentProtocol st with
       | tcp => w <- backoff (tcpWindowSize st) ;; Some (setWindow w st1)
       | udp => Some st1
       end
     else
       (* normal operation *)
       let st1 := setCounters sent (deliveredPackets st + sending)
                              (droppedPackets st) st in
       match currentProtocol st with
       | tcp => Some (setWindow (slowStart (packetRate st) (tcpWindowSize st)) st1)
       | udp => Some st1
       end) ;;
  (* update chart data *)
  Some (setChart (recordSample currentTime (deliveredPackets st')
                               (droppedPackets st') (chartData st')) st').

(** Consecutive firings of the interval callback. *)
Fixpoint ticks (ts : list string) (st : Sim) : option Sim :=
  match ts with
  | [] => Some st
  | t :: ts' => st' <- simulateNetworkTraffic t st ;; ticks ts' st'
  end.

(** The interval callback runs only while the timer is armed. *)
Definition handle (e : Event) (st : Sim) : option Sim :=
  match e with
  | Start => Some (startSimulation st)
  | Pause => Some (pauseSimulation st)
  | Reset => Some (resetSimulation st)
  | Tick t => if simulationInterval st then simulateNetworkTraffic t st else Some st
  | SetProtocol p => Some (setProtocol p st)
  | PacketRateInput v => Some (onPacketRateInput v st)
  | NetworkCapacityInput v => Some (onNetworkCapacityInput v st)
  end.

Fixpoint run (es : list Event) (st : Sim) : option Sim :=
  match es with
  | [] => Some st
  | e :: es' => st' <- handle e st ;; run es' st'
  end.

(** Every one of the given ticks finds [sendingRate <= networkCapacity]. *)
Fixpoint noOverloadTicks (ts : list string) (st : Sim) : Prop :=
  match ts with
  | [] => True
  | t :: ts' =>
      sendingRate st <= networkCapacity st /\
      match simulateNetworkTraffic t st with
      | Some st' => noOverloadTicks ts' st'
      | None => False
      end
  end.

(** ** Utilization status ([updateNetworkVisualization]) *)

Inductive Status : Set := Normal | Warning | Congested.

(** [(packetRate / networkCapacity) * 100] *)
Definition utilization (rate cap : Z) : R :=
  num_mul (num_div (of_int rate) (of_int cap)) (of_int 100).

Definition statusOf (u : R) : Status :=
  if num_ltb u (of_int 60) then Normal
  else if num_ltb u (of_int 85) then Warning
  else Congested.

Definition networkStatus (rate cap : Z) : Status :=
  statusOf (utilization rate cap).

End Simulation.

(** ** The tick with the counters in binary64 *)

(** [a + b] and [a - b] on two integer-valued Numbers, in binary64, the
    result read back as an integer. *)
Definition jsAdd (a b : Z) : option Z :=
  B64.floor (B64.add (B64.of_Z a) (B64.of_Z b)).

Definition jsSub (a b : Z) : option Z :=
  B64.floor (B64.sub (B64.of_Z a) (B64.of_Z b)).

(** The counters have room for [n] more packets: each of them is a
    non-negative integer that is still at most [MAX_SAFE_INTEGER] after [n]
    has been added, and the newest throughput sample lies between 0 and
    [deliveredPackets] (as it does in every state the page reaches).  Then
    every sum and difference the tick forms on them is a safe integer. *)
Definition roomFor (n : Z) (st : Sim) : Prop :=
  0 <= sentPackets st <= B64.MAX_SAFE_INTEGER - n /\
  0 <= deliveredPackets st <= B64.MAX_SAFE_INTEGER - n /\
  0 <= droppedPackets st <= B64.MAX_SAFE_INTEGER - n /\
  0 <= lastThroughput (chartData st) <= deliveredPackets st.

(** [simulateNetworkTraffic] with the [+=] on the three counters, the
    [sendingRate - delivered] and the subtraction of the throughput sample
    carried out in binary64; the tick returns nothing if one of them is no
    longer a number. *)
Definition simulateNetworkTraffic64 (currentTime : string) (st : Sim) : option Sim :=
  let sending := sendingRate st in
  (* sentPackets += sendingRate *)
  sent <- jsAdd (sentPackets st) sending ;;
  let over := Z.max 0 (sending - networkCapacity st) in
  st' <-
    (if 0 <? over then
       delivered <- deliveredUnderOverload (A := binary64) sending over ;;
       dropped <- jsSub sending delivered ;;
       (* deliveredPackets += delivered; droppedPackets += dropped *)
       deliveredTotal <- jsAdd (deliveredPackets st) delivered ;;
       droppedTotal <- jsAdd (droppedPackets st) dropped ;;
       let st1 := setCounters sent deliveredTotal droppedTotal st in
       match currentProtocol st with
       | tcp => w <- backoff (A := binary64) (tcpWindowSize st) ;; Some (setWindow w st1)
       | udp => Some st1
       end
     else
       (* deliveredPackets += sendingRate *)
       deliveredTotal <- jsAdd (deliveredPackets st) sending ;;
       let st1 := setCounters sent deliveredTotal (droppedPackets st) st in
       match currentProtocol st with
       | tcp => Some (setWindow (slowStart (packetRate st) (tcpWindowSize st)) st1)
       | udp => Some st1
       end) ;;
  (* deliveredPackets - (chartData.throughput[length - 1] || 0) *)
  sample <- jsSub (deliveredPackets st') (lastThroughput (chartData st')) ;;
  Some (setChart (chartPush currentTime sample (droppedPackets st') (chartData st')) st').

(** [ticks], [handle] and [run] over [simulateNetworkTraffic64]. *)
Fixpoint ticks64 (ts : list string) (st : Sim) : option Sim :=
  match ts with
  | [] => Some st
  | t :: ts' => st' <- simulateNetworkTraffic64 t st ;; ticks64 ts' st'
  end.

Definition handle64 (e : Event) (st : Sim) : option Sim :=
  match e with
  | Tick t => if simulationInterval st then simulateNetworkTraffic64 t st else Some st
  | _ => handle (A := binary64) e st
  end.

Fixpoint run64 (es : list Event) (st : Sim) : option Sim :=
  match es with
  | [] => Some st
  | e :: es' => st' <- handle64 e st ;; run64 es' st'
  end.

(** Along the run of [es] from [st], every timer tick that fires finds room
    for the packets it sends. *)
Fixpoint countersStaySafe (es : list Event) (st : Sim) : Prop :=
  match es with
  | [] => True
  | e :: es' =>
      match e with
      | Tick _ => if simulationInterval st then roomFor (sendingRate st) st else True
      | _ => True
      end /\
      match handle64 e st with
      | Some st' => countersStaySafe es' st'
      | None => True
      end
  end.

(** Every one of the given ticks finds [sendingRate <= networkCapacity]. *)
Fixpoint noOverloadTicks64 (ts : list string) (st : Sim) : Prop :=
  match ts with
  | [] => True
  | t :: ts' =>
      sendingRate st <= networkCapacity st /\
      match simulateNetworkTraffic64 t st with
      | Some st' => noOverloadTicks64 ts' st'
      | None => False
      end
  end.

(** The state reached from [initial] by [Start] and one tick at time "1". *)
Definition afterOneTick : Sim :=
  mkSim 10 15 1 1 0 tcp true 2 (mkChart ["1"%string] [1] [0]) true.

(** ** The TCP behaviour label of [updateProtocolDisplays] *)

Inductive Behavior : Set :=
  | BehaviorNormal | ReducingRate | Monitoring | IncreasingRate.

Section Displays.

Context {R : Type} {A : JSArith R}.

(** [let behavior = 'Normal';
     if (utilization > 85) behavior = 'Reducing Rate';
     else if (utilization > 70) behavior = 'Monitoring';
     else if (tcpWindowSize < packetRate) behavior = 'Increasing Rate';] *)
Definition tcpBehavior (st : Sim) : Behavior :=
  let u := utilization (packetRate st) (networkCapacity st) in
  if num_ltb (of_int 85) u then ReducingRate
  else if num_ltb (of_int 70) u then Monitoring
  else if tcpWindowSize st <? packetRate st then IncreasingRate
  else BehaviorNormal.

End Displays.

(** ** Shape of the chart columns *)

(** The three columns have the same length, at most eight. *)
Definition chartAligned (cd : ChartData) : Prop :=
  List.length (throughput cd) = List.length (time cd) /\
  List.length (loss cd) = List.length (time cd) /\
  (List.length (time cd) <= 8)%nat.

(** ** The traffic animation ([startTraffic] ... [stopTraffic]) *)

Inductive Lane : Set := fastLane | slowLane.

(** A car element: its identity (the rank of the [createCar] call that made
    it) and the lane it was appended to. *)
Record Car : Set := mkCar { carId : nat; carLane : Lane }.

Record Traffic : Set := mkTraffic {
  trafficDensity : Z;
  activePackets : Z;
  carsOnRoad : list Car;       (* the [.car] elements attached to a lane *)
  carsCreated : nat;           (* number of [createCar] calls so far *)
  trafficInterval : bool       (* is the 800 ms interval armed? *)
}.

Definition initialTraffic : Traffic := mkTraffic 3 0 [] 0 false.

(** [lane.appendChild(car); activePackets++] *)
Definition createCar (lane : Lane) (tr : Traffic) : Traffic :=
  mkTraffic (trafficDensity tr) (activePackets tr + 1)
            (carsOnRoad tr ++ [mkCar (carsCreated tr) lane])
            (S (carsCreated tr)) (trafficInterval tr).

(** The 10 s timeout of car [id]:
    [if (car.parentNode) { car.parentNode.removeChild(car); activePackets--; }] *)
Definition carTimeout (id : nat) (tr : Traffic) : Traffic :=
  if existsb (fun c => Nat.eqb (carId c) id) (carsOnRoad tr)
  then mkTraffic (trafficDensity tr) (activePackets tr - 1)
                 (filter (fun c => negb (Nat.eqb (carId c) id)) (carsOnRoad tr))
                 (carsCreated tr) (trafficInterval tr)
  else tr.

(** [for (let i = 0; i < trafficDensity; i++) createCar(lanes[random])];
    [pick i] is the lane drawn in iteration [i]. *)
Fixpoint generateLoop (n i : nat) (pick : nat -> Lane) (tr : Traffic) : Traffic :=
  match n with
  | O => tr
  | S n' => generateLoop n' (S i) pick (createCar (pick i) tr)
  end.

Definition generateTraffic (pick : nat -> Lane) (tr : Traffic) : Traffic :=
  generateLoop (Z.to_nat (trafficDensity tr)) 0 pick tr.

(** [clearInterval(trafficInterval); trafficDensity = 3; activePackets = 0;
     document.querySelectorAll('.car').forEach(car => car.remove())] *)
Definition resetTraffic (tr : Traffic) : Traffic :=
  mkTraffic 3 0 [] (carsCreated tr) false.

Definition startTraffic (tr : Traffic) : Traffic :=
  let tr1 := resetTraffic tr in
  mkTraffic (trafficDensity tr1) (activePackets tr1) (carsOnRoad tr1)
            (carsCreated tr1) true.

Definition increaseTraffic (tr : Traffic) : Traffic :=
  mkTraffic 8 (activePackets tr) (carsOnRoad tr) (carsCreated tr)
            (trafficInterval tr).

Definition stopTraffic (tr : Traffic) : Traffic :=
  mkTraffic (trafficDensity tr) (activePackets tr) (carsOnRoad tr)
            (carsCreated tr) false.

Inductive TrafficEvent : Type :=
  | StartTraffic
  | IncreaseTraffic
  | ResetTraffic
  | StopTraffic
  | TrafficTick (pick : nat -> Lane)     (* the 800 ms interval fires *)
  | CarTimeout (id : nat).               (* the 10 s timeout of a car fires *)

Definition handleTraffic (tr : Traffic) (e : TrafficEvent) : Traffic :=
  match e with
  | StartTraffic => startTraffic tr
  | IncreaseTraffic => increaseTraffic tr
  | ResetTraffic => resetTraffic tr
  | StopTraffic => stopTraffic tr
  | TrafficTick pick => if trafficInterval tr then generateTraffic pick tr else tr
  | CarTimeout id => carTimeout id tr
  end.

Definition runTraffic (es : list TrafficEvent) (tr : Traffic) : Traffic :=
  fold_left handleTraffic es tr.

Definition trafficInv (tr : Traffic) : Prop :=
  activePackets tr = Z.of_nat (List.length (carsOnRoad tr)) /\
  NoDup (map carId (carsOnRoad tr)) /\
  Forall (fun c => (carId c < carsCreated tr)%nat) (carsOnRoad tr) /\
  (trafficDensity tr = 3 \/ trafficDensity tr = 8).

(** ** Auxiliary notions for reasoning about binary64 rounding *)

Abbreviation fexp64 := (fexp 53 1024).
Abbreviation bra := (binary_round_aux 53 1024).

(** What [binary_round_aux] returns once the rounded mantissa [m2] at
    exponent [e1] is known. *)
Definition bra_result (sx : bool) (m2 e1 : Z) : spec_float :=
  let e2 := Z.max e1 (fexp64 (Zdigits2 m2 + e1)) in
  match Z.shiftr m2 (e2 - e1) with
  | Z0 => S754_zero sx
  | Zpos m => if e2 <=? 971 then S754_finite sx m e2 else S754_infinity sx
  | Zneg _ => S754_nan
  end.

(** A zero or a finite double whose exponent lies in [[lo, hi]]. *)
Definition fin_within (lo hi : Z) (x : spec_float) : Prop :=
  match x with
  | S754_zero _ => True
  | S754_finite _ m e => Zpos m < 2 ^ 53 /\ lo <= e <= hi
  | _ => False
  end.

(** A double in the closed unit interval. *)
Definition unit_range (x : spec_float) : Prop :=
  match x with
  | S754_zero _ => True
  | S754_finite false m e => e <= 0 /\ Zpos m <= 2 ^ (- e)
  | _ => False
  end.

(** The value of a double, scaled by 2^300 (an integer for every exponent
    that occurs in the simulation). *)
Definition scaled (x : spec_float) : Z :=
  match x with
  | S754_finite s m e => cond_Zopp s (Zpos m) * 2 ^ (e + 300)
  | _ => 0
  end.

(** A zero or a positive finite double with exponent at least [lo]. *)
Definition nonneg_fin (lo : Z) (x : spec_float) : Prop :=
  match x with
  | S754_zero _ => True
  | S754_finite false m e => lo <= e
  | _ => False
  end.

(** * Facts about the binary64 operations *)

Lemma fexp64_eq e : fexp64 e = Z.max (e - 53) (-1074).
Proof. reflexivity. Qed.

Lemma digits2_pos_size p : digits2_pos p = Pos.size p.
Proof. induction p; simpl; congruence. Qed.

Lemma Zdigits2_log2 z : 0 < z -> Zdigits2 z = Z.log2 z + 1.
Proof.
  destruct z as [|p|p]; try lia. intros _.
  destruct p; simpl; rewrite ?digits2_pos_size; lia.
Qed.

Lemma Zdigits2_bounds z : 0 < z -> 2 ^ (Zdigits2 z - 1) <= z < 2 ^ Zdigits2 z.
Proof.
  intros Hz. rewrite Zdigits2_log2 by assumption.
  replace (Z.log2 z + 1 - 1) with (Z.log2 z) by lia.
  apply Z.log2_spec; assumption.
Qed.

Lemma Zdigits2_unique z k : 0 < k -> 2 ^ (k - 1) <= z < 2 ^ k -> Zdigits2 z = k.
Proof.
  intros Hk Hz.
  assert (0 < z) by (pose proof (Z.pow_pos_nonneg 2 (k - 1)); lia).
  rewrite Zdigits2_log2 by assumption.
  rewrite (Z.log2_unique z (k - 1)); try lia.
  replace (Z.succ (k - 1)) with k by lia. assumption.
Qed.

Lemma Zdigits2_nonneg z : 0 <= Zdigits2 z.
Proof. destruct z; simpl; lia. Qed.

Lemma Zdigits2_lt_pow z k : 0 <= z < 2 ^ k -> 0 <= k -> Zdigits2 z <= k.
Proof.
  intros [Hz Hlt] Hk.
  destruct (Z.eq_dec z 0) as [->|Hn]; [simpl; lia|].
  rewrite Zdigits2_log2 by lia.
  apply Z.log2_lt_pow2 in Hlt; lia.
Qed.

Lemma shr_m_of_loc m l : shr_m (shr_record_of_loc m l) = m.
Proof. destruct l as [|[]]; reflexivity. Qed.

Lemma shr_1_m r : 0 <= shr_m r -> shr_m (shr_1 r) = Z.div2 (shr_m r).
Proof.
  destruct r as [m rr s]; simpl.
  destruct m as [|[p|p|]|p]; simpl; intros; try reflexivity; lia.
Qed.

Lemma iter_shr_1_m p : forall r, 0 <= shr_m r ->
  shr_m (iter_pos shr_1 p r) = Z.shiftr (shr_m r) (Zpos p).
Proof.
  induction p as [p IH|p IH|]; intros r Hr; simpl iter_pos.
  - assert (H1 : 0 <= shr_m (shr_1 r)).
    { rewrite shr_1_m by assumption. apply Z.div2_nonneg; assumption. }
    assert (H2 : 0 <= shr_m (iter_pos shr_1 p (shr_1 r))).
    { rewrite IH by assumption. apply Z.shiftr_nonneg; assumption. }
    rewrite IH, IH, shr_1_m by assumption.
    rewrite Z.div2_spec, !Z.shiftr_shiftr by lia. f_equal; lia.
  - assert (H2 : 0 <= shr_m (iter_pos shr_1 p r)).
    { rewrite IH by assumption. apply Z.shiftr_nonneg; assumption. }
    rewrite IH, IH by assumption.
    rewrite Z.shiftr_shiftr by lia. f_equal; lia.
  - rewrite shr_1_m by assumption. apply Z.div2_spec.
Qed.

Lemma shr_fexp_spec m e l : 0 <= m ->
  shr_m (fst (shr_fexp 53 1024 m e l))
    = Z.shiftr m (Z.max e (fexp64 (Zdigits2 m + e)) - e) /\
  snd (shr_fexp 53 1024 m e l) = Z.max e (fexp64 (Zdigits2 m + e)).
Proof.
  intros Hm. unfold shr_fexp, shr.
  destruct (fexp64 (Zdigits2 m + e) - e) as [|p|p] eqn:E; simpl fst; simpl snd.
  - replace (Z.max e (fexp64 (Zdigits2 m + e))) with e by lia.
    rewrite Z.sub_diag, Z.shiftr_0_r. split; [apply shr_m_of_loc|reflexivity].
  - replace (Z.max e (fexp64 (Zdigits2 m + e))) with (e + Z.pos p) by lia.
    rewrite iter_shr_1_m by (rewrite shr_m_of_loc; assumption).
    rewrite shr_m_of_loc. split; [f_equal; lia|reflexivity].
  - replace (Z.max e (fexp64 (Zdigits2 m + e))) with e by lia.
    rewrite Z.sub_diag, Z.shiftr_0_r. split; [apply shr_m_of_loc|reflexivity].
Qed.

Lemma rne_bounds m l : m <= round_nearest_even m l <= m + 1.
Proof. destruct l as [|[]]; simpl; try destruct (Z.even m); lia. Qed.

Lemma bra_spec sx mx ex lx : 0 <= mx ->
  let e1 := Z.max ex (fexp64 (Zdigits2 mx + ex)) in
  let m1 := Z.shiftr mx (e1 - ex) in
  exists m2, m1 <= m2 <= m1 + 1 /\
             (lx = loc_Exact -> e1 = ex -> m2 = mx) /\
             bra sx mx ex lx = bra_result sx m2 e1.
Proof.
  intros Hm e1 m1.
  destruct (shr_fexp_spec mx ex lx Hm) as [Hm1 He1].
  unfold binary_round_aux.
  destruct (shr_fexp 53 1024 mx ex lx) as [mrs' e'] eqn:E1.
  simpl in Hm1, He1. fold e1 in He1. fold e1 m1 in Hm1. subst e'.
  set (m2 := round_nearest_even (shr_m mrs') (loc_of_shr_record mrs')).
  assert (B : m1 <= m2 <= m1 + 1).
  { unfold m2. rewrite <- Hm1. apply rne_bounds. }
  assert (Hm2 : 0 <= m2).
  { enough (0 <= m1) by lia. apply Z.shiftr_nonneg; assumption. }
  exists m2. split; [exact B|]. split.
  - intros -> Hex. unfold shr_fexp, shr in E1.
    replace (fexp64 (Zdigits2 mx + ex) - ex) with
      (fexp64 (Zdigits2 mx + ex) - e1 + 0) in E1 by lia.
    destruct (fexp64 (Zdigits2 mx + ex) - e1 + 0) as [|p|p] eqn:E; try lia;
      inversion E1; subst mrs'; reflexivity.
  - destruct (shr_fexp_spec m2 e1 loc_Exact Hm2) as [Hm3 He2].
    destruct (shr_fexp 53 1024 m2 e1 loc_Exact) as [mrs'' e''].
    simpl in Hm3, He2. unfold bra_result. rewrite Hm3, He2.
    reflexivity.
Qed.

Lemma fin_within_weaken lo hi lo' hi' x :
  fin_within lo hi x -> lo' <= lo -> hi <= hi' -> fin_within lo' hi' x.
Proof. destruct x; simpl; intuition lia. Qed.

Lemma shiftr_lt_pow m n k :
  0 <= m < 2 ^ k -> 0 <= n -> k <= 53 + n -> Z.shiftr m n < 2 ^ 53.
Proof.
  intros [Hm Hlt] Hn Hk.
  rewrite Z.shiftr_div_pow2 by assumption.
  apply Z.div_lt_upper_bound; [apply Z.pow_pos_nonneg; lia|].
  rewrite <- Z.pow_add_r by lia.
  eapply Z.lt_le_trans; [exact Hlt|].
  destruct (Z_lt_le_dec k 0) as [Hk0|Hk0].
  - rewrite (Z.pow_neg_r 2 k) by assumption. apply Z.pow_nonneg; lia.
  - apply Z.pow_le_mono_r; lia.
Qed.

Lemma bra_result_within sx m2 e1 hi :
  0 <= m2 <= 2 ^ 53 -> -1074 <= e1 <= hi -> hi <= 970 ->
  fin_within e1 (hi + 1) (bra_result sx m2 e1).
Proof.
  intros [Hm Hle] He Hhi. unfold bra_result.
  assert (Hd : Zdigits2 m2 <= 54).
  { apply Zdigits2_lt_pow; [|lia]. change (2 ^ 54) with (2 * 2 ^ 53). lia. }
  pose proof (Zdigits2_nonneg m2) as Hd0.
  set (e2 := Z.max e1 (fexp64 (Zdigits2 m2 + e1))).
  assert (He2 : e1 <= e2 <= e1 + 1) by (unfold e2; rewrite fexp64_eq; lia).
  assert (Hm3 : 0 <= Z.shiftr m2 (e2 - e1) < 2 ^ 53).
  { split; [apply Z.shiftr_nonneg; assumption|].
    destruct (Z.eq_dec m2 0) as [->|Hn0].
    { rewrite Z.shiftr_0_l. reflexivity. }
    pose proof (Zdigits2_bounds m2 ltac:(lia)) as [_ Hb].
    apply (shiftr_lt_pow m2 (e2 - e1) (Zdigits2 m2)); try lia.
    unfold e2; rewrite fexp64_eq; lia. }
  destruct (Z.shiftr m2 (e2 - e1)) as [|p|p]; simpl; try lia.
  destruct (Z.leb_spec e2 971); simpl; lia.
Qed.

Lemma bra_within sx mx ex lx k hi :
  0 <= mx < 2 ^ k -> 0 <= k -> ex <= hi -> k + ex - 53 <= hi ->
  -1074 <= hi <= 970 ->
  fin_within (Z.max ex (-1074)) (hi + 1) (bra sx mx ex lx).
Proof.
  intros Hm Hk Hex Hke Hhi.
  destruct (bra_spec sx mx ex lx (proj1 Hm)) as (m2 & B & _ & ->).
  pose proof (Zdigits2_lt_pow mx k Hm Hk) as Hd.
  pose proof (Zdigits2_nonneg mx) as Hd0.
  set (e1 := Z.max ex (fexp64 (Zdigits2 mx + ex))) in *.
  assert (He1 : Z.max ex (-1074) <= e1 <= hi) by (unfold e1; rewrite fexp64_eq; lia).
  assert (Hm1 : 0 <= Z.shiftr mx (e1 - ex) < 2 ^ 53).
  { split; [apply Z.shiftr_nonneg; lia|].
    destruct (Z.eq_dec mx 0) as [->|Hn0].
    { rewrite Z.shiftr_0_l. reflexivity. }
    pose proof (Zdigits2_bounds mx ltac:(lia)) as [_ Hb].
    apply (shiftr_lt_pow mx (e1 - ex) (Zdigits2 mx)); try lia.
    unfold e1; rewrite fexp64_eq; lia. }
  eapply fin_within_weaken;
    [apply (bra_result_within sx m2 e1 hi); lia| lia | lia].
Qed.

Lemma shl_align_spec mx ex ex' :
  snd (shl_align mx ex ex') = Z.min ex ex' /\
  Zpos (fst (shl_align mx ex ex')) = Zpos mx * 2 ^ (ex - Z.min ex ex').
Proof.
  unfold shl_align. destruct (ex' - ex) as [|d|d] eqn:E; simpl fst; simpl snd.
  - replace (Z.min ex ex') with ex by lia. rewrite Z.sub_diag. simpl. lia.
  - replace (Z.min ex ex') with ex by lia. rewrite Z.sub_diag. simpl. lia.
  - replace (Z.min ex ex') with ex' by lia. split; [reflexivity|].
    change (Pos.iter xO mx d) with (shift_pos d mx).
    rewrite shift_pos_correct. replace (ex - ex') with (Zpos d) by lia.
    rewrite Z.mul_comm. reflexivity.
Qed.

Lemma binary_round_within sx mx ex k hi :
  Zpos mx < 2 ^ k -> ex <= hi -> k + ex - 53 <= hi -> -1074 <= hi <= 970 ->
  fin_within (-1074) (hi + 1) (binary_round 53 1024 sx mx ex).
Proof.
  intros Hm Hex Hke Hhi. unfold binary_round.
  destruct (shl_align_spec mx ex (fexp64 (Zpos (digits2_pos mx) + ex))) as [He Hmz].
  destruct (shl_align mx ex (fexp64 (Zpos (digits2_pos mx) + ex))) as [mz ez].
  cbn [fst snd] in He, Hmz.
  assert (Hk : 0 <= k).
  { destruct (Z_lt_le_dec k 0) as [Hk0|]; [|assumption].
    rewrite (Z.pow_neg_r 2 k) in Hm by assumption. lia. }
  assert (Hez : ez <= ex) by lia.
  eapply fin_within_weaken;
    [apply (bra_within sx (Zpos mz) ez loc_Exact (k + (ex - ez)) hi); try lia| lia | lia].
  split; [lia|]. rewrite Hmz, <- He, Z.pow_add_r by lia.
  apply Zmult_lt_compat_r; [apply Z.pow_pos_nonneg; lia|assumption].
Qed.

Lemma binary_normalize_within m e k hi :
  Z.abs m < 2 ^ k -> e <= hi -> k + e - 53 <= hi -> -1074 <= hi <= 970 ->
  fin_within (-1074) (hi + 1) (binary_normalize 53 1024 m e false).
Proof.
  intros Hm He Hke Hhi. destruct m as [|p|p]; simpl binary_normalize.
  - exact I.
  - apply (binary_round_within false p e k hi); assumption.
  - apply (binary_round_within true p e k hi); assumption.
Qed.

Lemma of_Z_within z : Z.abs z < 2 ^ 53 -> fin_within (-1074) 1 (B64.of_Z z).
Proof.
  intros Hz. apply (binary_normalize_within z 0 53 0); lia.
Qed.

Lemma of_Z_pos_shape p : Zpos p < 2 ^ 53 ->
  forall sx, exists m e, binary_round 53 1024 sx p 0 = S754_finite sx m e /\
    -52 <= e <= 0 /\ Zpos m = Zpos p * 2 ^ (- e) /\ 2 ^ 52 <= Zpos m < 2 ^ 53.
Proof.
  intros Hp sx. unfold binary_round.
  destruct (shl_align_spec p 0 (fexp64 (Zpos (digits2_pos p) + 0))) as [He Hmz].
  destruct (shl_align p 0 (fexp64 (Zpos (digits2_pos p) + 0))) as [mz ez].
  cbn [fst snd] in He, Hmz.
  change (Zpos (digits2_pos p)) with (Zdigits2 (Zpos p)) in He, Hmz.
  pose proof (Zdigits2_bounds (Zpos p) ltac:(lia)) as [Hlo Hhi].
  pose proof (Zdigits2_lt_pow (Zpos p) 53 ltac:(lia) ltac:(lia)) as Hd.
  assert (Hd1 : 1 <= Zdigits2 (Zpos p)) by (simpl; lia).
  set (d := Zdigits2 (Zpos p)) in *.
  assert (Hez : ez = d - 53) by (rewrite He, fexp64_eq; lia).
  rewrite <- He in Hmz. replace (0 - ez) with (- ez) in Hmz by lia.
  assert (Hrange : 2 ^ 52 <= Zpos mz < 2 ^ 53).
  { rewrite Hmz, Hez. replace (- (d - 53)) with (53 - d) by lia.
    assert (E52 : 2 ^ 52 = 2 ^ (d - 1) * 2 ^ (53 - d))
      by (rewrite <- Z.pow_add_r by lia; f_equal; lia).
    assert (E53 : 2 ^ 53 = 2 ^ d * 2 ^ (53 - d))
      by (rewrite <- Z.pow_add_r by lia; f_equal; lia).
    pose proof (Z.pow_pos_nonneg 2 (53 - d) ltac:(lia) ltac:(lia)).
    rewrite E52, E53.
    split; [apply Z.mul_le_mono_nonneg_r|apply Zmult_lt_compat_r]; lia. }
  assert (Hdz : Zdigits2 (Zpos mz) = 53) by (apply Zdigits2_unique; [lia|exact Hrange]).
  destruct (bra_spec sx (Zpos mz) ez loc_Exact ltac:(lia)) as (m2 & _ & Hex & ->).
  rewrite Hdz in Hex.
  rewrite Hex; [|reflexivity|rewrite fexp64_eq; lia].
  unfold bra_result. rewrite Hdz.
  replace (Z.max (Z.max ez (fexp64 (53 + ez))) (fexp64 (53 + Z.max ez (fexp64 (53 + ez)))))
    with ez by (rewrite !fexp64_eq; lia).
  replace (Z.max ez (fexp64 (53 + ez))) with ez by (rewrite !fexp64_eq; lia).
  rewrite Z.sub_diag, Z.shiftr_0_r.
  destruct (Z.leb_spec ez 971); [|lia].
  exists mz, ez. repeat split; try lia.
Qed.

Lemma of_Z_shape z : z <> 0 -> Z.abs z < 2 ^ 53 ->
  exists m e, B64.of_Z z = S754_finite (z <? 0) m e /\
    -52 <= e <= 0 /\ Zpos m = Z.abs z * 2 ^ (- e) /\ 2 ^ 52 <= Zpos m < 2 ^ 53.
Proof.
  intros Hz Hlt. destruct z as [|p|p]; [congruence| |];
    exact (of_Z_pos_shape p Hlt _).
Qed.

Lemma div_within sx mx ex sy my ey hi :
  Zpos mx < 2 ^ 53 -> ex - ey <= hi -> -1074 <= hi <= 970 ->
  fin_within (-1074) (hi + 1)
    (B64.div (S754_finite sx mx ex) (S754_finite sy my ey)).
Proof.
  intros Hmx He Hhi. unfold B64.div, SFdiv.
  destruct (SFdiv_core_binary B64.prec B64.emax (Zpos mx) ex (Zpos my) ey)
    as [[mz ez] lz] eqn:E.
  unfold SFdiv_core_binary in E.
  set (e' := Z.min (fexp B64.prec B64.emax
                      (Zdigits2 (Zpos mx) + ex - (Zdigits2 (Zpos my) + ey)))
                   (ex - ey)) in E.
  set (s := ex - ey - e') in E.
  set (m' := match s with Zpos _ => Z.shiftl (Zpos mx) s | Z0 => Zpos mx | Zneg _ => 0 end) in E.
  pose proof (Z_div_mod m' (Zpos my) ltac:(lia)) as Hdm.
  destruct (Z.div_eucl m' (Zpos my)) as [q r].
  inversion E; subst mz ez lz; clear E.
  assert (Hs : 0 <= s) by (unfold s, e'; lia).
  assert (Hm' : m' = Zpos mx * 2 ^ s).
  { unfold m'. destruct s as [|ps|ps] eqn:Es; try lia.
    rewrite Z.shiftl_mul_pow2 by lia. reflexivity. }
  pose proof (Z.pow_pos_nonneg 2 s ltac:(lia) Hs) as Hps.
  assert (Hq : 0 <= q <= m') by nia.
  assert (Hq2 : 0 <= q < 2 ^ (53 + s)).
  { split; [lia|]. rewrite Z.pow_add_r by lia.
    apply Z.le_lt_trans with m'; [lia|]. rewrite Hm'.
    apply Zmult_lt_compat_r; lia. }
  assert (He' : e' <= ex - ey) by (unfold e'; lia).
  eapply fin_within_weaken;
    [apply (bra_within _ q e' _ (53 + s) hi); lia| lia | lia].
Qed.

Lemma sub_within x y hi :
  fin_within (-1074) hi x -> fin_within (-1074) hi y -> hi <= 968 ->
  fin_within (-1074) (hi + 2) (B64.sub x y).
Proof.
  intros Hx Hy Hhi.
  destruct x as [sx|sx| |sx mx ex], y as [sy|sy| |sy my ey];
    simpl in Hx, Hy; try contradiction.
  - destruct sx, sy; exact I.
  - simpl. lia.
  - simpl. lia.
  - unfold B64.sub, SFsub.
    set (ez := Z.min ex ey).
    destruct (shl_align_spec mx ex ez) as [_ Hx'].
    destruct (shl_align_spec my ey ez) as [_ Hy'].
    replace (Z.min ex ez) with ez in Hx' by lia.
    replace (Z.min ey ez) with ez in Hy' by lia.
    set (ax := Zpos (fst (shl_align mx ex ez))) in *.
    set (ay := Zpos (fst (shl_align my ey ez))) in *.
    eapply fin_within_weaken;
      [apply (binary_normalize_within _ ez (54 + hi - ez) (hi + 1)); try lia
      | lia | lia ].
    assert (B : forall m e, Zpos m < 2 ^ 53 -> ez <= e <= hi ->
                 Zpos m * 2 ^ (e - ez) < 2 ^ 53 * 2 ^ (hi - ez)).
    { intros m e Hm Hr.
      pose proof (Z.pow_le_mono_r 2 (e - ez) (hi - ez) ltac:(lia) ltac:(lia)).
      pose proof (Z.pow_pos_nonneg 2 (e - ez) ltac:(lia) ltac:(lia)).
      apply Z.lt_le_trans with (2 ^ 53 * 2 ^ (e - ez));
        [apply Zmult_lt_compat_r; lia | apply Z.mul_le_mono_nonneg_l; lia]. }
    pose proof (B mx ex ltac:(lia) ltac:(lia)) as B1.
    pose proof (B my ey ltac:(lia) ltac:(lia)) as B2.
    assert (S1 : 0 < ax) by (unfold ax; lia).
    assert (S2 : 0 < ay) by (unfold ay; lia).
    replace (54 + hi - ez) with (1 + 53 + (hi - ez)) by lia.
    rewrite !Z.pow_add_r by lia. change (2 ^ 1) with 2.
    rewrite <- Hx' in B1. rewrite <- Hy' in B2.
    destruct sx, sy; simpl cond_Zopp; lia.
Qed.

Lemma mul_within x y hx hy hi :
  fin_within (-1074) hx x -> fin_within (-1074) hy y ->
  hx + hy + 53 <= hi -> -1074 <= hi <= 970 ->
  fin_within (-1074) (hi + 1) (B64.mul x y).
Proof.
  intros Hx Hy Hs Hhi.
  destruct x as [sx|sx| |sx mx ex], y as [sy|sy| |sy my ey];
    simpl in Hx, Hy; try contradiction; try exact I.
  unfold B64.mul, SFmul.
  eapply fin_within_weaken;
    [apply (bra_within _ _ (ex + ey) _ 106 hi); try lia| lia | lia].
  split; [lia|]. rewrite Pos2Z.inj_mul.
  change (2 ^ 106) with (2 ^ 53 * 2 ^ 53).
  apply Z.mul_lt_mono_nonneg; lia.
Qed.

Lemma floor_total lo hi x : fin_within lo hi x -> exists f, B64.floor x = Some f.
Proof. destruct x; simpl; try contradiction; eauto. Qed.

Lemma of_Z_fin z : Z.abs z < 2 ^ 53 -> fin_within (-1074) 0 (B64.of_Z z).
Proof.
  intros Hz. destruct (Z.eq_dec z 0) as [->|Hn]; [exact I|].
  destruct (of_Z_shape z Hn Hz) as (m & e & -> & He & _ & Hm). simpl. lia.
Qed.

Lemma deliveredUnderOverload_total s o :
  1 <= s < 2 ^ 53 -> 1 <= o < 2 ^ 53 ->
  exists d, deliveredUnderOverload (A := binary64) s o = Some d.
Proof.
  intros Hs Ho. unfold deliveredUnderOverload.
  cbv [Math_floor num_mul num_sub num_div of_int binary64].
  destruct (of_Z_shape s ltac:(lia) ltac:(lia)) as (ms & es & Es & Hes & _ & Hms).
  destruct (of_Z_shape o ltac:(lia) ltac:(lia)) as (mo & eo & Eo & Heo & _ & Hmo).
  apply (floor_total (-1074) 110).
  apply (mul_within _ _ 0 55 109); try lia.
  - apply of_Z_fin; lia.
  - apply (sub_within _ _ 53); try lia.
    + eapply fin_within_weaken; [apply (of_Z_fin 1); lia| lia | lia].
    + rewrite Es, Eo. apply (div_within _ _ _ _ _ _ 52); lia.
Qed.

Lemma backoff_total w : Z.abs w < 2 ^ 53 ->
  exists f, backoff (A := binary64) w = Some f.
Proof.
  intros Hw. unfold backoff.
  cbv [Math_floor num_mul lit_0_7 of_int binary64].
  destruct (floor_total (-1074) 1 (B64.mul (B64.of_Z w) B64.c0_7)) as [f ->].
  - apply (mul_within _ _ 0 (-53) 0); try lia.
    + apply of_Z_fin; assumption.
    + simpl. lia.
  - simpl. eauto.
Qed.

Lemma floor_le_scaled m e w k :
  0 <= k -> 0 <= k + e -> m * 2 ^ (k + e) <= w * 2 ^ k ->
  (if 0 <=? e then m * 2 ^ e else m / 2 ^ (- e)) <= w.
Proof.
  intros Hk Hke H.
  pose proof (Z.pow_pos_nonneg 2 k ltac:(lia) Hk) as Pk.
  pose proof (Z.pow_pos_nonneg 2 (k + e) ltac:(lia) Hke) as Pke.
  destruct (Z.leb_spec 0 e) as [He|He].
  - rewrite Z.pow_add_r in H by lia.
    apply (proj2 (Z.mul_le_mono_pos_r _ _ (2 ^ k) Pk)). lia.
  - apply Z.div_le_upper_bound; [apply Z.pow_pos_nonneg; lia|].
    replace (2 ^ k) with (2 ^ (- e) * 2 ^ (k + e)) in H
      by (rewrite <- Z.pow_add_r by lia; f_equal; lia).
    apply (proj2 (Z.mul_le_mono_pos_r _ _ (2 ^ (k + e)) Pke)). lia.
Qed.

Lemma floor_mul_c0_7_le w f :
  1 <= w < 2 ^ 53 ->
  B64.floor (B64.mul (B64.of_Z w) B64.c0_7) = Some f -> f <= w.
Proof.
  intros Hw.
  destruct (of_Z_shape w ltac:(lia) ltac:(lia)) as (a & ez & -> & Hez & Ha & Hr).
  rewrite Z.abs_eq in Ha by lia.
  unfold B64.mul, B64.c0_7, SFmul, B64.prec, B64.emax.
  set (c := 6305039478318694%positive).
  destruct (bra_spec (xorb (w <? 0) false) (Zpos (a * c)) (ez + -53) loc_Exact
              ltac:(lia)) as (m2 & B & _ & ->).
  rewrite Pos2Z.inj_mul in *. set (P := Zpos a * Zpos c) in *.
  assert (HP : 2 ^ 104 <= P < 2 ^ 106) by (unfold P, c; lia).
  assert (HdP : Zdigits2 P = 105 \/ Zdigits2 P = 106).
  { pose proof (Zdigits2_lt_pow P 106 ltac:(lia) ltac:(lia)).
    pose proof (Zdigits2_bounds P ltac:(lia)) as [_ Hub].
    destruct (Z_le_gt_dec (Zdigits2 P) 104) as [Hle|]; [|lia].
    pose proof (Z.pow_le_mono_r 2 _ _ ltac:(lia) Hle). lia. }
  set (e1 := Z.max (ez + -53) (fexp64 (Zdigits2 P + (ez + -53)))) in *.
  assert (He1 : e1 = Zdigits2 P + ez - 106) by (unfold e1; rewrite fexp64_eq; lia).
  replace (e1 - (ez + -53)) with (Zdigits2 P - 53) in B by lia.
  rewrite Z.shiftr_div_pow2 in B by lia.
  pose proof (Zdigits2_bounds P ltac:(lia)) as HPb.
  assert (Hm2 : 2 ^ 52 <= m2 <= 2 ^ 53).
  { destruct HdP as [E|E]; rewrite E in B, HPb; cbn [Z.sub Z.add Z.opp Z.pos_sub Pos.pred_double] in B;
      (change (2 ^ Zpos 52) with 4503599627370496 in B
       || change (2 ^ Zpos 53) with 9007199254740992 in B);
      revert B; Z.div_mod_to_equations; lia. }
  unfold bra_result.
  assert (Hd2 : (Zdigits2 m2 = 53 /\ m2 < 2 ^ 53) \/ (Zdigits2 m2 = 54 /\ m2 = 2 ^ 53)).
  { destruct (Z.eq_dec m2 (2 ^ 53)) as [->|Hne]; [right; split; reflexivity|left].
    split; [|lia]. apply Zdigits2_unique; lia. }
  set (e2 := Z.max e1 (fexp64 (Zdigits2 m2 + e1))).
  assert (He2 : e2 = e1 + (Zdigits2 m2 - 53)) by (unfold e2; rewrite fexp64_eq; lia).
  replace (e2 - e1) with (Zdigits2 m2 - 53) by lia.
  assert (Hm3 : exists m3, Z.shiftr m2 (Zdigits2 m2 - 53) = Zpos m3 /\
                  Zpos m3 * 2 ^ (Zdigits2 P + Zdigits2 m2 - 158) <= 2 * Zpos a).
  { destruct Hd2 as [[Ed Hlt]|[Ed ->]]; rewrite Ed.
    - change (53 - 53) with 0. rewrite Z.shiftr_0_r.
      destruct m2 as [|m3|m3]; try lia. exists m3. split; [reflexivity|].
      destruct HdP as [E|E]; rewrite E in B, HPb |- *;
        cbn [Z.sub Z.add Z.opp Z.pos_sub Pos.pred_double] in B.
      + change (2 ^ (105 + 53 - 158)) with 1.
        change (2 ^ Zpos 52) with 4503599627370496 in B.
        revert B; unfold P, c; Z.div_mod_to_equations; lia.
      + change (2 ^ (106 + 53 - 158)) with 2.
        change (2 ^ Zpos 53) with 9007199254740992 in B.
        revert B; unfold P, c; Z.div_mod_to_equations; lia.
    - exists (4503599627370496%positive). split; [reflexivity|].
      destruct HdP as [E|E]; rewrite E in B, HPb |- *;
        cbn [Z.sub Z.add Z.opp Z.pos_sub Pos.pred_double] in B.
      + change (2 ^ (105 + 54 - 158)) with 2. lia.
      + exfalso.
        change (2 ^ Zpos 53) with 9007199254740992 in B.
        revert B; unfold P, c; Z.div_mod_to_equations; lia. }
  destruct Hm3 as (m3 & -> & Hb).
  assert (He2' : e2 <= 971) by lia.
  destruct (Z.leb_spec e2 971); [|lia].
  cbn [B64.floor]. intros [= <-].
  replace (cond_Zopp (xorb (w <? 0) false) (Zpos m3)) with (Zpos m3)
    by (destruct (Z.ltb_spec w 0); [lia|reflexivity]).
  apply (floor_le_scaled _ e2 w (1 - ez)); try lia.
  replace (1 - ez + e2) with (Zdigits2 P + Zdigits2 m2 - 158) by lia.
  replace (1 - ez) with (1 + - ez) by lia.
  rewrite Z.pow_add_r by lia. change (2 ^ 1) with 2. lia.
Qed.

Lemma backoff_bounds w f :
  1 <= w < 2 ^ 53 -> backoff (A := binary64) w = Some f -> 1 <= f <= w.
Proof.
  intros Hw. unfold backoff.
  cbv [Math_floor num_mul lit_0_7 of_int binary64].
  destruct (B64.floor (B64.mul (B64.of_Z w) B64.c0_7)) as [f0|] eqn:E;
    cbn [obind]; [|discriminate].
  intros [= <-]. pose proof (floor_mul_c0_7_le w f0 Hw E). lia.
Qed.

(** ** Exactness of the shift *)

Lemma odd_mod2 m : Z.odd m = negb (m mod 2 =? 0).
Proof. rewrite Zmod_odd. destruct (Z.odd m); reflexivity. Qed.

Lemma shr_1_sticky r : 0 <= shr_m r ->
  (shr_r (shr_1 r) || shr_s (shr_1 r))%bool
    = (negb (shr_m r mod 2 =? 0) || (shr_r r || shr_s r))%bool.
Proof.
  rewrite <- odd_mod2.
  destruct r as [m rr s]; cbn [shr_m shr_r shr_s].
  destruct m as [|[p|p|]|p]; cbn; intros; try lia;
    destruct rr, s; reflexivity.
Qed.

Lemma mod_pow2_split m a b : 0 <= m -> 0 <= a -> 0 <= b ->
  (m mod 2 ^ (a + b) =? 0)
    = ((m mod 2 ^ a =? 0) && ((m / 2 ^ a) mod 2 ^ b =? 0))%bool.
Proof.
  intros Hm Ha Hb.
  pose proof (Z.pow_pos_nonneg 2 a ltac:(lia) Ha) as Pa.
  pose proof (Z.pow_pos_nonneg 2 b ltac:(lia) Hb) as Pb.
  rewrite Z.pow_add_r, Z.rem_mul_r by lia.
  pose proof (Z.mod_pos_bound m (2 ^ a) Pa).
  pose proof (Z.mod_pos_bound (m / 2 ^ a) (2 ^ b) Pb).
  destruct (Z.eqb_spec (m mod 2 ^ a) 0) as [E1|E1];
    destruct (Z.eqb_spec ((m / 2 ^ a) mod 2 ^ b) 0) as [E2|E2]; cbn [andb];
    apply Z.eqb_eq || apply Z.eqb_neq; nia.
Qed.

Lemma iter_shr_1_sticky p : forall r, 0 <= shr_m r ->
  (shr_r (iter_pos shr_1 p r) || shr_s (iter_pos shr_1 p r))%bool
    = (negb (shr_m r mod 2 ^ Zpos p =? 0) || (shr_r r || shr_s r))%bool.
Proof.
  induction p as [p IH|p IH|]; intros r Hr; cbn [iter_pos].
  - assert (H1 : 0 <= shr_m (shr_1 r)).
    { rewrite shr_1_m by assumption. apply Z.div2_nonneg; assumption. }
    assert (H2 : 0 <= shr_m (iter_pos shr_1 p (shr_1 r))).
    { rewrite iter_shr_1_m by assumption. apply Z.shiftr_nonneg; assumption. }
    rewrite (IH _ H2), (IH _ H1), iter_shr_1_m, shr_1_sticky, shr_1_m by assumption.
    rewrite Z.div2_div, Z.shiftr_div_pow2 by lia.
    replace (Zpos p~1) with (1 + (Zpos p + Zpos p)) by lia.
    rewrite (mod_pow2_split (shr_m r) 1 (Zpos p + Zpos p)) by lia.
    change (2 ^ 1) with 2.
    rewrite (mod_pow2_split (shr_m r / 2) (Zpos p) (Zpos p))
      by (try apply Z.div_pos; lia).
    destruct (shr_m r mod 2 =? 0), (_ mod 2 ^ Zpos p =? 0),
      (_ mod 2 ^ Zpos p =? 0), (shr_r r), (shr_s r); reflexivity.
  - assert (H2 : 0 <= shr_m (iter_pos shr_1 p r)).
    { rewrite iter_shr_1_m by assumption. apply Z.shiftr_nonneg; assumption. }
    rewrite (IH _ H2), (IH _ Hr), iter_shr_1_m by assumption.
    rewrite Z.shiftr_div_pow2 by lia.
    replace (Zpos p~0) with (Zpos p + Zpos p) by lia.
    rewrite (mod_pow2_split (shr_m r) (Zpos p) (Zpos p)) by lia.
    destruct (_ mod 2 ^ Zpos p =? 0), (_ mod 2 ^ Zpos p =? 0), (shr_r r), (shr_s r);
      reflexivity.
  - rewrite shr_1_sticky by assumption. reflexivity.
Qed.

(** With an exact input, [binary_round_aux] rounds up only when the shift
    discards a non-zero remainder. *)
Lemma bra_spec_exact sx mx ex : 0 <= mx ->
  let e1 := Z.max ex (fexp64 (Zdigits2 mx + ex)) in
  let m1 := Z.shiftr mx (e1 - ex) in
  exists m2, bra sx mx ex loc_Exact = bra_result sx m2 e1 /\
             (m2 = m1 \/ (m2 = m1 + 1 /\ mx mod 2 ^ (e1 - ex) <> 0)).
Proof.
  intros Hm e1 m1.
  destruct (Z.eq_dec (mx mod 2 ^ (e1 - ex)) 0) as [E0|N0].
  - exists m1. split; [|left; reflexivity].
    destruct (shr_fexp_spec mx ex loc_Exact Hm) as [Hm1 He1].
    unfold binary_round_aux.
    destruct (shr_fexp 53 1024 mx ex loc_Exact) as [mrs' e'] eqn:E1.
    cbn [fst snd] in Hm1, He1. fold e1 in He1. fold e1 m1 in Hm1. subst e'.
    assert (Hloc : loc_of_shr_record mrs' = loc_Exact).
    { unfold shr_fexp, shr in E1. fold e1 in E1.
      assert (Hb : (shr_r mrs' || shr_s mrs')%bool = false).
      { destruct (fexp64 (Zdigits2 mx + ex) - ex) as [|p|p] eqn:En;
          injection E1 as <- He.
        - reflexivity.
        - rewrite iter_shr_1_sticky by (cbn; assumption).
          cbn [shr_record_of_loc shr_m shr_r shr_s].
          replace (Zpos p) with (e1 - ex) by lia. rewrite E0. reflexivity.
        - reflexivity. }
      destruct mrs' as [m' [|] [|]]; cbn in Hb |- *; congruence. }
    rewrite Hloc. cbn [round_nearest_even]. rewrite Hm1.
    assert (Hm1' : 0 <= m1) by (apply Z.shiftr_nonneg; assumption).
    destruct (shr_fexp_spec m1 e1 loc_Exact Hm1') as [Hm3 He2].
    destruct (shr_fexp 53 1024 m1 e1 loc_Exact) as [mrs'' e''].
    cbn [fst snd] in Hm3, He2. unfold bra_result. rewrite Hm3, He2. reflexivity.
  - destruct (bra_spec sx mx ex loc_Exact Hm) as (m2 & B & _ & E).
    exists m2. split; [exact E|]. fold e1 m1 in B.
    destruct (Z.eq_dec m2 m1) as [->|Hne]; [left; reflexivity|right].
    split; [lia|exact N0].
Qed.

(** ** Values between 0 and 1 *)

Lemma pow2_split a b : 0 <= a -> 0 <= b -> 2 ^ (a + b) = 2 ^ a * 2 ^ b.
Proof. intros. apply Z.pow_add_r; assumption. Qed.

Lemma bra_result_unit m2 e1 :
  e1 <= 0 -> 0 <= m2 <= 2 ^ (- e1) -> unit_range (bra_result false m2 e1).
Proof.
  intros He [Hm Hle]. unfold bra_result.
  pose proof (Zdigits2_nonneg m2) as Hd0.
  assert (Hd : Zdigits2 m2 <= - e1 + 1).
  { apply Zdigits2_lt_pow; [|lia]. split; [lia|].
    rewrite pow2_split by lia. change (2 ^ 1) with 2.
    pose proof (Z.pow_pos_nonneg 2 (- e1) ltac:(lia) ltac:(lia)). lia. }
  set (e2 := Z.max e1 (fexp64 (Zdigits2 m2 + e1))).
  assert (He2 : e1 <= e2 <= 0) by (unfold e2; rewrite fexp64_eq; lia).
  assert (Hm3 : 0 <= Z.shiftr m2 (e2 - e1) <= 2 ^ (- e2)).
  { split; [apply Z.shiftr_nonneg; assumption|].
    rewrite Z.shiftr_div_pow2 by lia.
    apply Z.div_le_upper_bound; [apply Z.pow_pos_nonneg; lia|].
    rewrite <- pow2_split by lia. replace (e2 - e1 + - e2) with (- e1) by lia.
    exact Hle. }
  destruct (Z.shiftr m2 (e2 - e1)) as [|p|p]; cbn [unit_range]; try lia.
  destruct (Z.leb_spec e2 971); [|lia]. cbn [unit_range]. lia.
Qed.

(** Rounding a value below 1 gives at most 1. *)
Lemma bra_unit mx ex lx :
  ex <= 0 -> 0 <= mx < 2 ^ (- ex) -> unit_range (bra false mx ex lx).
Proof.
  intros He [Hm Hlt].
  destruct (bra_spec false mx ex lx Hm) as (m2 & B & _ & ->).
  pose proof (Zdigits2_nonneg mx) as Hd0.
  pose proof (Zdigits2_lt_pow mx (- ex) (conj Hm Hlt) ltac:(lia)) as Hd.
  set (e1 := Z.max ex (fexp64 (Zdigits2 mx + ex))) in *.
  assert (He1 : ex <= e1 <= 0) by (unfold e1; rewrite fexp64_eq; lia).
  assert (Hm1 : 0 <= Z.shiftr mx (e1 - ex) < 2 ^ (- e1)).
  { split; [apply Z.shiftr_nonneg; assumption|].
    rewrite Z.shiftr_div_pow2 by lia.
    apply Z.div_lt_upper_bound; [apply Z.pow_pos_nonneg; lia|].
    rewrite <- pow2_split by lia. replace (e1 - ex + - e1) with (- ex) by lia.
    exact Hlt. }
  apply bra_result_unit; lia.
Qed.

(** [a / b] for doubles [0 < a < b] lies in the unit interval. *)
Lemma div_unit ma ea mb eb :
  ea <= eb -> Zpos ma < Zpos mb * 2 ^ (eb - ea) ->
  unit_range (B64.div (S754_finite false ma ea) (S754_finite false mb eb)).
Proof.
  intros He Hlt. unfold B64.div, SFdiv.
  destruct (SFdiv_core_binary B64.prec B64.emax (Zpos ma) ea (Zpos mb) eb)
    as [[mz ez] lz] eqn:E.
  unfold SFdiv_core_binary in E.
  set (e' := Z.min (fexp B64.prec B64.emax
                      (Zdigits2 (Zpos ma) + ea - (Zdigits2 (Zpos mb) + eb)))
                   (ea - eb)) in E.
  set (s := ea - eb - e') in E.
  set (m' := match s with Zpos _ => Z.shiftl (Zpos ma) s | Z0 => Zpos ma | Zneg _ => 0 end) in E.
  pose proof (Z_div_mod m' (Zpos mb) ltac:(lia)) as Hdm.
  destruct (Z.div_eucl m' (Zpos mb)) as [q r].
  inversion E; subst mz ez lz; clear E.
  assert (Hs : 0 <= s) by (unfold s, e'; lia).
  assert (He' : e' <= 0) by (unfold e'; lia).
  assert (Hm' : m' = Zpos ma * 2 ^ s).
  { unfold m'. destruct s as [|ps|ps] eqn:Es; try lia.
    rewrite Z.shiftl_mul_pow2 by lia. reflexivity. }
  pose proof (Z.pow_pos_nonneg 2 s ltac:(lia) Hs) as Hps.
  assert (Hq : 0 <= q) by nia.
  assert (Hq2 : q < 2 ^ (- e')).
  { replace (- e') with (s + (eb - ea)) by (unfold s; lia).
    rewrite pow2_split by lia.
    pose proof (Z.pow_pos_nonneg 2 (eb - ea) ltac:(lia) ltac:(lia)).
    nia. }
  change (xorb false false) with false.
  apply bra_unit; unfold B64.prec, B64.emax in *; lia.
Qed.

Lemma of_Z_1 : B64.of_Z 1 = S754_finite false 4503599627370496 (-52).
Proof. reflexivity. Qed.

(** [1 - q] for a double [q] of the unit interval lies in it too. *)
Lemma sub_unit q : unit_range q -> unit_range (B64.sub (B64.of_Z 1) q).
Proof.
  intros Hq. rewrite of_Z_1.
  destruct q as [sq|sq| |[|] mq eq]; cbn [unit_range] in Hq; try contradiction.
  - cbn. lia.
  - destruct Hq as [He Hm].
    unfold B64.sub, SFsub, B64.prec, B64.emax.
    set (ez := Z.min (-52) eq).
    destruct (shl_align_spec 4503599627370496 (-52) ez) as [_ H1].
    destruct (shl_align_spec mq eq ez) as [_ H2].
    replace (Z.min (-52) ez) with ez in H1 by lia.
    replace (Z.min eq ez) with ez in H2 by lia.
    set (a1 := Zpos (fst (shl_align 4503599627370496 (-52) ez))) in *.
    set (a2 := Zpos (fst (shl_align mq eq ez))) in *.
    cbn [cond_Zopp].
    assert (E1 : a1 = 2 ^ (- ez)).
    { rewrite H1. change 4503599627370496 with (2 ^ 52).
      rewrite <- pow2_split by lia. f_equal. lia. }
    assert (B2 : 1 <= a2 <= 2 ^ (- ez)).
    { split; [unfold a2; lia|]. rewrite H2.
      replace (- ez) with (- eq + (eq - ez)) by lia. rewrite pow2_split by lia.
      apply Z.mul_le_mono_nonneg_r; [apply Z.pow_nonneg; lia|exact Hm]. }
    destruct (a1 - a2) as [|d|d] eqn:Ed; try lia; cbn [binary_normalize].
    + exact I.
    + unfold binary_round.
      destruct (shl_align_spec d ez (fexp64 (Zpos (digits2_pos d) + ez))) as [Hz Hmz].
      destruct (shl_align d ez (fexp64 (Zpos (digits2_pos d) + ez))) as [mz ez'].
      cbn [fst snd] in Hz, Hmz.
      assert (Hez : ez' <= ez) by lia.
      apply bra_unit; [lia|]. split; [lia|].
      rewrite Hmz, <- Hz.
      replace (- ez') with (- ez + (ez - ez')) by lia. rewrite pow2_split by lia.
      apply Zmult_lt_compat_r; [apply Z.pow_pos_nonneg; lia|lia].
Qed.

(** The floor of [s * r], for an integer [s] and a double [r] of the unit
    interval, lies between 0 and [s]. *)
Lemma floor_mul_unit s r :
  1 <= s < 2 ^ 53 -> unit_range r ->
  exists f, B64.floor (B64.mul (B64.of_Z s) r) = Some f /\ 0 <= f <= s.
Proof.
  intros Hs Hr.
  destruct (of_Z_shape s ltac:(lia) ltac:(lia)) as (ms & es & -> & Hes & Hms & Hrg).
  rewrite Z.abs_eq in Hms by lia.
  replace (s <? 0) with false by (symmetry; apply Z.ltb_ge; lia).
  destruct r as [sr|sr| |[|] mr er]; cbn [unit_range] in Hr; try contradiction.
  - exists 0. split; [reflexivity|lia].
  - destruct Hr as [Her Hmr].
    unfold B64.mul, SFmul, B64.prec, B64.emax. change (xorb false false) with false.
    rewrite Pos2Z.inj_mul.
    set (P := Zpos ms * Zpos mr). set (ex := es + er).
    assert (HP : 0 <= P) by (unfold P; lia).
    destruct (bra_spec_exact false P ex HP) as (m2 & -> & Hm2).
    pose proof (Zdigits2_nonneg P) as Hd0.
    pose proof (Z.pow_pos_nonneg 2 (- er) ltac:(lia) ltac:(lia)) as Pr.
    assert (HPlt : P < 2 ^ (53 - er)).
    { replace (53 - er) with (53 + - er) by lia. rewrite pow2_split by lia.
      unfold P. nia. }
    pose proof (Zdigits2_lt_pow P (53 - er) (conj HP HPlt) ltac:(lia)) as Hd.
    set (e1 := Z.max ex (fexp64 (Zdigits2 P + ex))) in *.
    assert (He1 : ex <= e1 <= es) by (unfold e1, ex; rewrite fexp64_eq; lia).
    set (k := e1 - ex) in *.
    pose proof (Z.pow_pos_nonneg 2 k ltac:(unfold k; lia) ltac:(unfold k; lia)) as Pk.
    pose proof (Z.pow_pos_nonneg 2 (es - e1) ltac:(lia) ltac:(lia)) as Pb.
    set (b := Zpos ms * 2 ^ (es - e1)).
    assert (HPb : P <= b * 2 ^ k).
    { unfold b. rewrite <- Z.mul_assoc, <- pow2_split by (unfold k; lia).
      replace (es - e1 + k) with (- er) by (unfold k, ex; lia).
      unfold P. apply Z.mul_le_mono_nonneg_l; lia. }
    assert (Hm1 : 0 <= Z.shiftr P k <= b).
    { split; [apply Z.shiftr_nonneg; assumption|].
      rewrite Z.shiftr_div_pow2 by (unfold k; lia).
      apply Z.div_le_upper_bound; lia. }
    assert (Hm2b : 0 <= m2 <= b).
    { destruct Hm2 as [->|[-> Hrem]]; [exact Hm1|]. split; [lia|].
      rewrite Z.shiftr_div_pow2 in * by (unfold k; lia).
      pose proof (Z.div_mod P (2 ^ k) ltac:(lia)) as Hdm.
      pose proof (Z.mod_pos_bound P (2 ^ k) Pk) as Hmb.
      assert (P / 2 ^ k < b) by nia. lia. }
    assert (Hbs : b = s * 2 ^ (- e1)).
    { unfold b. rewrite Hms, <- Z.mul_assoc, <- pow2_split by lia.
      f_equal. f_equal. lia. }
    unfold bra_result.
    set (e2 := Z.max e1 (fexp64 (Zdigits2 m2 + e1))).
    assert (Hd2 : Zdigits2 m2 <= 53 + es - e1).
    { apply Zdigits2_lt_pow; [|lia]. split; [lia|].
      apply Z.le_lt_trans with b; [lia|]. unfold b.
      replace (53 + es - e1) with (53 + (es - e1)) by lia. rewrite pow2_split by lia.
      apply Zmult_lt_compat_r; lia. }
    pose proof (Zdigits2_nonneg m2) as Hd20.
    assert (He2 : e1 <= e2 <= 0) by (unfold e2; rewrite fexp64_eq; lia).
    pose proof (Z.pow_pos_nonneg 2 (e2 - e1) ltac:(lia) ltac:(lia)) as Pe.
    assert (Hm3 : 0 <= Z.shiftr m2 (e2 - e1) /\
                  Z.shiftr m2 (e2 - e1) * 2 ^ (e2 - e1) <= m2).
    { split; [apply Z.shiftr_nonneg; lia|].
      rewrite Z.shiftr_div_pow2 by lia.
      pose proof (Z.div_mod m2 (2 ^ (e2 - e1)) ltac:(lia)).
      pose proof (Z.mod_pos_bound m2 (2 ^ (e2 - e1)) Pe). nia. }
    destruct (Z.shiftr m2 (e2 - e1)) as [|m3|m3] eqn:E3; try lia.
    + exists 0. split; [reflexivity|lia].
    + destruct (Z.leb_spec e2 971); [|lia].
      cbn [B64.floor cond_Zopp]. eexists. split; [reflexivity|]. split.
      * destruct (Z.leb_spec 0 e2).
        -- apply Z.mul_nonneg_nonneg; [lia|apply Z.pow_nonneg; lia].
        -- apply Z.div_pos; [lia|apply Z.pow_pos_nonneg; lia].
      * apply (floor_le_scaled _ e2 s (- e1)); try lia.
        replace (- e1 + e2) with (e2 - e1) by lia. lia.
Qed.

(** In the overload branch the number of packets delivered is between 0 and
    the number sent. *)
Lemma deliveredUnderOverload_bounds s o :
  1 <= o -> o < s -> s < 2 ^ 53 ->
  exists d, deliveredUnderOverload (A := binary64) s o = Some d /\ 0 <= d <= s.
Proof.
  intros Ho Hos Hs. unfold deliveredUnderOverload.
  cbv [Math_floor num_mul num_sub num_div of_int binary64].
  apply floor_mul_unit; [lia|]. apply sub_unit.
  destruct (of_Z_shape s ltac:(lia) ltac:(lia)) as (ms & es & -> & Hes & Hms & Hrs).
  destruct (of_Z_shape o ltac:(lia) ltac:(lia)) as (mo & eo & -> & Heo & Hmo & Hro).
  rewrite Z.abs_eq in Hms, Hmo by lia.
  replace (s <? 0) with false by (symmetry; apply Z.ltb_ge; lia).
  replace (o <? 0) with false by (symmetry; apply Z.ltb_ge; lia).
  pose proof (Z.pow_pos_nonneg 2 (- eo) ltac:(lia) ltac:(lia)) as Po.
  pose proof (Z.pow_pos_nonneg 2 (- es) ltac:(lia) ltac:(lia)) as Ps.
  assert (Hee : eo <= es).
  { destruct (Z_le_gt_dec eo es) as [|Hgt]; [assumption|exfalso].
    assert (E53 : 2 ^ 53 = 2 ^ (53 + es) * 2 ^ (- es))
      by (rewrite <- pow2_split by lia; f_equal; lia).
    assert (E52 : 2 ^ 52 = 2 ^ (52 + eo) * 2 ^ (- eo))
      by (rewrite <- pow2_split by lia; f_equal; lia).
    pose proof (Z.pow_le_mono_r 2 (53 + es) (52 + eo) ltac:(lia) ltac:(lia)).
    pose proof (Z.pow_pos_nonneg 2 (53 + es) ltac:(lia) ltac:(lia)).
    assert (s < 2 ^ (53 + es)) by nia.
    assert (2 ^ (52 + eo) <= o) by nia.
    lia. }
  apply div_unit; [exact Hee|].
  rewrite Hmo, Hms, <- Z.mul_assoc, <- pow2_split by lia.
  replace (- es + (es - eo)) with (- eo) by lia.
  apply Zmult_lt_compat_r; lia.
Qed.

(** ** Rounding error, in scaled integers *)

Lemma bra_result_scaled m2 e1 :
  0 <= m2 <= 2 ^ 53 -> -300 <= e1 <= 970 ->
  scaled (bra_result false m2 e1) = m2 * 2 ^ (e1 + 300) /\
  nonneg_fin e1 (bra_result false m2 e1).
Proof.
  intros [Hm Hle] He. unfold bra_result.
  destruct (Z.eq_dec m2 (2 ^ 53)) as [->|Hne].
  - change (Zdigits2 (2 ^ 53)) with 54.
    replace (Z.max e1 (fexp64 (54 + e1))) with (e1 + 1) by (rewrite fexp64_eq; lia).
    replace (e1 + 1 - e1) with 1 by lia.
    change (Z.shiftr (2 ^ 53) 1) with (Zpos 4503599627370496).
    destruct (Z.leb_spec (e1 + 1) 971); [|lia].
    cbn [scaled nonneg_fin cond_Zopp]. split; [|lia].
    replace (e1 + 1 + 300) with (1 + (e1 + 300)) by lia.
    rewrite pow2_split by lia. change (2 ^ 1) with 2.
    change (2 ^ 53) with 9007199254740992. lia.
  - assert (Hd : Zdigits2 m2 <= 53) by (apply Zdigits2_lt_pow; lia).
    pose proof (Zdigits2_nonneg m2).
    replace (Z.max e1 (fexp64 (Zdigits2 m2 + e1))) with e1 by (rewrite fexp64_eq; lia).
    rewrite Z.sub_diag, Z.shiftr_0_r.
    destruct m2 as [|p|p]; try lia.
    + cbn. split; [reflexivity|exact I].
    + destruct (Z.leb_spec e1 971); [|lia].
      cbn [scaled nonneg_fin cond_Zopp]. split; [reflexivity|lia].
Qed.

Lemma bra_scaled mx ex lx :
  0 <= mx -> -300 <= ex ->
  let e1 := Z.max ex (fexp64 (Zdigits2 mx + ex)) in
  e1 <= 970 ->
  exists m2,
    (m2 = mx / 2 ^ (e1 - ex) \/
     (m2 = mx / 2 ^ (e1 - ex) + 1 /\
      (lx = loc_Exact -> mx mod 2 ^ (e1 - ex) <> 0))) /\
    scaled (bra false mx ex lx) = m2 * 2 ^ (e1 + 300) /\
    nonneg_fin e1 (bra false mx ex lx).
Proof.
  intros Hm Hex e1 He1.
  pose proof (Zdigits2_nonneg mx) as Hd0.
  assert (Hk : 0 <= e1 - ex) by (unfold e1; lia).
  assert (Hm1 : 0 <= mx / 2 ^ (e1 - ex) < 2 ^ 53).
  { rewrite <- Z.shiftr_div_pow2 by lia.
    split; [apply Z.shiftr_nonneg; assumption|].
    destruct (Z.eq_dec mx 0) as [->|Hn0]; [rewrite Z.shiftr_0_l; reflexivity|].
    pose proof (Zdigits2_bounds mx ltac:(lia)) as [_ Hb].
    apply (shiftr_lt_pow mx (e1 - ex) (Zdigits2 mx)); try lia.
    unfold e1; rewrite fexp64_eq; lia. }
  assert (G : forall m2, bra false mx ex lx = bra_result false m2 e1 ->
            mx / 2 ^ (e1 - ex) <= m2 <= mx / 2 ^ (e1 - ex) + 1 ->
            scaled (bra false mx ex lx) = m2 * 2 ^ (e1 + 300) /\
            nonneg_fin e1 (bra false mx ex lx)).
  { intros m2 -> B. apply bra_result_scaled; unfold e1 in *; lia. }
  destruct lx as [|c].
  - destruct (bra_spec_exact false mx ex Hm) as (m2 & E & Hm2).
    fold e1 in E, Hm2. rewrite Z.shiftr_div_pow2 in Hm2 by lia.
    exists m2. split.
    + destruct Hm2 as [->|[-> Hr]]; [left; reflexivity|right; split; [reflexivity|]].
      intros _. exact Hr.
    + apply G; [exact E|]. destruct Hm2 as [->|[-> _]]; lia.
  - destruct (bra_spec false mx ex (loc_Inexact c) Hm) as (m2 & B & _ & E).
    fold e1 in B, E. rewrite Z.shiftr_div_pow2 in B by lia.
    exists m2. split.
    + destruct (Z.eq_dec m2 (mx / 2 ^ (e1 - ex))) as [->|Hne];
        [left; reflexivity|right]. split; [lia|discriminate].
    + apply G; assumption.
Qed.

Lemma floor_scaled x :
  nonneg_fin (-300) x -> B64.floor x = Some (scaled x / 2 ^ 300).
Proof.
  destruct x as [s|s| |[|] m e]; cbn [nonneg_fin]; try contradiction; intros He.
  - reflexivity.
  - cbn [B64.floor scaled cond_Zopp]. f_equal.
    destruct (Z.leb_spec 0 e).
    + rewrite pow2_split by lia. rewrite Z.mul_assoc, Z.div_mul; [reflexivity|].
      apply Z.pow_nonzero; lia.
    + replace (2 ^ 300) with (2 ^ (- e) * 2 ^ (e + 300))
        by (rewrite <- pow2_split by lia; f_equal; lia).
      rewrite Z.div_mul_cancel_r; [reflexivity| |]; apply Z.pow_nonzero; lia.
Qed.

Lemma nonneg_fin_weaken lo lo' x : nonneg_fin lo x -> lo' <= lo -> nonneg_fin lo' x.
Proof. destruct x as [s|s| |[|] m e]; cbn [nonneg_fin]; intros; try tauto; lia. Qed.

Lemma digits_53 m : 2 ^ 52 <= Zpos m < 2 ^ 53 -> Zdigits2 (Zpos m) = 53.
Proof. intros H. apply Zdigits2_unique; [lia|exact H]. Qed.

(** The quotient of two doubles [a < b] with full mantissas is within
    2^-53 of the exact quotient. *)
Lemma div_scaled ma ea mb eb :
  2 ^ 52 <= Zpos ma < 2 ^ 53 -> 2 ^ 52 <= Zpos mb < 2 ^ 53 ->
  -52 <= ea -> ea <= eb -> eb <= 0 ->
  Zpos ma < Zpos mb * 2 ^ (eb - ea) ->
  let q := B64.div (S754_finite false ma ea) (S754_finite false mb eb) in
  nonneg_fin (-105) q /\
  exists U, 0 <= U <= 2 ^ 247 /\
    (scaled q - U) * (Zpos mb * 2 ^ (eb - ea)) <= Zpos ma * 2 ^ 300 /\
    Zpos ma * 2 ^ 300 <= (scaled q + U) * (Zpos mb * 2 ^ (eb - ea)).
Proof.
  intros Ha Hb Hea Hab Heb Hlt q. subst q. unfold B64.div, SFdiv.
  destruct (SFdiv_core_binary B64.prec B64.emax (Zpos ma) ea (Zpos mb) eb)
    as [[mz ez] lz] eqn:E.
  unfold SFdiv_core_binary in E. rewrite (digits_53 ma Ha), (digits_53 mb Hb) in E.
  set (e' := Z.min (fexp B64.prec B64.emax (53 + ea - (53 + eb))) (ea - eb)) in E.
  assert (He' : e' = ea - eb - 53).
  { unfold e', fexp, emin, B64.prec, B64.emax. lia. }
  set (s := ea - eb - e') in E. assert (Hs : s = 53) by (unfold s; lia).
  rewrite Hs in E. cbn match in E.
  pose proof (Z_div_mod (Z.shiftl (Zpos ma) 53) (Zpos mb) ltac:(lia)) as Hdm.
  destruct (Z.div_eucl (Z.shiftl (Zpos ma) 53) (Zpos mb)) as [q0 r0].
  inversion E; subst mz ez lz; clear E.
  rewrite Z.shiftl_mul_pow2 in Hdm by lia.
  change (xorb false false) with false.
  unfold B64.prec, B64.emax.
  set (t := eb - ea) in *.
  pose proof (Z.pow_pos_nonneg 2 t ltac:(lia) ltac:(lia)) as Pt.
  assert (Hq0 : 2 ^ 52 <= q0 < 2 ^ 53 * 2 ^ t) by nia.
  assert (Hq54 : q0 < 2 ^ 54) by nia.
  assert (HdQ : (Zdigits2 q0 = 53 /\ q0 < 2 ^ 53) \/
                (Zdigits2 q0 = 54 /\ 2 ^ 53 <= q0 /\ 1 <= t)).
  { destruct (Z_lt_le_dec q0 (2 ^ 53)) as [Hl|Hg].
    - left. split; [apply Zdigits2_unique; lia|exact Hl].
    - right. split; [apply Zdigits2_unique; lia|]. split; [exact Hg|].
      destruct (Z.eq_dec t 0) as [E0|]; [|lia]. rewrite E0 in Hq0.
      change (2 ^ 0) with 1 in Hq0. lia. }
  destruct (bra_scaled q0 e' (new_location (Zpos mb) r0) ltac:(lia) ltac:(lia))
    as (m2 & Hm2 & Hsc & Hnf).
  { rewrite fexp64_eq. destruct HdQ as [[-> _]|[-> _]]; lia. }
  set (e1 := Z.max e' (fexp64 (Zdigits2 q0 + e'))) in *.
  assert (Hm2' : q0 / 2 ^ (e1 - e') <= m2 <= q0 / 2 ^ (e1 - e') + 1)
    by (destruct Hm2 as [->|[-> _]]; lia).
  clear Hm2. split.
  - apply (nonneg_fin_weaken e1); [exact Hnf|unfold e1; lia].
  - exists (2 ^ (e1 + 300)). rewrite Hsc.
    destruct HdQ as [[Ed Hlt53]|[Ed [Hge53 Ht1]]].
    + assert (Ee1 : e1 = e') by (unfold e1; rewrite Ed, fexp64_eq; lia).
      rewrite Ee1 in *. rewrite Z.sub_diag in Hm2'. change (2 ^ 0) with 1 in Hm2'.
      rewrite Z.div_1_r in Hm2'.
      assert (HX : 2 ^ (e' + 300) * 2 ^ t = 2 ^ 247).
      { rewrite <- pow2_split by lia. f_equal. lia. }
      split.
      * split; [apply Z.pow_nonneg; lia|apply Z.pow_le_mono_r; lia].
      * set (X := 2 ^ (e' + 300)) in *.
        replace ((m2 * X - X) * (Zpos mb * 2 ^ t))
          with ((m2 - 1) * Zpos mb * (X * 2 ^ t)) by ring.
        replace ((m2 * X + X) * (Zpos mb * 2 ^ t))
          with ((m2 + 1) * Zpos mb * (X * 2 ^ t)) by ring.
        rewrite HX. change (2 ^ 300) with (2 ^ 53 * 2 ^ 247).
        pose proof (Z.pow_pos_nonneg 2 247 ltac:(lia) ltac:(lia)).
        split; rewrite Z.mul_assoc; apply Z.mul_le_mono_nonneg_r; nia.
    + assert (Ee1 : e1 = e' + 1) by (unfold e1; rewrite Ed, fexp64_eq; lia).
      rewrite Ee1 in *. replace (e' + 1 - e') with 1 in Hm2' by lia.
      change (2 ^ 1) with 2 in Hm2'.
      assert (HX : 2 ^ (e' + 1 + 300) * 2 ^ t = 2 * 2 ^ 247).
      { rewrite <- pow2_split by lia. change (2 * 2 ^ 247) with (2 ^ 248).
        f_equal. lia. }
      split.
      * split; [apply Z.pow_nonneg; lia|apply Z.pow_le_mono_r; lia].
      * set (X := 2 ^ (e' + 1 + 300)) in *.
        replace ((m2 * X - X) * (Zpos mb * 2 ^ t))
          with ((m2 - 1) * Zpos mb * (X * 2 ^ t)) by ring.
        replace ((m2 * X + X) * (Zpos mb * 2 ^ t))
          with ((m2 + 1) * Zpos mb * (X * 2 ^ t)) by ring.
        rewrite HX. change (2 ^ 300) with (2 ^ 53 * 2 ^ 247).
        pose proof (Z.pow_pos_nonneg 2 247 ltac:(lia) ltac:(lia)).
        pose proof (Z.div_mod q0 2 ltac:(lia)).
        pose proof (Z.mod_pos_bound q0 2 ltac:(lia)).
        split; rewrite !Z.mul_assoc; apply Z.mul_le_mono_nonneg_r; nia.
Qed.

(** [1 - q] is computed to within 2^-53. *)
Lemma sub_scaled q :
  unit_range q -> nonneg_fin (-105) q ->
  let r := B64.sub (B64.of_Z 1) q in
  nonneg_fin (-158) r /\
  exists U, 0 <= U <= 2 ^ 247 /\
    2 ^ 300 - scaled q - U <= scaled r <= 2 ^ 300 - scaled q + U.
Proof.
  intros Hu Hn r. subst r. rewrite of_Z_1.
  destruct q as [sq|sq| |[|] mq eq]; cbn [unit_range nonneg_fin] in Hu, Hn;
    try contradiction.
  - cbn [B64.sub SFsub]. split; [cbn; lia|]. exists 0. cbn. lia.
  - destruct Hu as [He Hm].
    unfold B64.sub, SFsub, B64.prec, B64.emax.
    set (ez := Z.min (-52) eq).
    destruct (shl_align_spec 4503599627370496 (-52) ez) as [_ H1].
    destruct (shl_align_spec mq eq ez) as [_ H2].
    replace (Z.min (-52) ez) with ez in H1 by lia.
    replace (Z.min eq ez) with ez in H2 by lia.
    set (a1 := Zpos (fst (shl_align 4503599627370496 (-52) ez))) in *.
    set (a2 := Zpos (fst (shl_align mq eq ez))) in *.
    cbn [cond_Zopp scaled].
    assert (E1 : a1 = 2 ^ (- ez)).
    { rewrite H1. change 4503599627370496 with (2 ^ 52).
      rewrite <- pow2_split by lia. f_equal. lia. }
    assert (B2 : 1 <= a2 <= 2 ^ (- ez)).
    { split; [unfold a2; lia|]. rewrite H2.
      replace (- ez) with (- eq + (eq - ez)) by lia. rewrite pow2_split by lia.
      apply Z.mul_le_mono_nonneg_r; [apply Z.pow_nonneg; lia|exact Hm]. }
    assert (Eq1 : a1 * 2 ^ (ez + 300) = 2 ^ 300).
    { rewrite E1, <- pow2_split by lia. f_equal. lia. }
    assert (Eq2 : a2 * 2 ^ (ez + 300) = Zpos mq * 2 ^ (eq + 300)).
    { rewrite H2, <- Z.mul_assoc, <- pow2_split by lia. f_equal. f_equal. lia. }
    destruct (a1 - a2) as [|d|d] eqn:Ed; try lia; cbn [binary_normalize].
    + split; [exact I|]. exists 0. cbn [scaled].
      assert (a1 = a2) by lia. rewrite <- Eq2, <- H, Eq1. lia.
    + unfold binary_round.
      destruct (shl_align_spec d ez (fexp64 (Zpos (digits2_pos d) + ez))) as [Hz Hmz].
      destruct (shl_align d ez (fexp64 (Zpos (digits2_pos d) + ez))) as [mz ez'].
      cbn [fst snd] in Hz, Hmz.
      change (Zpos (digits2_pos d)) with (Zdigits2 (Zpos d)) in Hz, Hmz.
      rewrite <- Hz in Hmz.
      assert (Hdlt : Zpos d < 2 ^ (- ez)) by lia.
      pose proof (Zdigits2_lt_pow (Zpos d) (- ez) ltac:(lia) ltac:(lia)) as Hdd.
      assert (Hdd1 : 1 <= Zdigits2 (Zpos d)) by (cbn; lia).
      assert (Hez' : ez - 52 <= ez' <= ez /\ ez' <= -53).
      { rewrite Hz, fexp64_eq. lia. }
      assert (Hmzlt : Zpos mz < 2 ^ (- ez')).
      { rewrite Hmz. replace (- ez') with (- ez + (ez - ez')) by lia.
        rewrite pow2_split by lia.
        apply Zmult_lt_compat_r; [apply Z.pow_pos_nonneg; lia|lia]. }
      pose proof (Zdigits2_lt_pow (Zpos mz) (- ez') ltac:(lia) ltac:(lia)) as Hdz.
      pose proof (Zdigits2_nonneg (Zpos mz)) as Hdz0.
      destruct (bra_scaled (Zpos mz) ez' loc_Exact ltac:(lia) ltac:(lia))
        as (m2 & Hm2 & Hsc & Hnf).
      { rewrite fexp64_eq. lia. }
      set (e1 := Z.max ez' (fexp64 (Zdigits2 (Zpos mz) + ez'))) in *.
      assert (He1 : ez' <= e1 <= -53) by (unfold e1; rewrite fexp64_eq; lia).
      split; [apply (nonneg_fin_weaken e1); [exact Hnf|lia]|].
      exists (2 ^ (e1 + 300)). rewrite Hsc.
      split; [split; [apply Z.pow_nonneg; lia|apply Z.pow_le_mono_r; lia]|].
      set (k := e1 - ez') in *.
      pose proof (Z.pow_pos_nonneg 2 k ltac:(unfold k; lia) ltac:(unfold k; lia)) as Pk.
      pose proof (Z.pow_pos_nonneg 2 (ez' + 300) ltac:(lia) ltac:(lia)) as Pz.
      assert (EX : 2 ^ (e1 + 300) = 2 ^ k * 2 ^ (ez' + 300)).
      { rewrite <- pow2_split by (unfold k; lia). f_equal. unfold k. lia. }
      assert (IN : Zpos mz * 2 ^ (ez' + 300) = 2 ^ 300 - Zpos mq * 2 ^ (eq + 300)).
      { rewrite Hmz, <- Z.mul_assoc, <- pow2_split by lia.
        replace (ez - ez' + (ez' + 300)) with (ez + 300) by lia.
        rewrite <- Ed, Z.mul_sub_distr_r, Eq1, Eq2. reflexivity. }
      pose proof (Z.div_mod (Zpos mz) (2 ^ k) ltac:(lia)) as Hdm.
      pose proof (Z.mod_pos_bound (Zpos mz) (2 ^ k) Pk) as Hmb.
      assert (Hm2' : Zpos mz / 2 ^ k <= m2 <= Zpos mz / 2 ^ k + 1)
        by (destruct Hm2 as [->|[-> _]]; lia).
      rewrite <- IN, EX. set (Y := 2 ^ (ez' + 300)) in *.
      split; nia.
Qed.

(** The product [s * r] is computed to within one unit of the last place of
    [s]. *)
Lemma mul_scaled s ms es r :
  1 <= s -> Zpos ms = s * 2 ^ (- es) -> -52 <= es <= 0 ->
  2 ^ 52 <= Zpos ms < 2 ^ 53 ->
  unit_range r -> nonneg_fin (-158) r ->
  let p := B64.mul (S754_finite false ms es) r in
  nonneg_fin (-300) p /\
  exists U, 0 <= U /\ U * 2 ^ 52 <= s * 2 ^ 300 /\
    s * scaled r - U <= scaled p <= s * scaled r + U.
Proof.
  intros Hs Hms Hes Hrg Hu Hn p. subst p.
  destruct r as [sr|sr| |[|] mr er]; cbn [unit_range nonneg_fin] in Hu, Hn;
    try contradiction.
  - cbn [B64.mul SFmul]. split; [exact I|]. exists 0. cbn [scaled]. lia.
  - destruct Hu as [Her Hmr].
    unfold B64.mul, SFmul, B64.prec, B64.emax. change (xorb false false) with false.
    rewrite Pos2Z.inj_mul.
    set (P := Zpos ms * Zpos mr). set (ex := es + er).
    assert (HP : 0 <= P) by (unfold P; lia).
    pose proof (Zdigits2_nonneg P) as Hd0.
    pose proof (Z.pow_pos_nonneg 2 (- er) ltac:(lia) ltac:(lia)) as Pr.
    assert (HPlt : P < 2 ^ (53 - er)).
    { replace (53 - er) with (53 + - er) by lia. rewrite pow2_split by lia.
      unfold P. nia. }
    pose proof (Zdigits2_lt_pow P (53 - er) (conj HP HPlt) ltac:(lia)) as Hd.
    destruct (bra_scaled P ex loc_Exact HP ltac:(unfold ex; lia))
      as (m2 & Hm2 & Hsc & Hnf).
    { unfold ex. rewrite fexp64_eq. lia. }
    set (e1 := Z.max ex (fexp64 (Zdigits2 P + ex))) in *.
    assert (He1 : ex <= e1 <= es) by (unfold e1, ex; rewrite fexp64_eq; lia).
    split; [apply (nonneg_fin_weaken e1); [exact Hnf|unfold ex in *; lia]|].
    exists (2 ^ (e1 + 300)). rewrite Hsc. cbn [scaled cond_Zopp].
    split; [apply Z.pow_nonneg; lia|].
    pose proof (Z.pow_pos_nonneg 2 (- es) ltac:(lia) ltac:(lia)) as Ps.
    split.
    + apply Z.le_trans with (2 ^ (es + 300) * 2 ^ 52).
      * apply Z.mul_le_mono_nonneg_r; [lia|apply Z.pow_le_mono_r; lia].
      * replace (s * 2 ^ 300) with (Zpos ms * 2 ^ (es + 300)).
        -- rewrite (Z.mul_comm (Zpos ms)).
           apply Z.mul_le_mono_nonneg_l; [apply Z.pow_nonneg; lia|lia].
        -- rewrite Hms, <- Z.mul_assoc, <- pow2_split by lia.
           f_equal. f_equal. lia.
    + set (k := e1 - ex) in *.
      pose proof (Z.pow_pos_nonneg 2 k ltac:(unfold k; lia) ltac:(unfold k; lia)) as Pk.
      pose proof (Z.pow_pos_nonneg 2 (ex + 300) ltac:(unfold ex; lia) ltac:(unfold ex; lia)) as Pz.
      assert (EX : 2 ^ (e1 + 300) = 2 ^ k * 2 ^ (ex + 300)).
      { rewrite <- pow2_split by (unfold k, ex in *; lia). f_equal. unfold k. lia. }
      assert (IN : s * (Zpos mr * 2 ^ (er + 300)) = P * 2 ^ (ex + 300)).
      { unfold P. rewrite Hms.
        replace (2 ^ (er + 300)) with (2 ^ (- es) * 2 ^ (ex + 300))
          by (rewrite <- pow2_split by (unfold ex; lia); f_equal; unfold ex; lia).
        ring. }
      pose proof (Z.div_mod P (2 ^ k) ltac:(lia)) as Hdm.
      pose proof (Z.mod_pos_bound P (2 ^ k) Pk) as Hmb.
      assert (Hm2' : P / 2 ^ k <= m2 <= P / 2 ^ k + 1)
        by (destruct Hm2 as [->|[-> _]]; lia).
      rewrite IN, EX. set (Y := 2 ^ (ex + 300)) in *.
      split; nia.
Qed.

(** In binary64 the overload branch delivers the capacity or one packet
    less, for every sending rate below 2^51. *)
Lemma deliveredUnderOverload_near_capacity s c :
  1 <= c -> c < s -> s < 2 ^ 51 ->
  exists d, deliveredUnderOverload (A := binary64) s (s - c) = Some d /\
            c - 1 <= d <= c.
Proof.
  intros Hc Hcs Hs. unfold deliveredUnderOverload.
  cbv [Math_floor num_mul num_sub num_div of_int binary64].
  set (o := s - c).
  destruct (of_Z_shape s ltac:(lia) ltac:(lia)) as (ms & es & Es & Hes & Hms & Hrs).
  destruct (of_Z_shape o ltac:(unfold o; lia) ltac:(unfold o; lia))
    as (mo & eo & Eo & Heo & Hmo & Hro).
  rewrite Z.abs_eq in Hms by lia. rewrite Z.abs_eq in Hmo by (unfold o; lia).
  replace (s <? 0) with false in Es by (symmetry; apply Z.ltb_ge; lia).
  replace (o <? 0) with false in Eo by (symmetry; apply Z.ltb_ge; unfold o; lia).
  rewrite Es, Eo.
  pose proof (Z.pow_pos_nonneg 2 (- eo) ltac:(lia) ltac:(lia)) as Po.
  pose proof (Z.pow_pos_nonneg 2 (- es) ltac:(lia) ltac:(lia)) as Ps.
  assert (Hee : eo <= es).
  { destruct (Z_le_gt_dec eo es) as [|Hgt]; [assumption|exfalso].
    assert (E53 : 2 ^ 53 = 2 ^ (53 + es) * 2 ^ (- es))
      by (rewrite <- pow2_split by lia; f_equal; lia).
    assert (E52 : 2 ^ 52 = 2 ^ (52 + eo) * 2 ^ (- eo))
      by (rewrite <- pow2_split by lia; f_equal; lia).
    pose proof (Z.pow_le_mono_r 2 (53 + es) (52 + eo) ltac:(lia) ltac:(lia)).
    pose proof (Z.pow_pos_nonneg 2 (53 + es) ltac:(lia) ltac:(lia)).
    assert (s < 2 ^ (53 + es)) by nia.
    assert (2 ^ (52 + eo) <= o) by nia.
    unfold o in *. lia. }
  assert (Hden : Zpos ms * 2 ^ (es - eo) = s * 2 ^ (- eo)).
  { rewrite Hms, <- Z.mul_assoc, <- pow2_split by lia. f_equal. f_equal. lia. }
  assert (Hlt : Zpos mo < Zpos ms * 2 ^ (es - eo)).
  { rewrite Hden, Hmo. apply Zmult_lt_compat_r; unfold o; lia. }
  set (q := B64.div (S754_finite false mo eo) (S754_finite false ms es)).
  destruct (div_scaled mo eo ms es Hro Hrs ltac:(lia) Hee ltac:(lia) Hlt)
    as (Hnq & UA & HUA & A1 & A2). fold q in Hnq, A1, A2.
  assert (Huq : unit_range q) by (apply div_unit; assumption).
  set (r := B64.sub (B64.of_Z 1) q).
  destruct (sub_scaled q Huq Hnq) as (Hnr & UB & HUB & B1). fold r in Hnr, B1.
  assert (Hur : unit_range r) by (apply sub_unit; exact Huq).
  set (p := B64.mul (S754_finite false ms es) r).
  destruct (mul_scaled s ms es r ltac:(lia) Hms Hes Hrs Hur Hnr)
    as (Hnp & UC & HUC0 & HUC & C1). fold p in Hnp, C1.
  rewrite (floor_scaled p Hnp). eexists. split; [reflexivity|].
  (* the division bounds, with the common factor 2^(-eo) cancelled *)
  rewrite Hden, Hmo in A1, A2.
  assert (A1' : (scaled q - UA) * s <= o * 2 ^ 300) by nia.
  assert (A2' : o * 2 ^ 300 <= (scaled q + UA) * s) by nia.
  assert (SB1 : s * (2 ^ 300 - scaled q - UB) <= s * scaled r)
    by (apply Z.mul_le_mono_nonneg_l; lia).
  assert (SB2 : s * scaled r <= s * (2 ^ 300 - scaled q + UB))
    by (apply Z.mul_le_mono_nonneg_l; lia).
  assert (SUA : s * UA <= s * 2 ^ 247) by (apply Z.mul_le_mono_nonneg_l; lia).
  assert (SUB : s * UB <= s * 2 ^ 247) by (apply Z.mul_le_mono_nonneg_l; lia).
  change (2 ^ 51) with 2251799813685248 in Hs.
  change (2 ^ 247) with 226156424291633194186662080095093570025917938800079226639565593765455331328 in *.
  change (2 ^ 52) with 4503599627370496 in HUC.
  assert (P300 : 2 ^ 300 = 2037035976334486086268445688409378161051468393665936250636140449354381299763336706183397376)
    by reflexivity.
  split.
  - apply Z.div_le_lower_bound; [lia|]. unfold o in *. rewrite P300 in *. lia.
  - apply Z.lt_succ_r. apply Z.div_lt_upper_bound; [lia|].
    unfold o in *. rewrite P300 in *. lia.
Qed.

(** ** Sums and differences of safe integers are exact *)

Lemma Zdigits2_mul_pow2 v k : 0 < v -> 0 <= k -> Zdigits2 (v * 2 ^ k) = Zdigits2 v + k.
Proof.
  intros Hv Hk.
  pose proof (Zdigits2_bounds v Hv) as [Hlo Hhi].
  assert (Hd : 1 <= Zdigits2 v) by (destruct v; simpl in *; lia).
  pose proof (Z.pow_pos_nonneg 2 k ltac:(lia) Hk) as Pk.
  apply Zdigits2_unique; [lia|].
  replace (Zdigits2 v + k - 1) with (Zdigits2 v - 1 + k) by lia.
  rewrite !Z.pow_add_r by lia. split; nia.
Qed.

(** Rounding a mantissa and exponent that denote an integer below 2^53
    returns that integer, in normal form. *)
Lemma binary_round_integer sx p e v :
  e <= 0 -> 0 < v < 2 ^ 53 -> Zpos p = v * 2 ^ (- e) ->
  exists m e', binary_round 53 1024 sx p e = S754_finite sx m e' /\
    -52 <= e' <= 0 /\ Zpos m = v * 2 ^ (- e').
Proof.
  intros He Hv Hp. unfold binary_round.
  change (Zpos (digits2_pos p)) with (Zdigits2 (Zpos p)).
  rewrite Hp, Zdigits2_mul_pow2 by lia.
  set (d := Zdigits2 v).
  assert (Hd : 1 <= d <= 53).
  { split; [unfold d; destruct v; simpl in *; lia|].
    apply Zdigits2_lt_pow; lia. }
  pose proof (Zdigits2_bounds v ltac:(lia)) as [Hlo Hhi]. fold d in Hlo, Hhi.
  replace (d + - e + e) with d by lia.
  assert (Hf : fexp64 d = d - 53) by (rewrite fexp64_eq; lia).
  rewrite Hf.
  destruct (shl_align_spec p e (d - 53)) as [Hez Hmz].
  destruct (shl_align p e (d - 53)) as [mz ez]. cbn [fst snd] in Hez, Hmz.
  set (m1 := v * 2 ^ (53 - d)).
  assert (Hm1 : 2 ^ 52 <= m1 < 2 ^ 53).
  { unfold m1.
    assert (E52 : 2 ^ 52 = 2 ^ (d - 1) * 2 ^ (53 - d))
      by (rewrite <- Z.pow_add_r by lia; f_equal; lia).
    assert (E53 : 2 ^ 53 = 2 ^ d * 2 ^ (53 - d))
      by (rewrite <- Z.pow_add_r by lia; f_equal; lia).
    pose proof (Z.pow_pos_nonneg 2 (53 - d) ltac:(lia) ltac:(lia)).
    rewrite E52, E53. split; nia. }
  assert (Hdm1 : Zdigits2 m1 = 53) by (apply Zdigits2_unique; [lia|exact Hm1]).
  assert (Hres : bra sx (Zpos mz) ez loc_Exact = bra_result sx m1 (d - 53)).
  { destruct (Z_le_gt_dec e (d - 53)) as [Hle|Hgt].
    - (* the mantissa is shifted right, losing only zero bits *)
      assert (Eez : ez = e) by lia. clear Hez. subst ez.
      replace (e - Z.min e (d - 53)) with 0 in Hmz by lia.
      rewrite Z.pow_0_r, Z.mul_1_r in Hmz.
      assert (Hdp : Zdigits2 (Zpos mz) = d - e).
      { rewrite Hmz, Hp, Zdigits2_mul_pow2 by lia. fold d. lia. }
      destruct (bra_spec_exact sx (Zpos mz) e ltac:(lia)) as (m2 & E & Hm2).
      rewrite Hdp in E, Hm2.
      replace (Z.max e (fexp64 (d - e + e))) with (d - 53) in E, Hm2
        by (replace (d - e + e) with d by lia; rewrite Hf; lia).
      assert (Hsplit : Zpos mz = m1 * 2 ^ (d - 53 - e)).
      { rewrite Hmz, Hp. unfold m1. rewrite <- Z.mul_assoc, <- Z.pow_add_r by lia.
        f_equal. f_equal. lia. }
      assert (Hmod : Zpos mz mod 2 ^ (d - 53 - e) = 0).
      { rewrite Hsplit. apply Z.mod_mul.
        pose proof (Z.pow_pos_nonneg 2 (d - 53 - e) ltac:(lia) ltac:(lia)). lia. }
      assert (Hshr : Z.shiftr (Zpos mz) (d - 53 - e) = m1).
      { rewrite Z.shiftr_div_pow2 by lia. rewrite Hsplit. apply Z.div_mul.
        pose proof (Z.pow_pos_nonneg 2 (d - 53 - e) ltac:(lia) ltac:(lia)). lia. }
      rewrite E. destruct Hm2 as [->|[_ Hne]]; [|contradiction].
      rewrite Hshr. reflexivity.
    - (* the mantissa was shifted left to 53 digits *)
      assert (Eez : ez = d - 53) by lia. clear Hez. subst ez.
      assert (Hmz1 : Zpos mz = m1).
      { rewrite Hmz, Hp. replace (Z.min e (d - 53)) with (d - 53) by lia.
        unfold m1. rewrite <- Z.mul_assoc, <- Z.pow_add_r by lia.
        f_equal. f_equal. lia. }
      destruct (bra_spec sx (Zpos mz) (d - 53) loc_Exact ltac:(lia)) as (m2 & _ & Hex & ->).
      rewrite Hmz1, Hdm1 in *.
      replace (Z.max (d - 53) (fexp64 (53 + (d - 53)))) with (d - 53) in *
        by (rewrite fexp64_eq; lia).
      rewrite Hex by reflexivity. reflexivity. }
  rewrite Hres. unfold bra_result. rewrite Hdm1.
  replace (Z.max (d - 53) (fexp64 (53 + (d - 53)))) with (d - 53)
    by (rewrite fexp64_eq; lia).
  rewrite Z.sub_diag, Z.shiftr_0_r.
  destruct m1 as [|pm|pm] eqn:Em; try lia.
  destruct (Z.leb_spec (d - 53) 971); [|lia].
  exists pm, (d - 53). split; [reflexivity|]. split; [lia|].
  unfold m1 in Em. rewrite <- Em. f_equal. f_equal. lia.
Qed.

Lemma floor_integer m e v :
  e <= 0 -> Zpos m = v * 2 ^ (- e) ->
  B64.floor (S754_finite false m e) = Some v.
Proof.
  intros He Hm. cbn [B64.floor cond_Zopp]. f_equal.
  pose proof (Z.pow_pos_nonneg 2 (- e) ltac:(lia) ltac:(lia)) as P.
  destruct (Z.leb_spec 0 e).
  - replace e with 0 in * by lia. change (2 ^ (- 0)) with 1 in Hm.
    change (2 ^ 0) with 1. lia.
  - rewrite Hm. apply Z.div_mul. lia.
Qed.

Lemma floor_of_Z z : 0 <= z < 2 ^ 53 -> B64.floor (B64.of_Z z) = Some z.
Proof.
  intros Hz. destruct (Z.eq_dec z 0) as [->|Hn]; [reflexivity|].
  destruct (of_Z_shape z Hn ltac:(lia)) as (m & e & -> & He & Hm & _).
  rewrite Z.abs_eq in Hm by lia.
  replace (z <? 0) with false by (symmetry; apply Z.ltb_ge; lia).
  apply floor_integer; [lia|exact Hm].
Qed.

(** While the sum is a safe integer the script's [+=] is the exact sum. *)
Lemma jsAdd_exact a b :
  0 <= a -> 0 <= b -> a + b <= B64.MAX_SAFE_INTEGER -> jsAdd a b = Some (a + b).
Proof.
  unfold B64.MAX_SAFE_INTEGER. intros Ha Hb Hab. unfold jsAdd.
  destruct (Z.eq_dec a 0) as [->|Na].
  { replace (B64.add (B64.of_Z 0) (B64.of_Z b)) with (B64.of_Z b).
    - apply floor_of_Z. lia.
    - change (B64.of_Z 0) with (S754_zero false).
      destruct (Z.eq_dec b 0) as [->|Nb]; [reflexivity|].
      destruct (of_Z_shape b Nb ltac:(lia)) as (m & e & -> & _). reflexivity. }
  destruct (Z.eq_dec b 0) as [->|Nb].
  { replace (B64.add (B64.of_Z a) (B64.of_Z 0)) with (B64.of_Z a).
    - rewrite Z.add_0_r. apply floor_of_Z. lia.
    - change (B64.of_Z 0) with (S754_zero false).
      destruct (of_Z_shape a Na ltac:(lia)) as (m & e & -> & _). reflexivity. }
  destruct (of_Z_shape a Na ltac:(lia)) as (ma & ea & -> & Hea & Hma & _).
  destruct (of_Z_shape b Nb ltac:(lia)) as (mb & eb & -> & Heb & Hmb & _).
  rewrite Z.abs_eq in Hma, Hmb by lia.
  replace (a <? 0) with false by (symmetry; apply Z.ltb_ge; lia).
  replace (b <? 0) with false by (symmetry; apply Z.ltb_ge; lia).
  unfold B64.add, SFadd, B64.prec, B64.emax.
  set (ez := Z.min ea eb).
  destruct (shl_align_spec ma ea ez) as [_ Hxa].
  destruct (shl_align_spec mb eb ez) as [_ Hxb].
  replace (Z.min ea ez) with ez in Hxa by lia.
  replace (Z.min eb ez) with ez in Hxb by lia.
  cbn [cond_Zopp].
  change (Zpos (fst (shl_align ma ea ez)) + Zpos (fst (shl_align mb eb ez)))
    with (Zpos (fst (shl_align ma ea ez) + fst (shl_align mb eb ez))).
  cbn [binary_normalize].
  destruct (binary_round_integer false
              (fst (shl_align ma ea ez) + fst (shl_align mb eb ez)) ez (a + b))
    as (m & e' & -> & He' & Hm); try lia.
  - rewrite Pos2Z.inj_add, Hxa, Hxb, Hma, Hmb.
    rewrite <- !Z.mul_assoc, <- !Z.pow_add_r by lia.
    replace (- ea + (ea - ez)) with (- ez) by lia.
    replace (- eb + (eb - ez)) with (- ez) by lia. lia.
  - apply floor_integer; [lia|exact Hm].
Qed.

(** So is a difference of two safe integers that is not negative. *)
Lemma jsSub_exact a b :
  0 <= b <= a -> a <= B64.MAX_SAFE_INTEGER -> jsSub a b = Some (a - b).
Proof.
  unfold B64.MAX_SAFE_INTEGER. intros Hb Ha. unfold jsSub.
  destruct (Z.eq_dec b 0) as [->|Nb].
  { replace (B64.sub (B64.of_Z a) (B64.of_Z 0)) with (B64.of_Z a).
    - rewrite Z.sub_0_r. apply floor_of_Z. lia.
    - change (B64.of_Z 0) with (S754_zero false).
      destruct (Z.eq_dec a 0) as [->|Na]; [reflexivity|].
      destruct (of_Z_shape a Na ltac:(lia)) as (m & e & -> & _). reflexivity. }
  assert (Na : a <> 0) by lia.
  destruct (of_Z_shape a Na ltac:(lia)) as (ma & ea & -> & Hea & Hma & _).
  destruct (of_Z_shape b Nb ltac:(lia)) as (mb & eb & -> & Heb & Hmb & _).
  rewrite Z.abs_eq in Hma, Hmb by lia.
  replace (a <? 0) with false by (symmetry; apply Z.ltb_ge; lia).
  replace (b <? 0) with false by (symmetry; apply Z.ltb_ge; lia).
  unfold B64.sub, SFsub, B64.prec, B64.emax.
  set (ez := Z.min ea eb).
  destruct (shl_align_spec ma ea ez) as [_ Hxa].
  destruct (shl_align_spec mb eb ez) as [_ Hxb].
  replace (Z.min ea ez) with ez in Hxa by lia.
  replace (Z.min eb ez) with ez in Hxb by lia.
  cbn [cond_Zopp].
  assert (Hdiff : Zpos (fst (shl_align ma ea ez)) - Zpos (fst (shl_align mb eb ez))
                  = (a - b) * 2 ^ (- ez)).
  { rewrite Hxa, Hxb, Hma, Hmb.
    rewrite <- !Z.mul_assoc, <- !Z.pow_add_r by lia.
    replace (- ea + (ea - ez)) with (- ez) by lia.
    replace (- eb + (eb - ez)) with (- ez) by lia. lia. }
  rewrite Hdiff.
  pose proof (Z.pow_pos_nonneg 2 (- ez) ltac:(lia) ltac:(lia)) as P.
  destruct (Z.eq_dec a b) as [->|Hne].
  { rewrite Z.sub_diag. reflexivity. }
  destruct ((a - b) * 2 ^ (- ez)) as [|p|p] eqn:Ep; try nia.
  cbn [binary_normalize].
  destruct (binary_round_integer false p ez (a - b)) as (m & e' & -> & He' & Hm);
    try lia.
  apply floor_integer; [lia|exact Hm].
Qed.

(** Beyond the safe range the sum is rounded: 2^53 + 1 is 2^53. *)
Lemma jsAdd_rounds : jsAdd (2 ^ 53) 1 = Some (2 ^ 53).
Proof. vm_compute. reflexivity. Qed.

(** * The simulation tick *)

Section TickShape.

Context {R : Type} {A : JSArith R}.

Lemma tick_overload t st d w' :
  networkCapacity st < sendingRate st ->
  deliveredUnderOverload (sendingRate st) (sendingRate st - networkCapacity st) = Some d ->
  match currentProtocol st with
  | tcp => backoff (tcpWindowSize st) = Some w'
  | udp => w' = tcpWindowSize st
  end ->
  simulateNetworkTraffic t st =
    Some (mkSim (packetRate st) (networkCapacity st)
                (sentPackets st + sendingRate st)
                (deliveredPackets st + d)
                (droppedPackets st + (sendingRate st - d))
                (currentProtocol st) (isSimulationRunning st) w'
                (recordSample t (deliveredPackets st + d)
                   (droppedPackets st + (sendingRate st - d)) (chartData st))
                (simulationInterval st)).
Proof.
  intros Hov Hd Hw. unfold simulateNetworkTraffic.
  replace (Z.max 0 (sendingRate st - networkCapacity st))
    with (sendingRate st - networkCapacity st) by lia.
  destruct (Z.ltb_spec 0 (sendingRate st - networkCapacity st)); [|lia].
  rewrite Hd. cbn [obind]. clear Hd.
  destruct st as [rate cap sent del drop [|] run w cd timer];
    cbn [currentProtocol tcpWindowSize] in Hw |- *.
  - rewrite Hw. reflexivity.
  - subst w'. reflexivity.
Qed.

Lemma tick_normal t st :
  sendingRate st <= networkCapacity st ->
  simulateNetworkTraffic t st =
    Some (mkSim (packetRate st) (networkCapacity st)
                (sentPackets st + sendingRate st)
                (deliveredPackets st + sendingRate st)
                (droppedPackets st)
                (currentProtocol st) (isSimulationRunning st)
                (match currentProtocol st with
                 | tcp => slowStart (packetRate st) (tcpWindowSize st)
                 | udp => tcpWindowSize st
                 end)
                (recordSample t (deliveredPackets st + sendingRate st)
                   (droppedPackets st) (chartData st))
                (simulationInterval st)).
Proof.
  intros Hno. unfold simulateNetworkTraffic.
  replace (Z.max 0 (sendingRate st - networkCapacity st)) with 0 by lia.
  cbn [Z.ltb Z.compare obind].
  destruct st as [rate cap sent del drop [|] run w cd timer]; reflexivity.
Qed.

End TickShape.

Lemma validValue_bound v : validValue v -> 1 <= v < 2 ^ 53.
Proof. unfold validValue, B64.MAX_SAFE_INTEGER. lia. Qed.

Lemma sendingRate_valid st :
  validConfig st -> validValue (tcpWindowSize st) -> validValue (sendingRate st).
Proof.
  unfold validConfig, validValue, sendingRate.
  destruct (currentProtocol st); lia.
Qed.

(** Under a valid configuration the overload branch never leaves the
    integers: both [Math.floor] calls return an integer. *)
Lemma overload_total st :
  validConfig st -> validValue (tcpWindowSize st) ->
  networkCapacity st < sendingRate st ->
  exists d w',
    deliveredUnderOverload (A := binary64) (sendingRate st)
      (sendingRate st - networkCapacity st) = Some d /\
    match currentProtocol st with
    | tcp => backoff (A := binary64) (tcpWindowSize st) = Some w'
    | udp => w' = tcpWindowSize st
    end /\
    1 <= w' <= tcpWindowSize st.
Proof.
  intros Hc Hw Hov.
  pose proof (validValue_bound _ (sendingRate_valid st Hc Hw)) as Hs.
  pose proof (validValue_bound _ Hw) as Hw'.
  destruct Hc as [_ Hcap]. apply validValue_bound in Hcap.
  destruct (deliveredUnderOverload_total (sendingRate st)
              (sendingRate st - networkCapacity st)) as [d Hd]; try lia.
  exists d.
  destruct (currentProtocol st).
  - destruct (backoff_total (tcpWindowSize st)) as [w' Ew]; [lia|].
    exists w'. split; [exact Hd|]. split; [exact Ew|].
    apply (backoff_bounds _ _ Hw' Ew).
  - exists (tcpWindowSize st). split; [exact Hd|]. split; [reflexivity|lia].
Qed.

Ltac sim_fields :=
  cbn [startSimulation pauseSimulation resetSimulation resetNetworkStats
       resetCharts setProtocol onPacketRateInput onNetworkCapacityInput
       setCounters setWindow setChart setIsRunning setTimer setPacketRate
       setNetworkCapacity setCurrentProtocol
       packetRate networkCapacity sentPackets deliveredPackets droppedPackets
       currentProtocol isSimulationRunning tcpWindowSize chartData
       simulationInterval].


Lemma tick_good t st :
  goodState st ->
  exists st', simulateNetworkTraffic (A := binary64) t st = Some st' /\
              goodState st' /\
              isSimulationRunning st' = isSimulationRunning st /\
              simulationInterval st' = simulationInterval st.
Proof.
  intros (Hc & Hw & Hcons).
  destruct (Z_lt_le_dec (networkCapacity st) (sendingRate st)) as [Hov|Hno].
  - destruct (overload_total st Hc Hw Hov) as (d & w' & Hd & Hb & Hw').
    rewrite (tick_overload t st d w' Hov Hd Hb).
    eexists; split; [reflexivity|].
    clear Hd Hb.
    unfold goodState, validConfig, conserved, validValue in *.
    cbn [packetRate networkCapacity sentPackets deliveredPackets droppedPackets tcpWindowSize isSimulationRunning simulationInterval].
    repeat split; try tauto; lia.
  - rewrite (tick_normal t st Hno).
    eexists; split; [reflexivity|].
    unfold goodState, validConfig, conserved, validValue, slowStart in *.
    cbn [packetRate networkCapacity sentPackets deliveredPackets droppedPackets tcpWindowSize isSimulationRunning simulationInterval].
    repeat split; try tauto; destruct (currentProtocol st); lia.
Qed.

Lemma handle_good e st :
  validEvent e -> goodState st ->
  exists st', handle (A := binary64) e st = Some st' /\ goodState st'.
Proof.
  intros He Hg. destruct e; cbn [handle validEvent] in *.
  - eexists; split; [reflexivity|]. unfold startSimulation.
    destruct (isSimulationRunning st); [exact Hg|].
    unfold goodState, validConfig, conserved, validValue, B64.MAX_SAFE_INTEGER in *.
    sim_fields. intuition lia.
  - eexists; split; [reflexivity|]. exact Hg.
  - eexists; split; [reflexivity|].
    unfold goodState, validConfig, conserved, validValue, B64.MAX_SAFE_INTEGER in *.
    sim_fields. intuition lia.
  - destruct (simulationInterval st).
    + destruct (tick_good currentTime st Hg) as (st' & E & G & _). eauto.
    + eauto.
  - eexists; split; [reflexivity|]. unfold setProtocol.
    destruct (isSimulationRunning (setCurrentProtocol p st)); [|exact Hg].
    unfold goodState, validConfig, conserved, validValue, B64.MAX_SAFE_INTEGER in *.
    sim_fields. intuition lia.
  - eexists; split; [reflexivity|].
    unfold goodState, validConfig, conserved in *. sim_fields. tauto.
  - eexists; split; [reflexivity|].
    unfold goodState, validConfig, conserved in *. sim_fields. tauto.
Qed.

Lemma run_good es : forall st,
  Forall validEvent es -> goodState st ->
  exists st', run (A := binary64) es st = Some st' /\ goodState st'.
Proof.
  induction es as [|e es IH]; intros st Hv Hg; cbn [run].
  - eauto.
  - inversion Hv as [|? ? He Hes]; subst.
    destruct (handle_good e st He Hg) as (st1 & -> & G1). cbn [obind].
    apply IH; assumption.
Qed.

Lemma initial_good : goodState initial.
Proof.
  unfold goodState, validConfig, conserved, validValue, B64.MAX_SAFE_INTEGER.
  cbv [initial packetRate networkCapacity sentPackets deliveredPackets
       droppedPackets tcpWindowSize]. lia.
Qed.

(** ** One tick, step by step *)

Lemma tick_step t st :
  validConfig st -> validValue (tcpWindowSize st) ->
  exists d w',
    (networkCapacity st < sendingRate st ->
       deliveredUnderOverload (A := binary64) (sendingRate st)
         (sendingRate st - networkCapacity st) = Some d /\
       match currentProtocol st with
       | tcp => backoff (A := binary64) (tcpWindowSize st) = Some w'
       | udp => w' = tcpWindowSize st
       end) /\
    (sendingRate st <= networkCapacity st ->
       d = sendingRate st /\
       w' = match currentProtocol st with
            | tcp => slowStart (packetRate st) (tcpWindowSize st)
            | udp => tcpWindowSize st
            end) /\
    0 <= d <= sendingRate st /\ validValue w' /\
    simulateNetworkTraffic (A := binary64) t st =
      Some (mkSim (packetRate st) (networkCapacity st)
                  (sentPackets st + sendingRate st)
                  (deliveredPackets st + d)
                  (droppedPackets st + (sendingRate st - d))
                  (currentProtocol st) (isSimulationRunning st) w'
                  (recordSample t (deliveredPackets st + d)
                     (droppedPackets st + (sendingRate st - d)) (chartData st))
                  (simulationInterval st)).
Proof.
  intros Hc Hw.
  pose proof (validValue_bound _ (sendingRate_valid st Hc Hw)) as Hs.
  pose proof (validValue_bound _ Hw) as Hw'.
  destruct (Z_lt_le_dec (networkCapacity st) (sendingRate st)) as [Hov|Hno].
  - destruct (overload_total st Hc Hw Hov) as (d & w' & Hd & Hb & Hwb).
    pose proof (proj2 Hc) as Hcap. apply validValue_bound in Hcap.
    destruct (deliveredUnderOverload_bounds (sendingRate st)
                (sendingRate st - networkCapacity st)) as (d' & Hd' & Bd); try lia.
    assert (d' = d) by congruence. subst d'.
    exists d, w'. split; [intros _; split; assumption|].
    split; [lia|]. split; [exact Bd|].
    split; [unfold validValue in *; lia|].
    exact (tick_overload t st d w' Hov Hd Hb).
  - exists (sendingRate st). eexists.
    split; [lia|]. split; [intros _; split; reflexivity|].
    split; [lia|]. split.
    + destruct Hc as [Hr _]. unfold validValue, slowStart in *.
      destruct (currentProtocol st); lia.
    + rewrite (tick_normal t st Hno). repeat f_equal; lia.
Qed.

(** While the counters have room, the binary64 tick is the integer tick. *)
Lemma tick64_agrees t st :
  validConfig st -> validValue (tcpWindowSize st) ->
  roomFor (sendingRate st) st ->
  simulateNetworkTraffic64 t st = simulateNetworkTraffic (A := binary64) t st.
Proof.
  intros Hc Hw (Hs & Hd & Hx & Hl).
  pose proof (validValue_bound _ (sendingRate_valid st Hc Hw)) as Hsr.
  destruct (tick_step t st Hc Hw) as (d & w' & Hov & Hno & Bd & _ & E).
  rewrite E. unfold simulateNetworkTraffic64.
  rewrite jsAdd_exact by lia. cbn [obind].
  destruct (Z_lt_le_dec (networkCapacity st) (sendingRate st)) as [H|H].
  - destruct (Hov H) as [Ed Ew].
    replace (Z.max 0 (sendingRate st - networkCapacity st))
      with (sendingRate st - networkCapacity st) by lia.
    destruct (Z.ltb_spec 0 (sendingRate st - networkCapacity st)); [|lia].
    rewrite Ed. cbn [obind].
    rewrite jsSub_exact by (unfold B64.MAX_SAFE_INTEGER; lia). cbn [obind].
    rewrite !jsAdd_exact by lia. cbn [obind].
    destruct (currentProtocol st) eqn:Ep.
    + rewrite Ew. cbn [obind]. sim_fields.
      rewrite jsSub_exact by lia. cbn [obind]. unfold setChart, setWindow, setCounters, recordSample. sim_fields. rewrite ?Ep. reflexivity.
    + subst w'. cbn [obind]. sim_fields. rewrite jsSub_exact by lia.
      cbn [obind]. unfold setChart, setWindow, setCounters, recordSample. sim_fields. rewrite ?Ep. reflexivity.
  - destruct (Hno H) as [-> ->].
    replace (Z.max 0 (sendingRate st - networkCapacity st)) with 0 by lia.
    cbn [Z.ltb Z.compare obind].
    rewrite jsAdd_exact by lia. cbn [obind].
    replace (droppedPackets st + (sendingRate st - sendingRate st))
      with (droppedPackets st) by lia.
    destruct (currentProtocol st) eqn:Ep; cbn [obind]; sim_fields;
      rewrite jsSub_exact by lia; cbn [obind];
      unfold setChart, setWindow, setCounters, recordSample; sim_fields;
      rewrite ?Ep; reflexivity.
Qed.

(** ** Runs within the safe range *)

Lemma sendingRate_le_packetRate st : sendingRate st <= packetRate st.
Proof. unfold sendingRate. destruct (currentProtocol st); lia. Qed.

Lemma lastThroughput_chartPush t x l cd :
  lastThroughput (chartPush t x l cd) = x \/ lastThroughput (chartPush t x l cd) = 0.
Proof.
  unfold lastThroughput, chartPush. cbn [time throughput loss].
  destruct (8 <? Z.of_nat (List.length (time cd ++ [t]))); cbn [throughput].
  - destruct (throughput cd) as [|b tb]; cbn [app tl].
    + right. reflexivity.
    + left. apply last_last.
  - left. apply last_last.
Qed.

(** What one tick leaves behind when the counters had room for [n] packets. *)
Lemma tick_room t st n :
  validConfig st -> validValue (tcpWindowSize st) ->
  sendingRate st <= n -> roomFor n st ->
  exists st', simulateNetworkTraffic (A := binary64) t st = Some st' /\
    validConfig st' /\ validValue (tcpWindowSize st') /\
    packetRate st' = packetRate st /\ networkCapacity st' = networkCapacity st /\
    currentProtocol st' = currentProtocol st /\
    roomFor (n - sendingRate st) st'.
Proof.
  intros Hc Hw Hn (Hs & Hd & Hx & Hl).
  pose proof (validValue_bound _ (sendingRate_valid st Hc Hw)) as Hsr.
  destruct (tick_step t st Hc Hw) as (d & w' & _ & _ & Bd & Hw' & E).
  rewrite E. eexists; split; [reflexivity|].
  unfold roomFor. sim_fields.
  split; [exact Hc|]. split; [exact Hw'|].
  split; [reflexivity|]. split; [reflexivity|]. split; [reflexivity|].
  split; [lia|]. split; [lia|]. split; [lia|].
  unfold recordSample.
  destruct (lastThroughput_chartPush t
              (deliveredPackets st + d - lastThroughput (chartData st))
              (droppedPackets st + (sendingRate st - d)) (chartData st)) as [->| ->]; lia.
Qed.

Lemma roomFor_weaken n m st : roomFor n st -> m <= n -> roomFor m st.
Proof. unfold roomFor. lia. Qed.

Lemma ticks64_agrees ts : forall st,
  validConfig st -> validValue (tcpWindowSize st) ->
  roomFor (Z.of_nat (List.length ts) * packetRate st) st ->
  ticks64 ts st = ticks (A := binary64) ts st.
Proof.
  induction ts as [|t ts IH]; intros st Hc Hw Hr; cbn [ticks64 ticks].
  - reflexivity.
  - change (List.length (t :: ts)) with (S (List.length ts)) in Hr.
    pose proof (sendingRate_le_packetRate st) as Hle.
    pose proof (validValue_bound _ (sendingRate_valid st Hc Hw)) as Hsr.
    assert (Hn : sendingRate st <= Z.of_nat (S (List.length ts)) * packetRate st) by nia.
    rewrite (tick64_agrees t st Hc Hw (roomFor_weaken _ _ st Hr Hn)).
    destruct (tick_room t st _ Hc Hw Hn Hr) as (st1 & -> & Hc1 & Hw1 & R1 & _ & _ & Hr1).
    cbn [obind]. apply IH; try assumption.
    rewrite R1. apply (roomFor_weaken _ _ st1 Hr1). nia.
Qed.

Lemma handle64_agrees e st :
  goodState st -> countersStaySafe (e :: nil) st ->
  handle64 e st = handle (A := binary64) e st.
Proof.
  intros (Hc & Hw & _) [Hr _]. destruct e; try reflexivity.
  cbn [handle64 handle]. destruct (simulationInterval st); [|reflexivity].
  apply tick64_agrees; assumption.
Qed.

Lemma run64_agrees es : forall st,
  Forall validEvent es -> goodState st -> countersStaySafe es st ->
  run64 es st = run (A := binary64) es st.
Proof.
  induction es as [|e es IH]; intros st Hv Hg Hs; cbn [run64 run].
  - reflexivity.
  - inversion Hv as [|? ? He Hes]; subst.
    assert (E : handle64 e st = handle (A := binary64) e st).
    { apply handle64_agrees; [exact Hg|]. cbn [countersStaySafe] in *.
      split; [exact (proj1 Hs)|]. destruct (handle64 e st); exact I. }
    cbn [countersStaySafe] in Hs. destruct Hs as [_ Hs]. rewrite E in *.
    destruct (handle_good e st He Hg) as (st1 & E1 & G1).
    rewrite E1 in *. cbn [obind]. apply IH; assumption.
Qed.

Lemma run_sample es : forall st,
  Forall validEvent es -> goodState st ->
  0 <= deliveredPackets st -> 0 <= droppedPackets st ->
  0 <= lastThroughput (chartData st) <= deliveredPackets st ->
  exists st', run (A := binary64) es st = Some st' /\ goodState st' /\
    0 <= deliveredPackets st' /\ 0 <= droppedPackets st' /\
    0 <= lastThroughput (chartData st') <= deliveredPackets st'.
Proof.
  induction es as [|e es IH]; intros st Hv Hg Hd Hx Hl; cbn [run].
  - eauto 6.
  - inversion Hv as [|? ? He Hes]; subst.
    destruct (handle_good e st He Hg) as (st1 & E1 & G1).
    assert (B1 : 0 <= deliveredPackets st1 /\ 0 <= droppedPackets st1 /\
                 0 <= lastThroughput (chartData st1) <= deliveredPackets st1).
    { destruct e; cbn [handle] in E1.
      - injection E1 as <-. unfold startSimulation.
        destruct (isSimulationRunning st); [tauto|].
        sim_fields. cbn. lia.
      - injection E1 as <-. sim_fields. tauto.
      - injection E1 as <-. sim_fields. cbn. lia.
      - destruct (simulationInterval st).
        + destruct Hg as (Hc & Hw & _).
          destruct (tick_step currentTime st Hc Hw) as (d & w' & _ & _ & Bd & _ & E).
          rewrite E in E1. injection E1 as <-. sim_fields.
          split; [lia|]. split; [lia|]. unfold recordSample.
          destruct (lastThroughput_chartPush currentTime
                      (deliveredPackets st + d - lastThroughput (chartData st))
                      (droppedPackets st + (sendingRate st - d)) (chartData st))
            as [->| ->]; lia.
        + injection E1 as <-. tauto.
      - injection E1 as <-. unfold setProtocol.
        destruct (isSimulationRunning (setCurrentProtocol p st)).
        + sim_fields. cbn. lia.
        + sim_fields. tauto.
      - injection E1 as <-. sim_fields. tauto.
      - injection E1 as <-. sim_fields. tauto. }
    rewrite E1. cbn [obind]. apply IH; tauto.
Qed.

(** ** Counter conservation *)

(** C1 (counter conservation).  From the state the page loads in, every
    sequence of user actions and timer ticks with valid slider values along
    which the counters stay safe integers runs, with the counters added in
    binary64, to a state with [deliveredPackets + droppedPackets =
    sentPackets]; and a further tick with room in the counters adds
    [sendingRate] to [sentPackets] and two non-negative amounts that sum to
    [sendingRate] to the other two counters, which keeps the equation. *)
Theorem counter_conservation (es : list Event) :
  Forall validEvent es -> countersStaySafe es initial ->
  exists st, run64 es initial = Some st /\
    deliveredPackets st + droppedPackets st = sentPackets st /\
    forall t, roomFor (sendingRate st) st ->
      exists delivered dropped st',
        simulateNetworkTraffic64 t st = Some st' /\
        0 <= delivered /\ 0 <= dropped /\
        delivered + dropped = sendingRate st /\
        sentPackets st' = sentPackets st + sendingRate st /\
        deliveredPackets st' = deliveredPackets st + delivered /\
        droppedPackets st' = droppedPackets st + dropped /\
        deliveredPackets st' + droppedPackets st' = sentPackets st'.
Proof.
  intros Hv Hs.
  rewrite (run64_agrees es initial Hv initial_good Hs).
  destruct (run_good es initial Hv initial_good) as (st & E & G).
  exists st. split; [exact E|]. split; [exact (proj2 (proj2 G))|].
  intros t Hr. destruct G as (Hc & Hw & C).
  rewrite (tick64_agrees t st Hc Hw Hr).
  destruct (tick_step t st Hc Hw) as (d & w' & _ & _ & Bd & _ & E').
  exists d, (sendingRate st - d). eexists. split; [exact E'|].
  unfold conserved in C. sim_fields. repeat split; lia.
Qed.

Lemma counter_conservation_witness :
  let es := [NetworkCapacityInput 5; Start; Tick "t1"; Tick "t2"; Tick "t3";
             Tick "t4"; Tick "t5"; Tick "t6"; Tick "t7"; SetProtocol udp;
             Start; Tick "t8"]%string in
  let st := mkSim 10 5 10 5 5 udp true 1 (mkChart ["t8"%string] [5] [5]) true in
  (Forall validEvent es /\ countersStaySafe es initial /\
   roomFor (sendingRate st) st) /\
  run64 es initial = Some st /\
  deliveredPackets st + droppedPackets st = sentPackets st /\
  exists st', simulateNetworkTraffic64 "t9" st = Some st' /\
    sentPackets st' = 20 /\
    deliveredPackets st' + droppedPackets st' = sentPackets st'.
Proof.
  intros es st.
  assert (H : Forall validEvent es).
  { repeat constructor; unfold validValue, B64.MAX_SAFE_INTEGER; lia. }
  assert (Hs : countersStaySafe es initial).
  { vm_compute. repeat split; discriminate. }
  assert (Hr : roomFor (sendingRate st) st).
  { vm_compute. repeat split; discriminate. }
  split; [exact (conj H (conj Hs Hr))|].
  destruct (counter_conservation es H Hs) as (st0 & E & C & T).
  assert (Hst : st0 = st).
  { assert (E0 : run64 es initial = Some st) by (vm_compute; reflexivity).
    congruence. }
  subst st0. split; [exact E|]. split; [exact C|].
  destruct (T "t9"%string Hr) as (d & x & st' & E' & _ & _ & _ & S' & _ & _ & C').
  exists st'. split; [exact E'|]. split; [exact S'|exact C'].
Defined.

(** ** The TCP window *)

Lemma tick_tcp_window t st :
  currentProtocol st = tcp -> validConfig st ->
  1 <= tcpWindowSize st <= packetRate st ->
  exists st', simulateNetworkTraffic (A := binary64) t st = Some st' /\
              currentProtocol st' = tcp /\
              packetRate st' = packetRate st /\
              networkCapacity st' = networkCapacity st /\
              1 <= tcpWindowSize st' <= packetRate st.
Proof.
  intros Hp Hc Hw.
  assert (Hv : validValue (tcpWindowSize st)).
  { destruct Hc as [Hr _]. unfold validValue in *. lia. }
  destruct (Z_lt_le_dec (networkCapacity st) (sendingRate st)) as [Hov|Hno].
  - destruct (overload_total st Hc Hv Hov) as (d & w' & Hd & Hb & Hw').
    rewrite (tick_overload t st d w' Hov Hd Hb).
    eexists; split; [reflexivity|]. sim_fields. repeat split; try assumption; lia.
  - rewrite (tick_normal t st Hno).
    eexists; split; [reflexivity|]. sim_fields. rewrite Hp. unfold slowStart.
    destruct Hc as [Hr _]. unfold validValue in Hr.
    repeat split; try reflexivity; lia.
Qed.

Lemma ticks_tcp_window ts : forall st,
  currentProtocol st = tcp -> validConfig st ->
  1 <= tcpWindowSize st <= packetRate st ->
  exists st', ticks (A := binary64) ts st = Some st' /\
              1 <= tcpWindowSize st' <= packetRate st.
Proof.
  induction ts as [|t ts IH]; intros st Hp Hc Hw; cbn [ticks].
  - eauto.
  - destruct (tick_tcp_window t st Hp Hc Hw) as (st1 & -> & Hp1 & Hr1 & Hc1 & Hw1).
    cbn [obind]. rewrite <- Hr1 in Hw1 |- *. apply IH; try assumption.
    unfold validConfig in *. rewrite Hr1, Hc1. exact Hc.
Qed.

(** C2 (TCP window bounds).  With protocol TCP, a valid configuration and
    [tcpWindowSize = 1] (the value every start and reset assigns), any number
    of ticks runs to a state whose window lies between 1 and [packetRate]. *)
Theorem tcp_window_bounds (ts : list string) (st : Sim) :
  currentProtocol st = tcp -> validConfig st -> tcpWindowSize st = 1 ->
  exists st', ticks (A := binary64) ts st = Some st' /\
              1 <= tcpWindowSize st' <= packetRate st.
Proof.
  intros Hp Hc Hw. apply ticks_tcp_window; try assumption.
  destruct Hc as [Hr _]. unfold validValue in Hr. lia.
Qed.

Lemma tcp_window_bounds_witness :
  let st := mkSim 10 5 0 0 0 tcp true 1 emptyChart true in
  let ts := ["1"; "2"; "3"; "4"; "5"; "6"; "7"; "8"; "9"; "10"; "11"; "12"]%string in
  (currentProtocol st = tcp /\ validConfig st /\ tcpWindowSize st = 1) /\
  exists st', ticks (A := binary64) ts st = Some st' /\
              1 <= tcpWindowSize st' <= packetRate st.
Proof.
  intros st ts.
  assert (Hc : validConfig st).
  { unfold validConfig, validValue, B64.MAX_SAFE_INTEGER, st; cbn [packetRate networkCapacity]. lia. }
  split; [split; [reflexivity|split; [exact Hc|reflexivity]]|].
  exact (tcp_window_bounds ts st eq_refl Hc eq_refl).
Defined.

(** ** The overload branch *)

Lemma backoff_10 : backoff (A := binary64) 10 = Some 7.
Proof. vm_compute. reflexivity. Qed.

(** C3 (overload branch).  When [sendingRate > networkCapacity] and the
    counters have room, the tick adds
    [floor(sendingRate * (1 - overload / sendingRate))] to the delivered
    counter and the rest of [sendingRate] to the dropped counter, both
    floors being integers; under TCP the window becomes
    [max(1, floor(tcpWindowSize * 0.7))], which is 7 when the window was 10;
    under UDP the window is untouched. *)
Theorem overload_branch (t : string) (st : Sim) :
  validConfig st -> validValue (tcpWindowSize st) ->
  roomFor (sendingRate st) st ->
  networkCapacity st < sendingRate st ->
  let s := sendingRate st in
  let over := Z.max 0 (s - networkCapacity st) in
  let dropRate := B64.div (B64.of_Z over) (B64.of_Z s) in
  exists delivered st',
    B64.floor (B64.mul (B64.of_Z s) (B64.sub (B64.of_Z 1) dropRate)) = Some delivered /\
    simulateNetworkTraffic64 t st = Some st' /\
    sentPackets st' = sentPackets st + s /\
    deliveredPackets st' = deliveredPackets st + delivered /\
    droppedPackets st' = droppedPackets st + (s - delivered) /\
    match currentProtocol st with
    | tcp => exists f,
        B64.floor (B64.mul (B64.of_Z (tcpWindowSize st)) B64.c0_7) = Some f /\
        tcpWindowSize st' = Z.max 1 f
    | udp => tcpWindowSize st' = tcpWindowSize st
    end /\
    (currentProtocol st = tcp -> tcpWindowSize st = 10 -> tcpWindowSize st' = 7).
Proof.
  intros Hc Hw Hr Hov s over dropRate.
  destruct (overload_total st Hc Hw Hov) as (d & w' & Hd & Hb & Hw').
  exists d. eexists. subst dropRate over s.
  replace (Z.max 0 (sendingRate st - networkCapacity st))
    with (sendingRate st - networkCapacity st) by lia.
  split; [exact Hd|].
  rewrite (tick64_agrees t st Hc Hw Hr).
  split; [exact (tick_overload t st d w' Hov Hd Hb)|].
  sim_fields. repeat split.
  - destruct (currentProtocol st).
    + unfold backoff in Hb.
      cbv [Math_floor num_mul lit_0_7 of_int binary64] in Hb.
      destruct (B64.floor (B64.mul (B64.of_Z (tcpWindowSize st)) B64.c0_7)) as [f|];
        cbn [obind] in Hb; [|discriminate].
      exists f. split; [reflexivity|]. congruence.
    + exact Hb.
  - intros Hp H10. rewrite Hp, H10, backoff_10 in Hb. congruence.
Qed.

Lemma overload_branch_witness :
  let st := mkSim 20 5 30 28 2 tcp true 10 emptyChart true in
  (validConfig st /\ validValue (tcpWindowSize st) /\
   roomFor (sendingRate st) st /\ networkCapacity st < sendingRate st) /\
  exists st', simulateNetworkTraffic64 "12:00:01" st = Some st' /\
              sentPackets st' = 40 /\ tcpWindowSize st' = 7.
Proof.
  intros st.
  assert (Hc : validConfig st).
  { unfold validConfig, validValue, B64.MAX_SAFE_INTEGER, st; cbn [packetRate networkCapacity]. lia. }
  assert (Hw : validValue (tcpWindowSize st)).
  { unfold validValue, B64.MAX_SAFE_INTEGER, st; cbn [tcpWindowSize]. lia. }
  assert (Hr : roomFor (sendingRate st) st).
  { vm_compute. repeat split; discriminate. }
  assert (Hov : networkCapacity st < sendingRate st) by reflexivity.
  split; [exact (conj Hc (conj Hw (conj Hr Hov)))|].
  destruct (overload_branch "12:00:01" st Hc Hw Hr Hov)
    as (d & st' & _ & E & S' & _ & _ & _ & H7).
  exists st'. split; [exact E|]. split; [exact S'|]. apply H7; reflexivity.
Defined.

(** ** The no-overload branch *)

Lemma ticks_no_overload ts : forall st,
  currentProtocol st = tcp -> tcpWindowSize st <= packetRate st ->
  noOverloadTicks (A := binary64) ts st ->
  exists st', ticks (A := binary64) ts st = Some st' /\
    tcpWindowSize st' =
      Z.min (packetRate st) (tcpWindowSize st + Z.of_nat (List.length ts)) /\
    droppedPackets st' = droppedPackets st /\
    deliveredPackets st' - deliveredPackets st = sentPackets st' - sentPackets st.
Proof.
  induction ts as [|t ts IH]; intros st Hp Hw Hno; cbn [ticks noOverloadTicks] in *.
  - exists st. repeat split; cbn [List.length Z.of_nat]; lia.
  - destruct Hno as [Hle Hrest].
    rewrite (tick_normal t st Hle) in Hrest |- *. cbn [obind].
    match goal with |- context [ticks ts ?s1] => set (st1 := s1) in * end.
    assert (Hp1 : currentProtocol st1 = tcp) by exact Hp.
    assert (Hw1 : tcpWindowSize st1 <= packetRate st1).
    { unfold st1; sim_fields. rewrite Hp. unfold slowStart. lia. }
    destruct (IH st1 Hp1 Hw1 Hrest) as (st' & E & Hw' & Hd' & Hs').
    exists st'. split; [exact E|].
    unfold st1 in Hw', Hd', Hs'. revert Hw' Hd' Hs'. sim_fields.
    rewrite Hp. unfold slowStart. intros Hw' Hd' Hs'.
    rewrite Hw', Hd'. change (List.length (t :: ts)) with (S (List.length ts)).
    repeat split; lia.
Qed.

Lemma noOverloadTicks64_agrees ts : forall st,
  validConfig st -> validValue (tcpWindowSize st) ->
  roomFor (Z.of_nat (List.length ts) * packetRate st) st ->
  noOverloadTicks64 ts st -> noOverloadTicks (A := binary64) ts st.
Proof.
  induction ts as [|t ts IH]; intros st Hc Hw Hr Hno;
    cbn [noOverloadTicks64 noOverloadTicks] in *.
  - exact I.
  - destruct Hno as [Hle Hrest]. split; [exact Hle|].
    change (List.length (t :: ts)) with (S (List.length ts)) in Hr.
    pose proof (sendingRate_le_packetRate st) as Hsp.
    pose proof (validValue_bound _ (sendingRate_valid st Hc Hw)) as Hsr.
    assert (Hn : sendingRate st <= Z.of_nat (S (List.length ts)) * packetRate st) by nia.
    rewrite (tick64_agrees t st Hc Hw (roomFor_weaken _ _ st Hr Hn)) in Hrest.
    destruct (tick_room t st _ Hc Hw Hn Hr) as (st1 & E1 & Hc1 & Hw1 & R1 & _ & _ & Hr1).
    rewrite E1 in *. apply IH; try assumption.
    rewrite R1. apply (roomFor_weaken _ _ st1 Hr1). nia.
Qed.

(** C4 (no-overload branch).  A tick with [sendingRate <= networkCapacity]
    and room in the counters delivers the whole sending rate, drops nothing
    and, under TCP, sets the window to [min(packetRate, tcpWindowSize + 1)].
    Hence after N consecutive such ticks from a window [w0 < packetRate] the
    window is [min(packetRate, w0 + N)]: one more per tick until it stays at
    [packetRate]. *)
Theorem no_overload_branch (t : string) (ts : list string) (st : Sim) :
  validConfig st -> validValue (tcpWindowSize st) ->
  (sendingRate st <= networkCapacity st -> roomFor (sendingRate st) st ->
   exists st', simulateNetworkTraffic64 t st = Some st' /\
     sentPackets st' = sentPackets st + sendingRate st /\
     deliveredPackets st' = deliveredPackets st + sendingRate st /\
     droppedPackets st' = droppedPackets st /\
     (currentProtocol st = tcp ->
      tcpWindowSize st' = Z.min (packetRate st) (tcpWindowSize st + 1))) /\
  (currentProtocol st = tcp -> tcpWindowSize st < packetRate st ->
   roomFor (Z.of_nat (List.length ts) * packetRate st) st ->
   noOverloadTicks64 ts st ->
   exists st', ticks64 ts st = Some st' /\
     tcpWindowSize st' =
       Z.min (packetRate st) (tcpWindowSize st + Z.of_nat (List.length ts)) /\
     droppedPackets st' = droppedPackets st).
Proof.
  intros Hc Hv. split.
  - intros Hle Hr. rewrite (tick64_agrees t st Hc Hv Hr), (tick_normal t st Hle).
    eexists; split; [reflexivity|]. sim_fields.
    repeat split. intros ->. reflexivity.
  - intros Hp Hw Hr Hno.
    rewrite (ticks64_agrees ts st Hc Hv Hr).
    apply (noOverloadTicks64_agrees ts st Hc Hv Hr) in Hno.
    destruct (ticks_no_overload ts st Hp ltac:(lia) Hno) as (st' & E & W & D & _).
    eauto.
Qed.

Lemma no_overload_branch_witness :
  let st := mkSim 10 15 0 0 0 tcp true 8 emptyChart true in
  let ts := ["1"; "2"; "3"; "4"]%string in
  (validConfig st /\ validValue (tcpWindowSize st) /\
   sendingRate st <= networkCapacity st /\ roomFor (sendingRate st) st /\
   currentProtocol st = tcp /\ tcpWindowSize st < packetRate st /\
   roomFor (Z.of_nat (List.length ts) * packetRate st) st /\
   noOverloadTicks64 ts st) /\
  (exists st', simulateNetworkTraffic64 "1" st = Some st' /\
     deliveredPackets st' = 8 /\ droppedPackets st' = 0 /\ tcpWindowSize st' = 9) /\
  (exists st', ticks64 ts st = Some st' /\ tcpWindowSize st' = 10).
Proof.
  intros st ts.
  assert (Hc : validConfig st).
  { unfold validConfig, validValue, B64.MAX_SAFE_INTEGER, st; cbn [packetRate networkCapacity]. lia. }
  assert (Hv : validValue (tcpWindowSize st)).
  { unfold validValue, B64.MAX_SAFE_INTEGER, st; cbn [tcpWindowSize]. lia. }
  assert (H1 : sendingRate st <= networkCapacity st) by (vm_compute; discriminate).
  assert (R1 : roomFor (sendingRate st) st) by (vm_compute; repeat split; discriminate).
  assert (H2 : tcpWindowSize st < packetRate st) by reflexivity.
  assert (R2 : roomFor (Z.of_nat (List.length ts) * packetRate st) st)
    by (vm_compute; repeat split; discriminate).
  assert (H3 : noOverloadTicks64 ts st).
  { vm_compute. repeat split; discriminate. }
  split; [exact (conj Hc (conj Hv (conj H1 (conj R1 (conj eq_refl
                  (conj H2 (conj R2 H3)))))))|].
  destruct (no_overload_branch "1" ts st Hc Hv) as [A1 A2].
  split.
  - destruct (A1 H1 R1) as (st' & E & _ & D & R & W).
    exists st'. repeat split; [exact E|exact D|exact R|exact (W eq_refl)].
  - destruct (A2 eq_refl H2 R2 H3) as (st' & E & W & _).
    exists st'. split; [exact E|exact W].
Defined.

(** ** Utilization status *)

Lemma SFcompare_swap x y :
  SFcompare y x = option_map CompOpp (SFcompare x y).
Proof.
  destruct x as [sx|sx| |sx mx ex], y as [sy|sy| |sy my ey];
    try reflexivity;
    try (destruct sx; reflexivity);
    try (destruct sy; reflexivity);
    try (destruct sx, sy; reflexivity).
  cbn [SFcompare option_map].
  rewrite (Z.compare_antisym ey ex).
  pose proof (Pos.compare_cont_antisym mx my Eq) as P. cbn [CompOpp] in P.
  destruct sx, sy; try reflexivity;
    destruct (ey ?= ex); cbn [CompOpp]; try reflexivity; f_equal;
    rewrite <- P; try reflexivity.
Qed.

Lemma leb_not_ltb a u : B64.leb a u = true -> B64.ltb u a = false.
Proof.
  unfold B64.leb, B64.ltb, SFleb, SFltb. rewrite (SFcompare_swap a u).
  destruct (SFcompare a u) as [[| |]|]; cbn; congruence.
Qed.

Lemma not_ltb_leb a u lo hi lo' hi' :
  fin_within lo hi u -> fin_within lo' hi' a ->
  B64.ltb u a = false -> B64.leb a u = true.
Proof.
  intros Hu Ha. unfold B64.leb, B64.ltb, SFleb, SFltb.
  rewrite (SFcompare_swap a u).
  destruct u as [su|su| |su mu eu], a as [sa|sa| |sa ma ea];
    cbn [fin_within] in Hu, Ha; try contradiction;
    destruct (SFcompare _ _) as [[| |]|] eqn:E; cbn; try congruence;
    cbn in E; try destruct su; try destruct sa; discriminate.
Qed.

Lemma leb_85_not_ltb_60 u :
  B64.leb (B64.of_Z 85) u = true -> B64.ltb u (B64.of_Z 60) = false.
Proof.
  change (B64.of_Z 85) with (S754_finite false 5981343255101440 (-46)).
  change (B64.of_Z 60) with (S754_finite false 8444249301319680 (-47)).
  unfold B64.leb, B64.ltb, SFleb, SFltb.
  destruct u as [su|su| |su mu eu]; cbn [SFcompare]; try reflexivity;
    try (destruct su; intros; try reflexivity; discriminate).
  destruct su; [intros; discriminate|].
  destruct (Z.compare_spec (-46) eu) as [<-|Hlt|Hgt]; intros H.
  - reflexivity.
  - destruct (Z.compare_spec eu (-47)); try reflexivity; lia.
  - discriminate.
Qed.

Lemma utilization_fin rate cap :
  Z.abs rate < 2 ^ 53 -> 1 <= cap < 2 ^ 53 ->
  fin_within (-1074) 107 (utilization (A := binary64) rate cap).
Proof.
  intros Hr Hc. unfold utilization.
  cbv [num_mul num_div of_int binary64].
  apply (mul_within _ _ 53 0 106); try lia.
  - destruct (of_Z_shape cap ltac:(lia) ltac:(lia)) as (mc & ec & -> & Hec & _ & Hmc).
    destruct (Z.eq_dec rate 0) as [->|Hn].
    + exact I.
    + destruct (of_Z_shape rate Hn Hr) as (mr & er & -> & Her & _ & Hmr).
      apply (div_within _ _ _ _ _ _ 52); lia.
  - apply of_Z_fin. reflexivity.
Qed.

(** C5 (utilization classification).  For a safe-integer rate and capacity
    with [networkCapacity >= 1], the utilization
    [packetRate / networkCapacity * 100] is a number, and the status shown is
    Normal when it is below 60, Warning when it is at least 60 and below 85,
    Congested when it is at least 85; one of the three always applies.  At
    capacity 100 the rates 59, 60, 85 and 150 give Normal, Warning, Congested
    and Congested. *)
Theorem utilization_classification (rate cap : Z) :
  - B64.MAX_SAFE_INTEGER <= rate <= B64.MAX_SAFE_INTEGER ->
  1 <= cap <= B64.MAX_SAFE_INTEGER ->
  let u := utilization (A := binary64) rate cap in
  let status := networkStatus (A := binary64) rate cap in
  (B64.ltb u (B64.of_Z 60) = true -> status = Normal) /\
  (B64.leb (B64.of_Z 60) u = true -> B64.ltb u (B64.of_Z 85) = true ->
   status = Warning) /\
  (B64.leb (B64.of_Z 85) u = true -> status = Congested) /\
  (B64.ltb u (B64.of_Z 60) = true \/
   (B64.leb (B64.of_Z 60) u = true /\ B64.ltb u (B64.of_Z 85) = true) \/
   B64.leb (B64.of_Z 85) u = true) /\
  networkStatus (A := binary64) 59 100 = Normal /\
  networkStatus (A := binary64) 60 100 = Warning /\
  networkStatus (A := binary64) 85 100 = Congested /\
  networkStatus (A := binary64) 150 100 = Congested.
Proof.
  intros Hr Hc u status.
  assert (Hu : fin_within (-1074) 107 u).
  { apply utilization_fin; unfold B64.MAX_SAFE_INTEGER in *; lia. }
  assert (H60 : fin_within (-1074) 0 (B64.of_Z 60)) by (apply of_Z_fin; reflexivity).
  assert (H85 : fin_within (-1074) 0 (B64.of_Z 85)) by (apply of_Z_fin; reflexivity).
  assert (Hs : status = if B64.ltb u (B64.of_Z 60) then Normal
                        else if B64.ltb u (B64.of_Z 85) then Warning
                        else Congested) by reflexivity.
  split; [|split; [|split; [|split]]].
  - intros H. rewrite Hs, H. reflexivity.
  - intros H1 H2. rewrite Hs, (leb_not_ltb _ _ H1), H2. reflexivity.
  - intros H. rewrite Hs, (leb_85_not_ltb_60 _ H), (leb_not_ltb _ _ H). reflexivity.
  - destruct (B64.ltb u (B64.of_Z 60)) eqn:E1; [left; reflexivity|right].
    pose proof (not_ltb_leb _ _ _ _ _ _ Hu H60 E1) as L60.
    destruct (B64.ltb u (B64.of_Z 85)) eqn:E2; [left; split; [exact L60|reflexivity]|right].
    exact (not_ltb_leb _ _ _ _ _ _ Hu H85 E2).
  - repeat split; vm_compute; reflexivity.
Qed.

Lemma utilization_classification_witness :
  (- B64.MAX_SAFE_INTEGER <= 12 <= B64.MAX_SAFE_INTEGER /\
   1 <= 15 <= B64.MAX_SAFE_INTEGER /\
   B64.leb (B64.of_Z 60) (utilization (A := binary64) 12 15) = true /\
   B64.ltb (utilization (A := binary64) 12 15) (B64.of_Z 85) = true) /\
  networkStatus (A := binary64) 12 15 = Warning.
Proof.
  assert (H1 : - B64.MAX_SAFE_INTEGER <= 12 <= B64.MAX_SAFE_INTEGER)
    by (unfold B64.MAX_SAFE_INTEGER; lia).
  assert (H2 : 1 <= 15 <= B64.MAX_SAFE_INTEGER)
    by (unfold B64.MAX_SAFE_INTEGER; lia).
  assert (H3 : B64.leb (B64.of_Z 60) (utilization (A := binary64) 12 15) = true)
    by (vm_compute; reflexivity).
  assert (H4 : B64.ltb (utilization (A := binary64) 12 15) (B64.of_Z 85) = true)
    by (vm_compute; reflexivity).
  split; [exact (conj H1 (conj H2 (conj H3 H4)))|].
  exact (proj1 (proj2 (utilization_classification 12 15 H1 H2)) H3 H4).
Defined.

(** ** The throughput sample *)

(** C6 (interval throughput).  With the default configuration, after
    [Start] and three ticks the delivered counter reads 1, 3, 6, whose first
    differences are 1, 2, 3; the throughput column however holds 1, 2, 4:
    the third sample is [6 - 2], the counter minus the previous sample, not
    the counter minus its previous value. *)
Theorem throughput_sample_subtracts_previous_sample :
  exists st1 st2 st3,
    run (A := binary64) [Start; Tick "1"] initial = Some st1 /\
    handle (A := binary64) (Tick "2") st1 = Some st2 /\
    handle (A := binary64) (Tick "3") st2 = Some st3 /\
    deliveredPackets st1 = 1 /\ deliveredPackets st2 = 3 /\
    deliveredPackets st3 = 6 /\
    throughput (chartData st3) = [1; 2; 4] /\
    last (throughput (chartData st3)) 0
      <> deliveredPackets st3 - deliveredPackets st2.
Proof.
  do 3 eexists.
  split; [vm_compute; reflexivity|].
  split; [vm_compute; reflexivity|].
  split; [vm_compute; reflexivity|].
  repeat split; try (vm_compute; reflexivity).
  vm_compute. discriminate.
Qed.

(** ** The chart buffer *)

Lemma chartOf_app l r :
  chartOf (l ++ [r]) =
  mkChart (time (chartOf l) ++ [fst (fst r)])
          (throughput (chartOf l) ++ [snd (fst r)])
          (loss (chartOf l) ++ [snd r]).
Proof. unfold chartOf. cbn [time throughput loss]. rewrite !map_app. reflexivity. Qed.

Lemma chartOf_tl l :
  chartOf (tl l) =
  mkChart (tl (time (chartOf l))) (tl (throughput (chartOf l))) (tl (loss (chartOf l))).
Proof. destruct l; reflexivity. Qed.

Lemma pushSample_chartOf l r :
  pushSample (chartOf l) r =
  chartOf (if (8 <? List.length (l ++ [r]))%nat then tl (l ++ [r]) else l ++ [r]).
Proof.
  unfold pushSample, chartPush. rewrite <- chartOf_app.
  assert (E : (8 <? Z.of_nat (List.length (time (chartOf (l ++ [r])))))
              = (8 <? List.length (l ++ [r]))%nat).
  { unfold chartOf; cbn [time]. rewrite length_map.
    destruct (Nat.ltb_spec 8 (List.length (l ++ [r])));
      [apply Z.ltb_lt|apply Z.ltb_ge]; unfold Sample in *; lia. }
  rewrite E. destruct (8 <? List.length (l ++ [r]))%nat.
  - symmetry. apply chartOf_tl.
  - destruct (chartOf (l ++ [r])); reflexivity.
Qed.

Lemma tl_skipn {T} (l : list T) k : tl (skipn k l) = skipn (S k) l.
Proof.
  revert l; induction k as [|k IH]; intros [|x l]; try reflexivity.
  rewrite skipn_cons, IH. reflexivity.
Qed.

Lemma pushAll_last8 (rows : list Sample) :
  pushAll rows emptyChart = chartOf (skipn (List.length rows - 8) rows).
Proof.
  induction rows as [|r rows IH] using rev_ind; [reflexivity|].
  unfold pushAll in *. rewrite fold_left_app. cbn [fold_left].
  rewrite IH, pushSample_chartOf. f_equal.
  set (n := List.length rows).
  assert (Hl : List.length (skipn (n - 8) rows ++ [r]) = S (Nat.min n 8)).
  { rewrite length_app, length_skipn. cbn [List.length]. fold n. lia. }
  rewrite Hl, length_app. cbn [List.length]. fold n.
  destruct (Nat.ltb_spec 8 (S (Nat.min n 8))) as [Hfull|Hroom].
  - assert (Hn : (8 <= n)%nat) by lia.
    replace (n + 1 - 8)%nat with (S (n - 8)) by lia.
    rewrite skipn_app. fold n.
    replace (S (n - 8) - n)%nat with 0%nat by lia.
    rewrite <- tl_skipn. change (skipn 0 [r]) with [r].
    destruct (skipn (n - 8) rows) as [|x xs] eqn:E; [|reflexivity].
    apply (f_equal (@List.length _)) in E. rewrite length_skipn in E.
    fold n in E. cbn in E. lia.
  - replace (n - 8)%nat with 0%nat by lia.
    replace (n + 1 - 8)%nat with 0%nat by lia. reflexivity.
Qed.

(** C7 (bounded FIFO chart buffer).  Pushing any sequence of samples into
    the empty chart leaves exactly the last eight of them (all of them when
    there are fewer), in push order, with the three columns of equal length
    at most 8; with nine samples pushed the first one is gone and the other
    eight remain. *)
Theorem chart_buffer_bounded_fifo (rows : list Sample) :
  let cd := pushAll rows emptyChart in
  cd = chartOf (skipn (List.length rows - 8) rows) /\
  (List.length (time cd) <= 8)%nat /\
  List.length (throughput cd) = List.length (time cd) /\
  List.length (loss cd) = List.length (time cd) /\
  (List.length rows = 9%nat -> cd = chartOf (tl rows)).
Proof.
  intros cd. subst cd. rewrite pushAll_last8.
  unfold chartOf; cbn [time throughput loss]. rewrite !length_map, length_skipn.
  repeat split; try lia.
  intros H9. rewrite H9. reflexivity.
Qed.

Lemma chart_buffer_bounded_fifo_witness :
  let rows : list Sample :=
    [("t1", 1, 0); ("t2", 2, 0); ("t3", 4, 0); ("t4", 4, 1); ("t5", 5, 1);
     ("t6", 7, 1); ("t7", 8, 1); ("t8", 9, 2); ("t9", 11, 2)]%string in
  List.length rows = 9%nat /\
  pushAll rows emptyChart =
    mkChart ["t2"; "t3"; "t4"; "t5"; "t6"; "t7"; "t8"; "t9"]%string
            [2; 4; 4; 5; 7; 8; 9; 11] [0; 0; 1; 1; 1; 1; 2; 2].
Proof.
  intros rows. split; [reflexivity|].
  exact (proj2 (proj2 (proj2 (proj2 (chart_buffer_bounded_fifo rows)))) eq_refl).
Defined.

(** ** Lifecycle *)


(** Pausing and starting again does not keep the counters: the state reached
    by [Start] and one tick has [sentPackets = 1], and [startSimulation]
    after [pauseSimulation] puts it back to 0. *)
Lemma pause_then_start_resets :
  run (A := binary64) [Start; Tick "1"] initial = Some afterOneTick /\
  sentPackets (pauseSimulation afterOneTick) = sentPackets afterOneTick /\
  sentPackets (startSimulation (pauseSimulation afterOneTick))
    <> sentPackets afterOneTick.
Proof.
  split; [vm_compute; reflexivity|]. split; [reflexivity|].
  vm_compute. discriminate.
Qed.

(** C8 (lifecycle frame, as the code has it).  [pauseSimulation] changes
    nothing but the running flag and the timer.  [startSimulation] on a
    running simulation changes nothing; on a stopped one (in particular
    after a pause) it zeroes the counters, sets the window to 1 and empties
    the chart, exactly as [resetSimulation] does, and keeps the
    configuration. *)
Theorem lifecycle_frame (st : Sim) :
  (let p := pauseSimulation st in
   sentPackets p = sentPackets st /\ deliveredPackets p = deliveredPackets st /\
   droppedPackets p = droppedPackets st /\ tcpWindowSize p = tcpWindowSize st /\
   chartData p = chartData st /\ packetRate p = packetRate st /\
   networkCapacity p = networkCapacity st /\
   currentProtocol p = currentProtocol st /\
   isSimulationRunning p = false /\ simulationInterval p = false) /\
  (isSimulationRunning st = true -> startSimulation st = st) /\
  (isSimulationRunning st = false ->
   let s := startSimulation st in
   sentPackets s = 0 /\ deliveredPackets s = 0 /\ droppedPackets s = 0 /\
   tcpWindowSize s = 1 /\ chartData s = emptyChart /\
   packetRate s = packetRate st /\ networkCapacity s = networkCapacity st /\
   currentProtocol s = currentProtocol st /\
   isSimulationRunning s = true /\ simulationInterval s = true) /\
  (let r := resetSimulation st in
   sentPackets r = 0 /\ deliveredPackets r = 0 /\ droppedPackets r = 0 /\
   tcpWindowSize r = 1 /\ chartData r = emptyChart /\
   packetRate r = packetRate st /\ networkCapacity r = networkCapacity st /\
   currentProtocol r = currentProtocol st /\
   isSimulationRunning r = false /\ simulationInterval r = false) /\
  (let s := startSimulation (pauseSimulation st) in
   sentPackets s = 0 /\ deliveredPackets s = 0 /\ droppedPackets s = 0 /\
   tcpWindowSize s = 1 /\ chartData s = emptyChart).
Proof.
  split; [repeat split|].
  split; [intros H; unfold startSimulation; rewrite H; reflexivity|].
  split; [intros H; unfold startSimulation; rewrite H; repeat split|].
  split; repeat split.
Qed.

Lemma lifecycle_frame_witness :
  (isSimulationRunning afterOneTick = true /\
   isSimulationRunning (pauseSimulation afterOneTick) = false) /\
  startSimulation afterOneTick = afterOneTick /\
  sentPackets (startSimulation (pauseSimulation afterOneTick)) = 0.
Proof.
  split; [split; reflexivity|]. split.
  - exact (proj1 (proj2 (lifecycle_frame afterOneTick)) eq_refl).
  - exact (proj1 (proj1 (proj2 (proj2 (lifecycle_frame (pauseSimulation afterOneTick)))) eq_refl)).
Defined.

(** ** Configuration handlers *)

(** A non-positive slider value is stored like any other: the handler
    returns a state whose [packetRate] is 0, and a capacity of 0 yields the
    status Congested, not an error. *)
Lemma zero_rate_is_accepted :
  packetRate initial = 10 /\
  packetRate (onPacketRateInput 0 initial) = 0 /\
  networkCapacity (onNetworkCapacityInput 0 initial) = 0 /\
  networkStatus (A := binary64) 10 0 = Congested.
Proof. repeat split. Qed.

Lemma networkStatus_zero_capacity rate :
  0 <= rate <= B64.MAX_SAFE_INTEGER ->
  networkStatus (A := binary64) rate 0 = Congested.
Proof.
  intros Hr. unfold networkStatus, statusOf, utilization.
  cbv [num_mul num_div num_ltb of_int binary64].
  destruct (Z.eq_dec rate 0) as [->|Hn]; [vm_compute; reflexivity|].
  destruct (of_Z_shape rate Hn ltac:(unfold B64.MAX_SAFE_INTEGER in Hr; lia))
    as (m & e & -> & _).
  replace (rate <? 0) with false by (symmetry; apply Z.ltb_ge; lia).
  vm_compute. reflexivity.
Qed.

(** C9 (configuration input, as the code has it).  The slider handlers store
    whatever integer they are given, non-positive ones included, and touch
    nothing else; no operation reports an error.  With capacity 0 the status
    of any non-negative rate is Congested.  From a state with valid values
    the tick always returns a state. *)
Theorem configuration_is_not_validated (v : Z) (t : string) (st : Sim) :
  (let s := onPacketRateInput v st in
   packetRate s = v /\ networkCapacity s = networkCapacity st /\
   sentPackets s = sentPackets st /\ deliveredPackets s = deliveredPackets st /\
   droppedPackets s = droppedPackets st /\ tcpWindowSize s = tcpWindowSize st /\
   chartData s = chartData st /\ currentProtocol s = currentProtocol st /\
   isSimulationRunning s = isSimulationRunning st) /\
  (let s := onNetworkCapacityInput v st in
   networkCapacity s = v /\ packetRate s = packetRate st /\
   sentPackets s = sentPackets st /\ deliveredPackets s = deliveredPackets st /\
   droppedPackets s = droppedPackets st /\ tcpWindowSize s = tcpWindowSize st /\
   chartData s = chartData st /\ currentProtocol s = currentProtocol st /\
   isSimulationRunning s = isSimulationRunning st) /\
  (0 <= v <= B64.MAX_SAFE_INTEGER -> networkStatus (A := binary64) v 0 = Congested) /\
  (goodState st -> exists st', simulateNetworkTraffic (A := binary64) t st = Some st').
Proof.
  split; [repeat split|]. split; [repeat split|]. split.
  - apply networkStatus_zero_capacity.
  - intros Hg. destruct (tick_good t st Hg) as (st' & E & _). eauto.
Qed.

Lemma configuration_is_not_validated_witness :
  (0 <= 0 <= B64.MAX_SAFE_INTEGER /\ goodState initial) /\
  packetRate (onPacketRateInput 0 initial) = 0 /\
  networkStatus (A := binary64) 0 0 = Congested /\
  exists st', simulateNetworkTraffic (A := binary64) "1" initial = Some st'.
Proof.
  assert (H0 : 0 <= 0 <= B64.MAX_SAFE_INTEGER) by (unfold B64.MAX_SAFE_INTEGER; lia).
  pose proof initial_good as Hg.
  pose proof (configuration_is_not_validated 0 "1" initial) as (A1 & _ & A3 & A4).
  split; [exact (conj H0 Hg)|].
  split; [exact (proj1 A1)|]. split; [exact (A3 H0)|exact (A4 Hg)].
Defined.

(** ** The overload formula, exactly and in binary64 *)


Section Udp20Over10.

Context {R : Type} {A : JSArith R}.
Hypothesis delivered_20_10 : deliveredUnderOverload 20 10 = Some 10.


End Udp20Over10.


(** In binary64 the floor does discard something for other inputs: with
    [sendingRate = 5] and capacity 1 the product is just below 1. *)
Lemma binary64_delivered_5_over_1 : deliveredUnderOverload (A := binary64) 5 4 = Some 0.
Proof. vm_compute. reflexivity. Qed.




(** * Further properties of the simulation *)

Lemma run_good_timer es : forall st,
  Forall validEvent es -> goodState st ->
  simulationInterval st = isSimulationRunning st ->
  exists st', run (A := binary64) es st = Some st' /\ goodState st' /\
              simulationInterval st' = isSimulationRunning st'.
Proof.
  induction es as [|e es IH]; intros st Hv Hg Ht; cbn [run].
  - eauto.
  - inversion Hv as [|? ? He Hes]; subst.
    destruct (handle_good e st He Hg) as (st1 & E1 & G1).
    assert (T1 : simulationInterval st1 = isSimulationRunning st1).
    { destruct e; cbn [handle] in E1.
      - injection E1 as <-. unfold startSimulation.
        destruct (isSimulationRunning st) eqn:Er; [congruence|reflexivity].
      - injection E1 as <-. reflexivity.
      - injection E1 as <-. reflexivity.
      - destruct (simulationInterval st) eqn:Et.
        + destruct (tick_good currentTime st Hg) as (st2 & E2 & _ & R2 & T2).
          rewrite E2 in E1. injection E1 as <-. congruence.
        + injection E1 as <-. congruence.
      - injection E1 as <-. unfold setProtocol.
        destruct (isSimulationRunning (setCurrentProtocol p st)) eqn:Er;
          [reflexivity|exact Ht].
      - injection E1 as <-. exact Ht.
      - injection E1 as <-. exact Ht. }
    rewrite E1. cbn [obind]. apply IH; assumption.
Qed.

(** X1 (timer and running flag).  The interval timer is armed exactly while
    [isSimulationRunning] holds, in every state reachable from the initial
    one; so [startSimulation] only ever arms a timer when none is armed, and
    on a stopped simulation a timer tick changes nothing. *)
Theorem timer_follows_running_flag (es : list Event) :
  Forall validEvent es ->
  exists st, run (A := binary64) es initial = Some st /\
             simulationInterval st = isSimulationRunning st /\
             (isSimulationRunning st = false ->
              forall t, handle (A := binary64) (Tick t) st = Some st).
Proof.
  intros Hv.
  destruct (run_good_timer es initial Hv initial_good eq_refl) as (st & E & _ & T).
  exists st. split; [exact E|]. split; [exact T|].
  intros Hr t. cbn [handle]. rewrite T, Hr. reflexivity.
Qed.

Lemma timer_follows_running_flag_witness :
  Forall validEvent [Start; Tick "1"; PacketRateInput 30; Tick "2"; Pause] /\
  exists st,
    run (A := binary64) [Start; Tick "1"; PacketRateInput 30; Tick "2"; Pause]
      initial = Some st /\
    simulationInterval st = isSimulationRunning st.
Proof.
  assert (H : Forall validEvent
                [Start; Tick "1"; PacketRateInput 30; Tick "2"; Pause]).
  { repeat constructor; unfold validValue, B64.MAX_SAFE_INTEGER; lia. }
  split; [exact H|].
  destruct (timer_follows_running_flag _ H) as (st & E & T & _).
  exists st. split; [exact E|exact T].
Defined.

(** ** Composition of the lifecycle operations *)

(** X2 (composition of start, pause and reset).  Starting twice is starting
    once; pausing or resetting twice is doing it once; a reset absorbs a pause
    on either side; and starting after a reset is the same as starting after a
    pause. *)
Theorem lifecycle_composition (st : Sim) :
  startSimulation (startSimulation st) = startSimulation st /\
  pauseSimulation (pauseSimulation st) = pauseSimulation st /\
  resetSimulation (resetSimulation st) = resetSimulation st /\
  resetSimulation (pauseSimulation st) = resetSimulation st /\
  pauseSimulation (resetSimulation st) = resetSimulation st /\
  startSimulation (resetSimulation st) = startSimulation (pauseSimulation st).
Proof.
  destruct st as [rate cap sent del drop proto [|] w cd timer];
    repeat split; reflexivity.
Qed.

Lemma stopped_ticks_inert (ts : list string) : forall st,
  simulationInterval st = false ->
  run (A := binary64) (map Tick ts) st = Some st.
Proof.
  induction ts as [|t ts IH]; intros st Ht; cbn [map run handle].
  - reflexivity.
  - rewrite Ht. cbn [obind]. apply IH. exact Ht.
Qed.

(** X3 (protocol switch while running).  Switching the protocol while the
    simulation runs stops it and zeroes its state under the new protocol;
    timer ticks that follow change nothing until the simulation is started
    again. *)
Theorem setProtocol_while_running (p : Protocol) (ts : list string) (st : Sim) :
  isSimulationRunning st = true ->
  exists st',
    run (A := binary64) (SetProtocol p :: map Tick ts) st = Some st' /\
    st' = resetSimulation (setCurrentProtocol p st) /\
    currentProtocol st' = p /\ isSimulationRunning st' = false /\
    sentPackets st' = 0 /\ deliveredPackets st' = 0 /\ droppedPackets st' = 0 /\
    tcpWindowSize st' = 1 /\ chartData st' = emptyChart /\
    packetRate st' = packetRate st /\ networkCapacity st' = networkCapacity st.
Proof.
  intros Hr. exists (resetSimulation (setCurrentProtocol p st)).
  split; [|repeat split].
  cbn [run handle obind]. unfold setProtocol.
  replace (isSimulationRunning (setCurrentProtocol p st)) with true by (symmetry; exact Hr).
  apply stopped_ticks_inert. reflexivity.
Qed.

Lemma setProtocol_while_running_witness :
  isSimulationRunning afterOneTick = true /\
  exists st',
    run (A := binary64) [SetProtocol udp; Tick "2"; Tick "3"] afterOneTick = Some st' /\
    currentProtocol st' = udp /\ sentPackets st' = 0 /\ isSimulationRunning st' = false.
Proof.
  split; [reflexivity|].
  destruct (setProtocol_while_running udp ["2"; "3"]%string afterOneTick eq_refl)
    as (st' & E & _ & P & R & S & _).
  exists st'. repeat split; assumption.
Defined.

(** ** Congestion behaviour over many ticks *)

Lemma ticks_no_loss (ts : list string) : forall st : Sim,
  packetRate st <= networkCapacity st ->
  exists st', ticks (A := binary64) ts st = Some st' /\
    droppedPackets st' = droppedPackets st /\
    deliveredPackets st' - deliveredPackets st = sentPackets st' - sentPackets st.
Proof.
  induction ts as [|t ts IH]; intros st Hle; cbn [ticks].
  - exists st. repeat split; lia.
  - assert (Hs : sendingRate st <= networkCapacity st).
    { unfold sendingRate. destruct (currentProtocol st); lia. }
    rewrite (tick_normal t st Hs). cbn [obind].
    match goal with |- context [ticks ts ?s1] => set (st1 := s1) end.
    destruct (IH st1 Hle) as (st' & E & D & Hsent).
    exists st'. split; [exact E|].
    unfold st1 in D, Hsent. cbn [droppedPackets deliveredPackets sentPackets] in D, Hsent.
    split; lia.
Qed.

(** X4 (no loss within capacity).  When the configured rate does not exceed
    the capacity nothing is ever dropped, under either protocol and whatever
    the window is: as long as the counters have room, every tick delivers
    all it sends. *)
Theorem no_loss_within_capacity (ts : list string) (st : Sim) :
  validConfig st -> validValue (tcpWindowSize st) ->
  packetRate st <= networkCapacity st ->
  roomFor (Z.of_nat (List.length ts) * packetRate st) st ->
  exists st', ticks64 ts st = Some st' /\
    droppedPackets st' = droppedPackets st /\
    deliveredPackets st' - deliveredPackets st = sentPackets st' - sentPackets st.
Proof.
  intros Hc Hw Hle Hr. rewrite (ticks64_agrees ts st Hc Hw Hr).
  apply ticks_no_loss. exact Hle.
Qed.

Lemma no_loss_within_capacity_witness :
  let st := mkSim 10 15 0 0 0 udp true 1 emptyChart true in
  let ts := ["1"; "2"; "3"]%string in
  (validConfig st /\ validValue (tcpWindowSize st) /\
   packetRate st <= networkCapacity st /\
   roomFor (Z.of_nat (List.length ts) * packetRate st) st) /\
  exists st', ticks64 ts st = Some st' /\ droppedPackets st' = 0.
Proof.
  intros st ts.
  assert (Hc : validConfig st).
  { unfold validConfig, validValue, B64.MAX_SAFE_INTEGER, st;
      cbn [packetRate networkCapacity]. lia. }
  assert (Hw : validValue (tcpWindowSize st)).
  { unfold validValue, B64.MAX_SAFE_INTEGER, st; cbn [tcpWindowSize]. lia. }
  assert (H : packetRate st <= networkCapacity st) by (vm_compute; discriminate).
  assert (Hr : roomFor (Z.of_nat (List.length ts) * packetRate st) st)
    by (vm_compute; repeat split; discriminate).
  split; [exact (conj Hc (conj Hw (conj H Hr)))|].
  destruct (no_loss_within_capacity ts st Hc Hw H Hr) as (st' & E & D & _).
  exists st'. split; [exact E|exact D].
Defined.

Lemma tick_tcp_overshoot t st :
  currentProtocol st = tcp -> validConfig st ->
  1 <= tcpWindowSize st <= packetRate st ->
  tcpWindowSize st <= networkCapacity st + 1 ->
  exists st', simulateNetworkTraffic (A := binary64) t st = Some st' /\
    currentProtocol st' = tcp /\ packetRate st' = packetRate st /\
    networkCapacity st' = networkCapacity st /\
    1 <= tcpWindowSize st' <= packetRate st /\
    tcpWindowSize st' <= networkCapacity st + 1.
Proof.
  intros Hp Hc Hw Hcap.
  assert (Hv : validValue (tcpWindowSize st)).
  { destruct Hc as [Hr _]. unfold validValue in *. lia. }
  assert (Hs : sendingRate st = tcpWindowSize st).
  { unfold sendingRate. rewrite Hp. lia. }
  destruct (Z_lt_le_dec (networkCapacity st) (sendingRate st)) as [Hov|Hno].
  - destruct (overload_total st Hc Hv Hov) as (d & w' & Hd & Hb & Hw').
    rewrite (tick_overload t st d w' Hov Hd Hb).
    eexists; split; [reflexivity|].
    cbn [currentProtocol packetRate networkCapacity tcpWindowSize].
    repeat split; try assumption; lia.
  - rewrite (tick_normal t st Hno).
    eexists; split; [reflexivity|].
    cbn [currentProtocol packetRate networkCapacity tcpWindowSize].
    rewrite Hp. unfold slowStart. repeat split; try reflexivity; lia.
Qed.

(** X5 (TCP overshoot).  Under TCP, from the window 1 that every start
    assigns, the window (and with it the sending rate) never gets more than
    one packet above the network capacity: the slow start is cut back as soon
    as it overshoots. *)
Theorem tcp_overshoot_at_most_one (ts : list string) (st : Sim) :
  currentProtocol st = tcp -> validConfig st -> tcpWindowSize st = 1 ->
  exists st', ticks (A := binary64) ts st = Some st' /\
    tcpWindowSize st' <= networkCapacity st + 1 /\
    sendingRate st' <= networkCapacity st + 1.
Proof.
  intros Hp Hc H1.
  assert (G : forall ts st0,
    currentProtocol st0 = tcp -> validConfig st0 ->
    1 <= tcpWindowSize st0 <= packetRate st0 ->
    tcpWindowSize st0 <= networkCapacity st0 + 1 ->
    exists st', ticks (A := binary64) ts st0 = Some st' /\
      currentProtocol st' = tcp /\
      tcpWindowSize st' <= packetRate st' /\
      tcpWindowSize st' <= networkCapacity st0 + 1).
  { clear. induction ts as [|t ts IH]; intros st Hp Hc Hw Hcap; cbn [ticks].
    - exists st. repeat split; try assumption; lia.
    - destruct (tick_tcp_overshoot t st Hp Hc Hw Hcap)
        as (st1 & -> & P1 & R1 & C1 & W1 & O1). cbn [obind].
      rewrite <- C1. apply IH; try assumption.
      + unfold validConfig in *. rewrite R1, C1. exact Hc.
      + rewrite R1. exact W1.
      + rewrite C1. exact O1. }
  destruct Hc as [Hr Hcap]. unfold validValue in Hr, Hcap.
  destruct (G ts st Hp (conj Hr Hcap) ltac:(lia) ltac:(lia)) as (st' & E & P & W & O).
  exists st'. split; [exact E|]. split; [exact O|].
  unfold sendingRate. rewrite P. lia.
Qed.

Lemma tcp_overshoot_at_most_one_witness :
  let st := mkSim 30 5 0 0 0 tcp true 1 emptyChart true in
  let ts := ["1"; "2"; "3"; "4"; "5"; "6"; "7"; "8"; "9"; "10"]%string in
  (currentProtocol st = tcp /\ validConfig st /\ tcpWindowSize st = 1) /\
  exists st', ticks (A := binary64) ts st = Some st' /\ tcpWindowSize st' <= 6.
Proof.
  intros st ts.
  assert (Hc : validConfig st).
  { unfold validConfig, validValue, B64.MAX_SAFE_INTEGER, st;
      cbn [packetRate networkCapacity]. lia. }
  split; [exact (conj eq_refl (conj Hc eq_refl))|].
  destruct (tcp_overshoot_at_most_one ts st eq_refl Hc eq_refl) as (st' & E & W & _).
  exists st'. split; [exact E|exact W].
Defined.

Lemma udp_ticks_linear (st : Sim) :
  currentProtocol st = udp -> validConfig st ->
  exists d,
    (packetRate st <= networkCapacity st -> d = packetRate st) /\
    (networkCapacity st < packetRate st ->
     deliveredUnderOverload (A := binary64) (packetRate st)
       (packetRate st - networkCapacity st) = Some d) /\
    forall ts, exists st',
      ticks (A := binary64) ts st = Some st' /\
      tcpWindowSize st' = tcpWindowSize st /\
      sentPackets st' = sentPackets st + Z.of_nat (List.length ts) * packetRate st /\
      deliveredPackets st' = deliveredPackets st + Z.of_nat (List.length ts) * d /\
      droppedPackets st'
        = droppedPackets st + Z.of_nat (List.length ts) * (packetRate st - d).
Proof.
  intros Hp Hc.
  assert (Hd : exists d,
     (packetRate st <= networkCapacity st -> d = packetRate st) /\
     (networkCapacity st < packetRate st ->
      deliveredUnderOverload (A := binary64) (packetRate st)
        (packetRate st - networkCapacity st) = Some d)).
  { destruct (Z_lt_le_dec (networkCapacity st) (packetRate st)) as [Hov|Hno].
    - destruct Hc as [Hr Hcap]. apply validValue_bound in Hr, Hcap.
      destruct (deliveredUnderOverload_total (packetRate st)
                  (packetRate st - networkCapacity st)) as [d Hd]; try lia.
      exists d. split; [lia|intros _; exact Hd].
    - exists (packetRate st). split; [reflexivity|lia]. }
  destruct Hd as (d & Hd1 & Hd2). exists d. split; [exact Hd1|]. split; [exact Hd2|].
  intros ts. clear Hc. revert st Hp Hd1 Hd2.
  induction ts as [|t ts IH]; intros st Hp Hd1 Hd2; cbn [ticks].
  - exists st. cbn [List.length Z.of_nat]. repeat split; lia.
  - assert (Hs : sendingRate st = packetRate st) by (unfold sendingRate; rewrite Hp; reflexivity).
    assert (E1 : exists st1, simulateNetworkTraffic (A := binary64) t st = Some st1 /\
               currentProtocol st1 = udp /\ packetRate st1 = packetRate st /\
               networkCapacity st1 = networkCapacity st /\
               tcpWindowSize st1 = tcpWindowSize st /\
               sentPackets st1 = sentPackets st + packetRate st /\
               deliveredPackets st1 = deliveredPackets st + d /\
               droppedPackets st1 = droppedPackets st + (packetRate st - d)).
    { destruct (Z_lt_le_dec (networkCapacity st) (packetRate st)) as [Hov|Hno].
      - assert (Hw : match currentProtocol st with
                     | tcp => backoff (A := binary64) (tcpWindowSize st) = Some (tcpWindowSize st)
                     | udp => tcpWindowSize st = tcpWindowSize st
                     end) by (rewrite Hp; reflexivity).
        pose proof (Hd2 Hov) as Hd. rewrite <- Hs in Hd, Hov.
        rewrite (tick_overload t st d _ Hov Hd Hw).
        eexists; split; [reflexivity|].
        cbn [currentProtocol packetRate networkCapacity tcpWindowSize sentPackets
             deliveredPackets droppedPackets]. rewrite Hs. repeat split; assumption.
      - rewrite (Hd1 Hno) in *. rewrite <- Hs in Hno.
        rewrite (tick_normal t st Hno).
        eexists; split; [reflexivity|].
        cbn [currentProtocol packetRate networkCapacity tcpWindowSize sentPackets
             deliveredPackets droppedPackets]. rewrite Hp, Hs.
        repeat split; try assumption; lia. }
    destruct E1 as (st1 & -> & P1 & R1 & C1 & W1 & S1 & D1 & X1). cbn [obind].
    destruct (IH st1 P1) as (st' & E & W & Hsent & D & X).
    + rewrite R1, C1. exact Hd1.
    + rewrite R1, C1. exact Hd2.
    + exists st'. split; [exact E|].
      rewrite W, Hsent, D, X, W1, S1, D1, X1, R1.
      change (List.length (t :: ts)) with (S (List.length ts)).
      repeat split; lia.
Qed.

(** X6 (UDP sends at a constant rate).  Under UDP nothing adapts: the window
    is never touched, every tick sends [packetRate] and delivers one and the
    same amount [d] (all of it when the rate fits the capacity, the floor of
    the overload formula when it does not), so the three counters grow
    linearly for as long as they have room. *)
Theorem udp_is_constant_rate (st : Sim) :
  currentProtocol st = udp -> validConfig st -> validValue (tcpWindowSize st) ->
  exists d,
    (packetRate st <= networkCapacity st -> d = packetRate st) /\
    (networkCapacity st < packetRate st ->
     deliveredUnderOverload (A := binary64) (packetRate st)
       (packetRate st - networkCapacity st) = Some d) /\
    forall ts, roomFor (Z.of_nat (List.length ts) * packetRate st) st ->
      exists st',
      ticks64 ts st = Some st' /\
      tcpWindowSize st' = tcpWindowSize st /\
      sentPackets st' = sentPackets st + Z.of_nat (List.length ts) * packetRate st /\
      deliveredPackets st' = deliveredPackets st + Z.of_nat (List.length ts) * d /\
      droppedPackets st'
        = droppedPackets st + Z.of_nat (List.length ts) * (packetRate st - d).
Proof.
  intros Hp Hc Hw.
  destruct (udp_ticks_linear st Hp Hc) as (d & H1 & H2 & H3).
  exists d. split; [exact H1|]. split; [exact H2|].
  intros ts Hr. rewrite (ticks64_agrees ts st Hc Hw Hr). apply H3.
Qed.

Lemma udp_is_constant_rate_witness :
  let st := mkSim 10 2 0 0 0 udp true 1 emptyChart true in
  let ts := ["1"; "2"; "3"]%string in
  (currentProtocol st = udp /\ validConfig st /\ validValue (tcpWindowSize st) /\
   networkCapacity st < packetRate st /\
   roomFor (Z.of_nat (List.length ts) * packetRate st) st) /\
  exists st', ticks64 ts st = Some st' /\
    sentPackets st' = 30 /\ deliveredPackets st' = 3 /\ droppedPackets st' = 27.
Proof.
  intros st ts.
  assert (Hc : validConfig st).
  { unfold validConfig, validValue, B64.MAX_SAFE_INTEGER, st;
      cbn [packetRate networkCapacity]. lia. }
  assert (Hw : validValue (tcpWindowSize st)).
  { unfold validValue, B64.MAX_SAFE_INTEGER, st; cbn [tcpWindowSize]. lia. }
  assert (Hov : networkCapacity st < packetRate st) by reflexivity.
  assert (Hr : roomFor (Z.of_nat (List.length ts) * packetRate st) st)
    by (vm_compute; repeat split; discriminate).
  split; [exact (conj eq_refl (conj Hc (conj Hw (conj Hov Hr))))|].
  destruct (udp_is_constant_rate st eq_refl Hc Hw) as (d & _ & Hd & Hts).
  assert (E : Some d = Some 1).
  { rewrite <- (Hd Hov). vm_compute. reflexivity. }
  injection E as ->.
  destruct (Hts ts Hr) as (st' & Et & _ & Hsent & D & X).
  exists st'. split; [exact Et|]. split; [exact Hsent|]. split; [exact D|exact X].
Defined.

(** ** The chart along a run *)

Lemma tick_chart t st :
  goodState st ->
  exists st', simulateNetworkTraffic (A := binary64) t st = Some st' /\
    goodState st' /\
    chartData st' = recordSample t (deliveredPackets st') (droppedPackets st')
                      (chartData st).
Proof.
  intros (Hc & Hw & Hcons).
  destruct (tick_good t st (conj Hc (conj Hw Hcons))) as (st' & E & G & _).
  exists st'. split; [exact E|]. split; [exact G|].
  destruct (Z_lt_le_dec (networkCapacity st) (sendingRate st)) as [Hov|Hno].
  - destruct (overload_total st Hc Hw Hov) as (d & w' & Hd & Hb & _).
    rewrite (tick_overload t st d w' Hov Hd Hb) in E. injection E as <-. reflexivity.
  - rewrite (tick_normal t st Hno) in E. injection E as <-. reflexivity.
Qed.

Lemma ticks_chart ts : forall st,
  goodState st ->
  exists st' rows, ticks (A := binary64) ts st = Some st' /\ goodState st' /\
    time (chartOf rows) = ts /\
    chartData st' = pushAll rows (chartData st).
Proof.
  induction ts as [|t ts IH]; intros st Hg; cbn [ticks].
  - exists st, []. split; [reflexivity|]. split; [exact Hg|]. split; reflexivity.
  - destruct (tick_chart t st Hg) as (st1 & -> & G1 & C1). cbn [obind].
    destruct (IH st1 G1) as (st' & rows & E & G & M & C).
    exists st'.
    exists ((t, deliveredPackets st1 - lastThroughput (chartData st),
             droppedPackets st1) :: rows).
    split; [exact E|]. split; [exact G|]. split.
    + unfold chartOf in *. cbn [time map fst] in *. rewrite M. reflexivity.
    + rewrite C, C1. reflexivity.
Qed.

(** X7 (chart labels).  After any number of ticks from an empty chart (a start
    or a reset), the chart's time column is exactly the timestamps of the last
    eight ticks, in order, and the throughput and loss columns have the same
    length. *)
Theorem chart_labels_are_last_eight_ticks (ts : list string) (st : Sim) :
  goodState st -> chartData st = emptyChart ->
  exists st', ticks (A := binary64) ts st = Some st' /\
    time (chartData st') = skipn (List.length ts - 8) ts /\
    List.length (throughput (chartData st')) = Nat.min (List.length ts) 8 /\
    List.length (loss (chartData st')) = Nat.min (List.length ts) 8.
Proof.
  intros Hg He.
  destruct (ticks_chart ts st Hg) as (st' & rows & E & _ & M & C).
  exists st'. split; [exact E|].
  rewrite C, He, pushAll_last8. unfold chartOf in *. cbn [time throughput loss] in *.
  unfold Sample in *. rewrite !length_map, length_skipn, <- skipn_map, M.
  assert (L : List.length rows = List.length ts).
  { rewrite <- M. symmetry. apply length_map. }
  rewrite L. repeat split; lia.
Qed.

Lemma chart_labels_are_last_eight_ticks_witness :
  let st := startSimulation initial in
  let ts := ["1"; "2"; "3"; "4"; "5"; "6"; "7"; "8"; "9"; "10"]%string in
  (goodState st /\ chartData st = emptyChart) /\
  exists st', ticks (A := binary64) ts st = Some st' /\
    time (chartData st') = ["3"; "4"; "5"; "6"; "7"; "8"; "9"; "10"]%string.
Proof.
  intros st ts.
  assert (Hg : goodState st).
  { unfold goodState, validConfig, conserved, validValue, B64.MAX_SAFE_INTEGER, st.
    cbn [startSimulation initial isSimulationRunning setTimer resetNetworkStats
         setChart setWindow setCounters setIsRunning packetRate networkCapacity
         tcpWindowSize sentPackets deliveredPackets droppedPackets]. lia. }
  split; [exact (conj Hg eq_refl)|].
  destruct (chart_labels_are_last_eight_ticks ts st Hg eq_refl) as (st' & E & T & _).
  exists st'. split; [exact E|exact T].
Defined.

Lemma chartPush_aligned t x l cd :
  chartAligned cd -> chartAligned (chartPush t x l cd).
Proof.
  intros (H1 & H2 & H3). unfold chartPush, chartAligned. cbn [time throughput loss].
  destruct (Z.ltb_spec 8 (Z.of_nat (List.length (time cd ++ [t]))));
    cbn [time throughput loss].
  - destruct (time cd) as [|a ta], (throughput cd) as [|b tb], (loss cd) as [|c tc];
      cbn [List.length app tl] in *; try discriminate; try lia.
    rewrite !length_app in *. cbn [List.length] in *. lia.
  - rewrite !length_app in *. cbn [List.length] in *. lia.
Qed.

Lemma chartPush_last t x l cd d :
  List.length (throughput cd) = List.length (time cd) ->
  last (throughput (chartPush t x l cd)) d = x.
Proof.
  intros H1. unfold chartPush. cbn [time throughput loss].
  destruct (Z.ltb_spec 8 (Z.of_nat (List.length (time cd ++ [t]))));
    cbn [throughput].
  - destruct (throughput cd) as [|b tb].
    + rewrite length_app in H. rewrite <- H1 in H. cbn [List.length] in H. lia.
    + cbn [app tl]. apply last_last.
  - apply last_last.
Qed.

Lemma run_good_aligned es : forall st,
  Forall validEvent es -> goodState st -> chartAligned (chartData st) ->
  exists st', run (A := binary64) es st = Some st' /\ goodState st' /\
              chartAligned (chartData st').
Proof.
  assert (Hempty : chartAligned emptyChart) by (repeat split; cbn; lia).
  induction es as [|e es IH]; intros st Hv Hg Ha; cbn [run].
  - eauto.
  - inversion Hv as [|? ? He Hes]; subst.
    destruct (handle_good e st He Hg) as (st1 & E1 & G1).
    assert (A1 : chartAligned (chartData st1)).
    { destruct e; cbn [handle] in E1.
      - injection E1 as <-. unfold startSimulation.
        destruct (isSimulationRunning st); [exact Ha|exact Hempty].
      - injection E1 as <-. exact Ha.
      - injection E1 as <-. exact Hempty.
      - destruct (simulationInterval st).
        + destruct (tick_chart currentTime st Hg) as (st2 & E2 & _ & C2).
          rewrite E2 in E1. injection E1 as <-. rewrite C2.
          apply chartPush_aligned. exact Ha.
        + injection E1 as <-. exact Ha.
      - injection E1 as <-. unfold setProtocol.
        destruct (isSimulationRunning (setCurrentProtocol p st));
          [exact Hempty|exact Ha].
      - injection E1 as <-. exact Ha.
      - injection E1 as <-. exact Ha. }
    rewrite E1. cbn [obind]. apply IH; assumption.
Qed.

(** X8 (throughput sample recurrence).  In every state reached along a run
    that keeps the counters safe integers, the three chart columns have the
    same length, at most 8, and the newest throughput sample lies between 0
    and the delivered counter; a tick with room in the counters then makes
    the newest sample equal to the new delivered counter minus the
    previously newest sample (0 when the chart is empty). *)
Theorem throughput_sample_recurrence (es : list Event) :
  Forall validEvent es -> countersStaySafe es initial ->
  exists st,
    run64 es initial = Some st /\
    chartAligned (chartData st) /\
    0 <= lastThroughput (chartData st) <= deliveredPackets st /\
    forall t, roomFor (sendingRate st) st ->
      exists st',
        simulateNetworkTraffic64 t st = Some st' /\
        chartAligned (chartData st') /\
        lastThroughput (chartData st')
          = deliveredPackets st' - lastThroughput (chartData st).
Proof.
  intros Hv Hs.
  rewrite (run64_agrees es initial Hv initial_good Hs).
  assert (Hempty : chartAligned (chartData initial)) by (repeat split; cbn; lia).
  destruct (run_good_aligned es initial Hv initial_good Hempty) as (st & E & G & Al).
  destruct (run_sample es initial Hv initial_good) as (st0 & E0 & _ & _ & _ & L);
    try (cbn; lia).
  assert (st0 = st) by congruence. subst st0.
  exists st. split; [exact E|]. split; [exact Al|]. split; [exact L|].
  intros t Hr.
  rewrite (tick64_agrees t st (proj1 G) (proj1 (proj2 G)) Hr).
  destruct (tick_chart t st G) as (st' & E' & _ & C).
  exists st'. split; [exact E'|].
  rewrite C. split.
  - apply chartPush_aligned. exact Al.
  - unfold recordSample, lastThroughput. apply chartPush_last. exact (proj1 Al).
Qed.

Lemma throughput_sample_recurrence_witness :
  let es := [Start; Tick "1"; Tick "2"]%string in
  let st := mkSim 10 15 3 3 0 tcp true 3
              (mkChart ["1"; "2"]%string [1; 2] [0; 0]) true in
  (Forall validEvent es /\ countersStaySafe es initial /\
   roomFor (sendingRate st) st) /\
  run64 es initial = Some st /\
  exists st', simulateNetworkTraffic64 "3" st = Some st' /\
    lastThroughput (chartData st') = 6 - 2.
Proof.
  intros es st.
  assert (H : Forall validEvent es) by (repeat constructor).
  assert (Hs : countersStaySafe es initial) by (vm_compute; repeat split; discriminate).
  assert (Hr : roomFor (sendingRate st) st) by (vm_compute; repeat split; discriminate).
  split; [exact (conj H (conj Hs Hr))|].
  destruct (throughput_sample_recurrence es H Hs) as (st0 & E & _ & _ & T).
  assert (Hst : st0 = st).
  { assert (E0 : run64 es initial = Some st) by (vm_compute; reflexivity).
    congruence. }
  subst st0. split; [exact E|].
  destruct (T "3"%string Hr) as (st' & E' & _ & L).
  exists st'. split; [exact E'|].
  assert (D : deliveredPackets st' = 6).
  { assert (E1 : simulateNetworkTraffic64 "3" st
                 = Some (mkSim 10 15 6 6 0 tcp true 4
                           (mkChart ["1"; "2"; "3"]%string [1; 2; 4] [0; 0; 0]) true))
      by (vm_compute; reflexivity).
    rewrite E1 in E'. injection E' as <-. reflexivity. }
  rewrite L, D. reflexivity.
Defined.

(** ** Counters never go backwards *)

Lemma tick_counter_steps (t : string) (st : Sim) :
  goodState st ->
  exists st', simulateNetworkTraffic (A := binary64) t st = Some st' /\
    sentPackets st' = sentPackets st + sendingRate st /\
    deliveredPackets st <= deliveredPackets st'
      <= deliveredPackets st + sendingRate st /\
    droppedPackets st <= droppedPackets st'
      <= droppedPackets st + sendingRate st.
Proof.
  intros (Hc & Hw & Hcons).
  pose proof (validValue_bound _ (sendingRate_valid st Hc Hw)) as Hs.
  destruct (Z_lt_le_dec (networkCapacity st) (sendingRate st)) as [Hov|Hno].
  - destruct (overload_total st Hc Hw Hov) as (d & w' & Hd & Hb & _).
    destruct Hc as [_ Hcap]. apply validValue_bound in Hcap.
    destruct (deliveredUnderOverload_bounds (sendingRate st)
                (sendingRate st - networkCapacity st)) as (d' & Hd' & Bd); try lia.
    assert (d' = d) by congruence. subst d'.
    rewrite (tick_overload t st d w' Hov Hd Hb).
    eexists; split; [reflexivity|].
    cbn [sentPackets deliveredPackets droppedPackets]. lia.
  - rewrite (tick_normal t st Hno).
    eexists; split; [reflexivity|].
    cbn [sentPackets deliveredPackets droppedPackets]. lia.
Qed.

(** X9 (counters never decrease).  Under a valid configuration and with room
    in the counters, a tick, its additions carried out in binary64, adds
    exactly [sendingRate] to the sent counter and splits it into a delivered
    part and a dropped part that are both non-negative: no counter
    decreases. *)
Theorem tick_counters_monotone (t : string) (st : Sim) :
  goodState st -> roomFor (sendingRate st) st ->
  exists st', simulateNetworkTraffic64 t st = Some st' /\
    sentPackets st' = sentPackets st + sendingRate st /\
    deliveredPackets st <= deliveredPackets st'
      <= deliveredPackets st + sendingRate st /\
    droppedPackets st <= droppedPackets st'
      <= droppedPackets st + sendingRate st.
Proof.
  intros Hg Hr.
  rewrite (tick64_agrees t st (proj1 Hg) (proj1 (proj2 Hg)) Hr).
  exact (tick_counter_steps t st Hg).
Qed.

Lemma tick_counters_monotone_witness :
  let st := mkSim 10 2 20 2 18 udp true 1 emptyChart true in
  (goodState st /\ roomFor (sendingRate st) st) /\
  exists st', simulateNetworkTraffic64 "3" st = Some st' /\
    sentPackets st' = 30 /\
    deliveredPackets st <= deliveredPackets st' /\
    droppedPackets st <= droppedPackets st'.
Proof.
  intros st.
  assert (Hg : goodState st).
  { unfold goodState, validConfig, conserved, validValue, B64.MAX_SAFE_INTEGER, st.
    cbn [packetRate networkCapacity tcpWindowSize sentPackets deliveredPackets
         droppedPackets]. lia. }
  assert (Hr : roomFor (sendingRate st) st) by (vm_compute; repeat split; discriminate).
  split; [exact (conj Hg Hr)|].
  destruct (tick_counters_monotone "3" st Hg Hr) as (st' & E & S' & D & X).
  exists st'. split; [exact E|]. split; [exact S'|].
  split; [exact (proj1 D)|exact (proj1 X)].
Defined.




(** ** How much an overload tick delivers *)

(** X11 (overload delivery in binary64).  An overload tick with a sending
    rate below 2^51 and room in the counters delivers [networkCapacity] or
    one packet less, and drops the excess or one packet more: the three
    roundings of the formula lose at most one packet against its exact
    reading. *)
Theorem overload_delivers_capacity_or_one_less (t : string) (st : Sim) :
  validConfig st -> validValue (tcpWindowSize st) ->
  roomFor (sendingRate st) st ->
  sendingRate st < 2 ^ 51 ->
  networkCapacity st < sendingRate st ->
  exists st', simulateNetworkTraffic64 t st = Some st' /\
    networkCapacity st - 1 <= deliveredPackets st' - deliveredPackets st
      <= networkCapacity st /\
    sendingRate st - networkCapacity st
      <= droppedPackets st' - droppedPackets st
      <= sendingRate st - networkCapacity st + 1.
Proof.
  intros Hc Hw Hr Hs Hov.
  rewrite (tick64_agrees t st Hc Hw Hr).
  destruct (overload_total st Hc Hw Hov) as (d & w' & Hd & Hb & _).
  pose proof (proj2 Hc) as Hcap. unfold validValue in Hcap.
  destruct (deliveredUnderOverload_near_capacity (sendingRate st) (networkCapacity st))
    as (d' & Hd' & Bd); try lia.
  assert (d' = d) by congruence. subst d'.
  rewrite (tick_overload t st d w' Hov Hd Hb).
  eexists; split; [reflexivity|].
  cbn [deliveredPackets droppedPackets]. lia.
Qed.

Lemma overload_delivers_capacity_or_one_less_witness :
  let st := mkSim 10 2 0 0 0 udp true 1 emptyChart true in
  (validConfig st /\ validValue (tcpWindowSize st) /\
   roomFor (sendingRate st) st /\ sendingRate st < 2 ^ 51 /\
   networkCapacity st < sendingRate st) /\
  exists st', simulateNetworkTraffic64 "1" st = Some st' /\
    2 - 1 <= deliveredPackets st' - 0 <= 2.
Proof.
  intros st.
  assert (Hc : validConfig st).
  { unfold validConfig, validValue, B64.MAX_SAFE_INTEGER, st;
      cbn [packetRate networkCapacity]. lia. }
  assert (Hw : validValue (tcpWindowSize st)).
  { unfold validValue, B64.MAX_SAFE_INTEGER, st; cbn [tcpWindowSize]. lia. }
  assert (Hr : roomFor (sendingRate st) st) by (vm_compute; repeat split; discriminate).
  assert (Hs : sendingRate st < 2 ^ 51) by reflexivity.
  assert (Hov : networkCapacity st < sendingRate st) by reflexivity.
  split; [exact (conj Hc (conj Hw (conj Hr (conj Hs Hov))))|].
  destruct (overload_delivers_capacity_or_one_less "1" st Hc Hw Hr Hs Hov)
    as (st' & E & D & _).
  exists st'. split; [exact E|]. exact D.
Defined.

(** ** Beyond the safe range *)

(** Why the counters need room: once [sentPackets] has reached 2^53 the
    script's [+=] rounds, and a tick that sends one packet leaves the
    counter where it was. *)
Lemma tick64_rounds_beyond_safe_range :
  let st := mkSim 10 15 (2 ^ 53) (2 ^ 53) 0 tcp true 1 emptyChart true in
  exists st', simulateNetworkTraffic64 "1" st = Some st' /\
    sendingRate st = 1 /\
    sentPackets st' = sentPackets st /\ deliveredPackets st' = deliveredPackets st.
Proof.
  intros st. eexists. split; [vm_compute; reflexivity|].
  repeat split.
Qed.




(** ** The traffic animation *)

Lemma filter_remove_one id (l : list Car) :
  NoDup (map carId l) ->
  existsb (fun c => Nat.eqb (carId c) id) l = true ->
  S (List.length (filter (fun c => negb (Nat.eqb (carId c) id)) l)) = List.length l.
Proof.
  induction l as [|c l IH]; cbn [map existsb filter List.length]; intros Hnd Hex.
  - discriminate.
  - inversion Hnd as [|? ? Hnin Hnd']; subst.
    destruct (Nat.eqb_spec (carId c) id) as [E|N]; cbn [negb].
    + f_equal.
      assert (Hall : forall l', ~ In id (map carId l') ->
                filter (fun c0 => negb (Nat.eqb (carId c0) id)) l' = l').
      { induction l' as [|c' l' IH']; cbn [map filter]; intros Hni; [reflexivity|].
        destruct (Nat.eqb_spec (carId c') id) as [E'|N']; cbn [negb].
        - exfalso. apply Hni. left. exact E'.
        - f_equal. apply IH'. intros Hin. apply Hni. right. exact Hin. }
      rewrite Hall; [reflexivity|]. rewrite <- E. exact Hnin.
    + cbn [List.length]. f_equal. apply IH; assumption.
Qed.

Lemma NoDup_map_filter (p : Car -> bool) (l : list Car) :
  NoDup (map carId l) -> NoDup (map carId (filter p l)).
Proof.
  induction l as [|c l IH]; cbn [map filter]; intros Hnd; [constructor|].
  inversion Hnd as [|? ? Hnin Hnd']; subst.
  destruct (p c); cbn [map]; [|apply IH; assumption].
  constructor; [|apply IH; assumption].
  intros Hin. apply Hnin. apply in_map_iff in Hin. destruct Hin as (x & Ex & Hx).
  apply in_map_iff. exists x. split; [exact Ex|].
  apply filter_In in Hx. tauto.
Qed.

Lemma createCar_inv lane tr : trafficInv tr -> trafficInv (createCar lane tr).
Proof.
  intros (Ha & Hnd & Hall & Hd). unfold trafficInv, createCar.
  cbn [activePackets carsOnRoad carsCreated trafficDensity].
  split; [rewrite length_app; cbn [List.length]; lia|].
  split; [|split; [|exact Hd]].
  - rewrite map_app. cbn [map carId].
    apply NoDup_rev in Hnd. rewrite <- (rev_involutive (_ ++ _)).
    apply NoDup_rev. rewrite rev_app_distr. cbn [rev app].
    constructor; [|exact Hnd].
    intros Hin. apply in_rev in Hin. apply in_map_iff in Hin.
    destruct Hin as (x & Ex & Hx).
    rewrite Forall_forall in Hall. specialize (Hall x Hx). lia.
  - apply Forall_app. split.
    + eapply Forall_impl; [|exact Hall]. cbn. intros; lia.
    + constructor; [cbn; lia|constructor].
Qed.

Lemma generateLoop_inv n : forall i pick tr,
  trafficInv tr -> trafficInv (generateLoop n i pick tr).
Proof.
  induction n as [|n IH]; intros i pick tr H; cbn [generateLoop]; [exact H|].
  apply IH. apply createCar_inv. exact H.
Qed.

Lemma handleTraffic_inv tr e : trafficInv tr -> trafficInv (handleTraffic tr e).
Proof.
  intros H. destruct e; cbn [handleTraffic].
  - repeat split; cbn; try constructor; auto.
  - destruct H as (Ha & Hnd & Hall & Hd). repeat split; cbn; auto.
  - repeat split; cbn; try constructor; auto.
  - destruct H as (Ha & Hnd & Hall & Hd). repeat split; cbn; auto.
  - destruct (trafficInterval tr); [|exact H].
    apply generateLoop_inv. exact H.
  - unfold carTimeout.
    destruct (existsb _ (carsOnRoad tr)) eqn:Ex; [|exact H].
    destruct H as (Ha & Hnd & Hall & Hd).
    pose proof (filter_remove_one id _ Hnd Ex) as Hl.
    unfold trafficInv. cbn [activePackets carsOnRoad carsCreated trafficDensity].
    split; [lia|]. split; [apply NoDup_map_filter; exact Hnd|].
    split; [|exact Hd].
    rewrite Forall_forall in *. intros x Hx. apply filter_In in Hx. apply Hall. tauto.
Qed.

(** X13 (active packet count of the traffic animation).  Whatever the order of
    button presses, interval ticks and car timeouts, [activePackets] is the
    number of cars on the road: it never goes negative, not even when timeouts
    of cars removed by a reset fire later; a reset leaves it at 0, and the
    density is always 3 or 8. *)
Theorem activePackets_counts_cars (es : list TrafficEvent) :
  let tr := runTraffic es initialTraffic in
  activePackets tr = Z.of_nat (List.length (carsOnRoad tr)) /\
  0 <= activePackets tr /\
  (trafficDensity tr = 3 \/ trafficDensity tr = 8) /\
  activePackets (resetTraffic tr) = 0 /\
  forall id, activePackets (carTimeout id (resetTraffic tr)) = 0.
Proof.
  assert (G : forall es tr, trafficInv tr -> trafficInv (runTraffic es tr)).
  { clear. induction es as [|e es IH]; intros tr H; cbn; [exact H|].
    apply IH. apply handleTraffic_inv. exact H. }
  intros tr.
  assert (H0 : trafficInv initialTraffic).
  { repeat split; cbn; try constructor; auto. }
  destruct (G es initialTraffic H0) as (Ha & _ & _ & Hd). fold tr in Ha, Hd.
  split; [exact Ha|]. split; [lia|]. split; [exact Hd|]. split; reflexivity.
Qed.

(** ** The TCP behaviour label *)

Lemma ltb_leb a u : B64.ltb a u = true -> B64.leb a u = true.
Proof.
  unfold B64.ltb, B64.leb, SFltb, SFleb.
  destruct (SFcompare a u) as [[| |]|]; congruence.
Qed.

Lemma not_ltb_cases u a lo hi lo' hi' :
  fin_within lo hi u -> fin_within lo' hi' a ->
  B64.ltb u a = false -> B64.ltb a u = true \/ SFeqb u a = true.
Proof.
  intros Hu Ha. unfold B64.ltb, SFltb, SFeqb. rewrite (SFcompare_swap u a).
  destruct u as [su|su| |su mu eu], a as [sa|sa| |sa ma ea];
    cbn [fin_within] in Hu, Ha; try contradiction;
    destruct (SFcompare _ _) as [[| |]|] eqn:E; cbn; try tauto; try congruence;
    cbn in E; try destruct su; try destruct sa; discriminate.
Qed.

Lemma eqb_85_ltb_70 x :
  SFeqb x (B64.of_Z 85) = true -> B64.ltb (B64.of_Z 70) x = true.
Proof.
  change (B64.of_Z 85) with (S754_finite false 5981343255101440 (-46)).
  change (B64.of_Z 70) with (S754_finite false 4925812092436480 (-46)).
  unfold B64.ltb, SFltb, SFeqb.
  destruct x as [sx|sx| |sx mx ex]; cbn [SFcompare];
    try discriminate; try (destruct sx; discriminate).
  destruct sx; [discriminate|].
  rewrite (Z.compare_antisym ex (-46)).
  destruct (Z.compare_spec ex (-46)) as [->|Hl|Hg]; cbn [CompOpp]; try discriminate.
  destruct (Pos.compare_cont Eq mx 5981343255101440) eqn:Ec; try discriminate.
  apply Pos.compare_eq in Ec. subst mx. reflexivity.
Qed.

(** X14 (behaviour label against status).  The status line and the TCP
    behaviour label use different comparisons at 85 per cent: 'Reducing Rate'
    implies the status Congested, and under a valid configuration Congested
    implies 'Reducing Rate' except when the utilization is exactly 85, where
    the label stays 'Monitoring' (e.g. rate 85 over capacity 100). *)
Theorem behavior_label_versus_status (st : Sim) :
  validConfig st ->
  let u := utilization (A := binary64) (packetRate st) (networkCapacity st) in
  let status := networkStatus (A := binary64) (packetRate st) (networkCapacity st) in
  (tcpBehavior (A := binary64) st = ReducingRate -> status = Congested) /\
  (status = Congested ->
   tcpBehavior (A := binary64) st = ReducingRate \/
   (SFeqb u (B64.of_Z 85) = true /\ tcpBehavior (A := binary64) st = Monitoring)).
Proof.
  intros [Hr Hc] u status.
  assert (Hu : fin_within (-1074) 107 u).
  { apply utilization_fin; unfold validValue, B64.MAX_SAFE_INTEGER in *; lia. }
  assert (H85 : fin_within (-1074) 0 (B64.of_Z 85)) by (apply of_Z_fin; reflexivity).
  assert (Hs : status = if B64.ltb u (B64.of_Z 60) then Normal
                        else if B64.ltb u (B64.of_Z 85) then Warning
                        else Congested) by reflexivity.
  assert (Hb : tcpBehavior (A := binary64) st =
               if B64.ltb (B64.of_Z 85) u then ReducingRate
               else if B64.ltb (B64.of_Z 70) u then Monitoring
               else if tcpWindowSize st <? packetRate st then IncreasingRate
               else BehaviorNormal) by reflexivity.
  split.
  - intros Hred. rewrite Hb in Hred.
    destruct (B64.ltb (B64.of_Z 85) u) eqn:E.
    + pose proof (ltb_leb _ _ E) as L.
      rewrite Hs, (leb_85_not_ltb_60 _ L), (leb_not_ltb _ _ L). reflexivity.
    + destruct (B64.ltb (B64.of_Z 70) u); [discriminate|].
      destruct (tcpWindowSize st <? packetRate st); discriminate.
  - intros Hcong. rewrite Hs in Hcong.
    destruct (B64.ltb u (B64.of_Z 60)); [discriminate|].
    destruct (B64.ltb u (B64.of_Z 85)) eqn:E85; [discriminate|].
    destruct (not_ltb_cases _ _ _ _ _ _ Hu H85 E85) as [Hgt|Heq].
    + left. rewrite Hb, Hgt. reflexivity.
    + destruct (B64.ltb (B64.of_Z 85) u) eqn:Egt.
      * left. rewrite Hb. reflexivity.
      * right. split; [exact Heq|]. rewrite Hb.
        pose proof (eqb_85_ltb_70 _ Heq) as H70.
        rewrite H70. reflexivity.
Qed.

Lemma behavior_label_versus_status_witness :
  let st := mkSim 85 100 0 0 0 tcp false 1 emptyChart false in
  validConfig st /\
  networkStatus (A := binary64) 85 100 = Congested /\
  tcpBehavior (A := binary64) st = Monitoring.
Proof.
  intros st.
  assert (Hc : validConfig st).
  { unfold validConfig, validValue, B64.MAX_SAFE_INTEGER, st;
      cbn [packetRate networkCapacity]. lia. }
  split; [exact Hc|].
  assert (Hs : networkStatus (A := binary64) 85 100 = Congested)
    by (vm_compute; reflexivity).
  split; [exact Hs|].
  destruct (proj2 (behavior_label_versus_status st Hc) Hs) as [Hred|[_ Hm]].
  - exfalso. revert Hred. vm_compute. discriminate.
  - exact Hm.
Defined.
